(** * ArchesWeather: the Earth-Specific block, its layer and the conditional wrapper

    A shallow embedding of [mfai/pytorch/models/archesweather.py]:
    [EarthSpecificBlock], [EarthSpecificLayer] and [CondBasicLayer].

    - Python integers are [Z]: [//] is [Z.div] and [%] is [Z.modulo], which
      round towards minus infinity as Python does.  Tuples of integers and
      [torch.Size] are [list Z].
    - A tensor is a shape with its row-major data; [view], [reshape],
      [permute], [roll], slicing, [chunk], broadcasting and [nn.Linear] are
      computed on the data.  Floating point is idealised: scalars are any
      type with a zero, a one, an addition and a multiplication.
    - A raised exception is an explicit result, and the state of the random
      generator that dropout and drop-path draw from is threaded through
      every module call.
    - The modules built from other libraries ([LayerNorm], [DropPath],
      [AxialAttention], [AxialPositionalEmbedding]) and from [pangu.py]
      ([MLP], [EarthAttention3D]) are fields of a block, and
      [generate_3d_attention_mask] is a parameter.  [CustomPad3d], also of
      [pangu.py], follows the padding descriptor of the specification. *)

From Stdlib Require Import ZArith List Bool Lia.
Import ListNotations.
Open Scope Z_scope.

Set Implicit Arguments.

(** ** Exceptions and results *)

(** What a collaborator (a module of torch, timm, axial_attention or
    [mfai.pytorch.models.pangu]) may raise when it is called. *)
Inductive ext_exn : Type :=
| TypeError_positional (takes given : nat)
| ModuleError (code : Z).

(** The exceptions the code of this file raises itself, one constructor per
    raise site or per failing primitive, and the collaborators' own. *)
Inductive exn : Type :=
| ValueError_window_size (got : list Z)
| ValueError_shift_size (got : list Z)
| ValueError_unpack (expected got : nat)
| AssertionError
| IndexError
| ZeroDivisionError
| RuntimeError_shape
| EinopsError
| CollaboratorError (e : ext_exn).

Inductive result (E A : Type) : Type :=
| Ok (a : A)
| Raise (e : E).

Arguments Ok {E A} a.
Arguments Raise {E A} e.

Definition rbind {E A B} (r : result E A) (k : A -> result E B) : result E B :=
  match r with
  | Ok a => k a
  | Raise e => Raise e
  end.

(** ** Python integers and tuples *)

Definition py_floordiv (a b : Z) : result exn Z :=
  if b =? 0 then Raise ZeroDivisionError else Ok (a / b).

Definition py_mod (a b : Z) : result exn Z :=
  if b =? 0 then Raise ZeroDivisionError else Ok (a mod b).

(** [t[i]] for a constant, non-negative [i]. *)
Definition tuple_get (t : list Z) (i : nat) : result exn Z :=
  match nth_error t i with
  | Some v => Ok v
  | None => Raise IndexError
  end.

(** [t[-3:]] *)
Definition last3 (t : list Z) : list Z :=
  skipn (length t - 3)%nat t.

(** [a, b, c, d, e = t] *)
Definition unpack5 (t : list Z) : result exn (Z * Z * Z * Z * Z) :=
  match t with
  | [a; b; c; d; e] => Ok (a, b, c, d, e)
  | _ => Raise (ValueError_unpack 5 (length t))
  end.

(** Bounds of the Python slice [start:stop] on a sequence of length [n]:
    negative bounds count from the end, and both are clamped. *)
Definition slice_bound (n i : Z) : Z :=
  let i := if i <? 0 then i + n else i in
  Z.max 0 (Z.min n i).

Definition slice_range (n start stop : Z) : Z * Z :=
  let lo := slice_bound n start in
  let hi := slice_bound n stop in
  (lo, Z.max 0 (hi - lo)).

(** ** Scalars *)

Class Scalar (R : Type) : Type := {
  s0 : R;
  s1 : R;
  sadd : R -> R -> R;
  smul : R -> R -> R;
  silu : R -> R
}.

Class ScalarLaws (R : Type) `{Scalar R} : Prop := {
  sadd_0_r : forall x, sadd x s0 = x;
  sadd_0_l : forall x, sadd s0 x = x;
  smul_0_l : forall x, smul s0 x = s0;
  smul_0_r : forall x, smul x s0 = s0
}.

Arguments ScalarLaws R {_}.

#[export] Instance Scalar_Z : Scalar Z := {
  s0 := 0;
  s1 := 1;
  sadd := Z.add;
  smul := Z.mul;
  silu := fun x => x
}.

(** ** Tensors *)

Definition numel (s : list Z) : Z := fold_right Z.mul 1 s.

(** Row-major position of a multi-index, and back. *)
Fixpoint ravel (s idx : list Z) : Z :=
  match s, idx with
  | _ :: s', i :: idx' => i * numel s' + ravel s' idx'
  | _, _ => 0
  end.

Fixpoint unravel (s : list Z) (k : Z) : list Z :=
  match s with
  | [] => []
  | _ :: s' => k / numel s' :: unravel s' (k mod numel s')
  end.

Record Tensor (R : Type) : Type := mkTensor {
  shape : list Z;
  data : list R
}.

Arguments mkTensor {R} shape data.
Arguments shape {R} t.
Arguments data {R} t.

(** Position of the first [d] in [l] ([length l] when there is none). *)
Fixpoint index_of (d : nat) (l : list nat) : nat :=
  match l with
  | [] => O
  | x :: l' => if Nat.eqb x d then O else S (index_of d l')
  end.

(** The shape a [reshape] to [s] gives a tensor of [n] elements: at most one
    entry of [s] is [-1] and is inferred. *)
Definition infer_shape (n : Z) (s : list Z) : result exn (list Z) :=
  if existsb (fun d => d <? -1) s then Raise RuntimeError_shape
  else match count_occ Z.eq_dec s (-1) with
       | O => if numel s =? n then Ok s else Raise RuntimeError_shape
       | 1%nat =>
           let known := numel (remove Z.eq_dec (-1) s) in
           if known =? 0 then Raise RuntimeError_shape
           else if n mod known =? 0
                then Ok (map (fun d => if d =? -1 then n / known else d) s)
                else Raise RuntimeError_shape
       | _ => Raise RuntimeError_shape
       end.

(** Broadcasting of two shapes, aligned on their last dimension. *)
Fixpoint broadcast_rev (a b : list Z) : result exn (list Z) :=
  match a, b with
  | [], _ => Ok b
  | _, [] => Ok a
  | x :: a', y :: b' =>
      rbind (broadcast_rev a' b') (fun r =>
        if x =? y then Ok (x :: r)
        else if x =? 1 then Ok (y :: r)
        else if y =? 1 then Ok (x :: r)
        else Raise RuntimeError_shape)
  end.

Definition broadcast_shapes (a b : list Z) : result exn (list Z) :=
  rbind (broadcast_rev (rev a) (rev b)) (fun r => Ok (rev r)).

(** The index read in an operand of shape [s] for the index [idx] of the
    broadcast result. *)
Definition bcast_index (s idx : list Z) : list Z :=
  map (fun '(d, i) => if d =? 1 then 0 else i)
      (combine s (skipn (length idx - length s) idx)).

Section Tensors.
Context {R : Type} `{Scalar R}.

Definition wf (t : Tensor R) : Prop :=
  length (data t) = Z.to_nat (numel (shape t)) /\ Forall (fun d => 0 < d) (shape t).

Definition get (t : Tensor R) (idx : list Z) : R :=
  nth (Z.to_nat (ravel (shape t) idx)) (data t) s0.

Definition tensor_of_fn (s : list Z) (f : list Z -> R) : Tensor R :=
  mkTensor s (map (fun k => f (unravel s (Z.of_nat k))) (seq 0 (Z.to_nat (numel s)))).

Definition zeros (s : list Z) : Tensor R :=
  mkTensor s (repeat s0 (Z.to_nat (numel s))).

Definition tmap (f : R -> R) (t : Tensor R) : Tensor R :=
  mkTensor (shape t) (map f (data t)).

(** [t.reshape(s)]; [t.view(s)] is the same on the contiguous tensors of
    this model. *)
Definition reshape (t : Tensor R) (s : list Z) : result exn (Tensor R) :=
  rbind (infer_shape (numel (shape t)) s) (fun s' => Ok (mkTensor s' (data t))).

Definition view := reshape.

(** [t.permute(perm)]: axis [i] of the result is axis [perm[i]] of [t]. *)
Definition permute (t : Tensor R) (perm : list nat) : result exn (Tensor R) :=
  let rank := length (shape t) in
  if Nat.eqb (length perm) rank
     && forallb (fun d => existsb (Nat.eqb d) perm) (seq 0 rank)
  then Ok (tensor_of_fn (map (fun p => nth p (shape t) 0) perm)
             (fun idx => get t (map (fun d => nth (index_of d perm) idx 0) (seq 0 rank))))
  else Raise EinopsError.

(** [t.roll(shifts=shift, dims=dim)] for one axis. *)
Definition roll1 (t : Tensor R) (shift : Z) (dim : nat) : result exn (Tensor R) :=
  match nth_error (shape t) dim with
  | None => Raise IndexError
  | Some n =>
      Ok (tensor_of_fn (shape t)
            (fun idx => get t (map (fun '(j, i) => if Nat.eqb j dim then (i - shift) mod n else i)
                                   (combine (seq 0 (length idx)) idx))))
  end.

(** [t.roll(shifts, dims)] with tuples: one axis after the other. *)
Fixpoint roll (t : Tensor R) (shifts : list Z) (dims : list nat) : result exn (Tensor R) :=
  match shifts, dims with
  | [], [] => Ok t
  | sh :: shifts', d :: dims' => rbind (roll1 t sh d) (fun t' => roll t' shifts' dims')
  | _, _ => Raise RuntimeError_shape
  end.

(** [t[r0, r1, ...]] where each [r] is [:] ([None]) or [start:stop]. *)
Definition slice_dims (t : Tensor R) (ranges : list (option (Z * Z))) : result exn (Tensor R) :=
  if Nat.ltb (length (shape t)) (length ranges) then Raise IndexError
  else
    let ranges := ranges ++ repeat None (length (shape t) - length ranges) in
    let lohi := map (fun '(n, r) => match r with
                                    | None => (0, n)
                                    | Some (a, b) => slice_range n a b
                                    end) (combine (shape t) ranges) in
    Ok (tensor_of_fn (map snd lohi)
          (fun idx => get t (map (fun '(lh, i) => fst lh + i) (combine lohi idx)))).

(** [t[:, None, :]] *)
Definition unsqueeze1 (t : Tensor R) : result exn (Tensor R) :=
  match shape t with
  | a :: b :: rest => Ok (mkTensor (a :: 1 :: b :: rest) (data t))
  | _ => Raise IndexError
  end.

(** Elementwise binary operation with broadcasting. *)
Definition binop (op : R -> R -> R) (a b : Tensor R) : result exn (Tensor R) :=
  rbind (broadcast_shapes (shape a) (shape b)) (fun s =>
    Ok (tensor_of_fn s (fun idx => op (get a (bcast_index (shape a) idx))
                                      (get b (bcast_index (shape b) idx))))).

Definition tadd := binop sadd.
Definition tmul := binop smul.

(** [1 + t] *)
Definition one_plus (t : Tensor R) : Tensor R := tmap (sadd s1) t.

(** [t.chunk(chunks, dim)]: pieces of [ceil(n / chunks)] along [dim], the
    last one possibly shorter. *)
Definition chunk (t : Tensor R) (chunks : Z) (dim : nat) : result exn (list (Tensor R)) :=
  match nth_error (shape t) dim with
  | None => Raise IndexError
  | Some n =>
      let cs := (n + chunks - 1) / chunks in
      let count := if cs =? 0 then chunks else (n + cs - 1) / cs in
      fold_right
        (fun i acc =>
           rbind (slice_dims t (repeat None dim ++ [Some (Z.of_nat i * cs, Z.of_nat i * cs + cs)]))
                 (fun c => rbind acc (fun cs' => Ok (c :: cs'))))
        (Ok []) (seq 0 (Z.to_nat count))
  end.

(** [nn.Linear]: [x @ weight.T + bias] on the last axis of [x], whatever
    the axes before it are: a vector, a batch of vectors or more. *)
Definition linear (weight bias x : Tensor R) : result exn (Tensor R) :=
  match rev (shape x), shape weight, shape bias with
  | n :: batch, [m; n'], [m'] =>
      if (n =? n') && (m =? m')
      then Ok (tensor_of_fn (rev batch ++ [m])
                 (fun idx =>
                    let i := removelast idx in
                    let j := last idx 0 in
                    sadd (fold_right (fun k acc => sadd (smul (get x (i ++ [Z.of_nat k]))
                                                               (get weight [j; Z.of_nat k])) acc)
                                     s0 (seq 0 (Z.to_nat n)))
                         (get bias [j])))
      else Raise RuntimeError_shape
  | _, _, _ => Raise RuntimeError_shape
  end.

End Tensors.

(** ** The monad of a forward pass *)

Section Model.
Variable R : Type.
Context {scalar : Scalar R}.

(** State of the random generator that dropout and drop-path draw from. *)
Variable Rng : Type.

Definition M (A : Type) : Type := Rng -> result exn (A * Rng).

Definition ret {A} (a : A) : M A := fun g => Ok (a, g).

Definition bind {A B} (m : M A) (k : A -> M B) : M B :=
  fun g => match m g with
           | Ok (a, g') => k a g'
           | Raise e => Raise e
           end.

Definition raise {A} (e : exn) : M A := fun _ => Raise e.

Definition lift {A} (r : result exn A) : M A :=
  fun g => match r with
           | Ok a => Ok (a, g)
           | Raise e => Raise e
           end.

Definition lift_ext {A} (r : result ext_exn A) : M A :=
  fun g => match r with
           | Ok a => Ok (a, g)
           | Raise e => Raise (CollaboratorError e)
           end.

Local Notation "x <- m ;; k" := (bind m (fun x => k))
  (at level 61, m at next level, right associativity).
Local Notation "' p <- m ;; k" := (bind m (fun x => let p := x in k))
  (at level 61, p pattern, m at next level, right associativity).

(** ** Collaborators *)

(** An [nn.Module] with one tensor argument ([LayerNorm], [DropPath],
    [MLP], [AxialPositionalEmbedding], [AxialAttention]) with its weights
    and its training flag. *)
Definition Module : Type := Tensor R -> Rng -> result ext_exn (Tensor R * Rng).

(** [EarthAttention3D] of [pangu.py], called with the windows, the mask
    and the integer positional arguments that follow them. *)
Definition Attention : Type :=
  Tensor R -> option (Tensor R) -> list Z -> Rng -> result ext_exn (Tensor R * Rng).

Definition run_ext {A} (r : result ext_exn (A * Rng)) : result exn (A * Rng) :=
  match r with
  | Ok a => Ok a
  | Raise e => Raise (CollaboratorError e)
  end.

Definition call (m : Module) (x : Tensor R) : M (Tensor R) :=
  fun g => run_ext (m x g).

Definition call_attention (a : Attention) (x : Tensor R) (mask : option (Tensor R))
           (args : list Z) : M (Tensor R) :=
  fun g => run_ext (a x mask args g).

(** [torch.utils.checkpoint.checkpoint] with [use_reentrant=False] returns
    [function] applied to the positional arguments given after it; what it
    changes is which activations are kept for the backward pass. *)
Definition checkpoint (function : Tensor R -> option (Tensor R) -> list Z -> M (Tensor R))
           (x : Tensor R) (mask : option (Tensor R)) (args : list Z) : M (Tensor R) :=
  function x mask args.

(** [generate_3d_attention_mask] of [pangu.py]. *)
Variable generate_3d_attention_mask :
  Tensor R -> list Z -> list Z -> bool -> result ext_exn (Tensor R).

(** *** CustomPad3d *)

Record CustomPad3d : Type := {
  padding : Z * Z * Z * Z * Z * Z;
  padded_size : list Z
}.

(** Modelled from the spec: [CustomPad3d] of [pangu.py], of which only the
    calls are in this file.  Per axis the padding is the least amount that
    makes the padded length a multiple of the window length, split as
    evenly as possible between the two sides. *)
Definition axis_padding (n w : Z) : result exn (Z * Z) :=
  rbind (py_mod (- n) w) (fun total => Ok (total / 2, total - total / 2)).

(** Modelled from the spec: the constructor of [CustomPad3d], giving the
    padding descriptor (left, right, top, bottom, front, back) and the
    padded size of a volume (level, latitude, longitude).  The window
    geometry is a triple (window_z, window_lat, window_lon): a window size
    of another length is refused here by an assertion, so that a geometry
    that is not 3D does not outlive construction. *)
Definition CustomPad3d_init (data_size window_size : list Z) : result exn CustomPad3d :=
  if negb (Nat.eqb (length window_size) 3) then Raise AssertionError
  else
  rbind (tuple_get data_size 0) (fun pl =>
  rbind (tuple_get data_size 1) (fun lat =>
  rbind (tuple_get data_size 2) (fun lon =>
  rbind (tuple_get window_size 0) (fun w_pl =>
  rbind (tuple_get window_size 1) (fun w_lat =>
  rbind (tuple_get window_size 2) (fun w_lon =>
  rbind (axis_padding lon w_lon) (fun '(p_left, p_right) =>
  rbind (axis_padding lat w_lat) (fun '(p_top, p_bottom) =>
  rbind (axis_padding pl w_pl) (fun '(p_front, p_back) =>
  Ok {| padding := (p_left, p_right, p_top, p_bottom, p_front, p_back);
        padded_size := [pl + p_front + p_back; lat + p_top + p_bottom;
                        lon + p_left + p_right] |}))))))))).

(** Modelled from the spec: the forward of [CustomPad3d], zero padding of
    the last three axes of a (batch, channel, level, latitude, longitude)
    tensor. *)
Definition CustomPad3d_forward (self : CustomPad3d) (x : Tensor R) : result exn (Tensor R) :=
  let '(p_left, p_right, p_top, p_bottom, p_front, p_back) := padding self in
  match shape x with
  | [b; c; z; h; w] =>
      Ok (tensor_of_fn [b; c; z + p_front + p_back; h + p_top + p_bottom;
                        w + p_left + p_right]
            (fun idx =>
               let k := nth 2 idx 0 - p_front in
               let i := nth 3 idx 0 - p_top in
               let j := nth 4 idx 0 - p_left in
               if (0 <=? k) && (k <? z) && (0 <=? i) && (i <? h) && (0 <=? j) && (j <? w)
               then get x [nth 0 idx 0; nth 1 idx 0; k; i; j]
               else s0))
  | _ => Raise RuntimeError_shape
  end.

(** ** EarthSpecificBlock *)

Record EarthSpecificBlock : Type := {
  checkpoint_activation : bool;
  lam : bool;
  window_size : list Z;
  shift_size : list Z;
  drop_path : Module;
  norm1 : Module;
  pad3D : CustomPad3d;
  attention : Attention;
  norm2 : Module;
  mlp : Module;
  (** [axis_pos_embed] and [axial_attn], attributes that exist only when
      axial attention is enabled *)
  axial : option (Module * Module)
}.

(** The modules the collaborators' constructors return for the arguments
    of one block ([dim], [heads], [drop_path_ratio], [dropout_rate],
    [axial_attn_heads], the padded size and the window size). *)
Record Submodules : Type := {
  new_DropPath : Module;
  new_LayerNorm1 : Module;
  new_EarthAttention3D : Attention;
  new_LayerNorm2 : Module;
  new_MLP : Module;
  new_AxialPositionalEmbedding : Module;
  new_AxialAttention : Module
}.

(** [EarthSpecificBlock.__init__]: the check of the window size, the shift
    size, and the modules. *)
Definition EarthSpecificBlock_init (mods : Submodules) (data_size : list Z)
           (window_size : list Z) (axial_attn checkpoint_activation lam : bool)
  : result exn EarthSpecificBlock :=
  if negb (forallb (fun w_s => (w_s =? 1) || (w_s mod 2 =? 0)) window_size)
  then Raise (ValueError_window_size window_size)
  else
    let shift_size := map (fun w_size => w_size / 2 + w_size mod 2) window_size in
    rbind (CustomPad3d_init (last3 data_size) window_size) (fun pad3D =>
    rbind (if axial_attn
           then if Nat.ltb (length data_size) 3 then Raise IndexError
                else Ok (Some (new_AxialPositionalEmbedding mods, new_AxialAttention mods))
           else Ok None) (fun axial =>
    Ok {| checkpoint_activation := checkpoint_activation;
          lam := lam;
          window_size := window_size;
          shift_size := shift_size;
          drop_path := new_DropPath mods;
          norm1 := new_LayerNorm1 mods;
          pad3D := pad3D;
          attention := new_EarthAttention3D mods;
          norm2 := new_LayerNorm2 mods;
          mlp := new_MLP mods;
          axial := axial |})).

(** [rearrange(x, "b (pl lat lon) c -> (b lat lon) pl c", pl, lat, lon)] *)
Definition rearrange_to_columns (x : Tensor R) (pl lat lon : Z) : result exn (Tensor R) :=
  match shape x with
  | [b; n; c] =>
      if n =? pl * lat * lon
      then rbind (reshape x [b; pl; lat; lon; c]) (fun x =>
           rbind (permute x [0; 2; 3; 1; 4]%nat) (fun x =>
           reshape x [b * lat * lon; pl; c]))
      else Raise EinopsError
  | _ => Raise EinopsError
  end.

(** [rearrange(x2, "(b lat lon) pl c -> b (pl lat lon) c", b, lat, lon)] *)
Definition rearrange_from_columns (x2 : Tensor R) (b lat lon : Z) : result exn (Tensor R) :=
  match shape x2 with
  | [n; pl; c] =>
      if n =? b * lat * lon
      then rbind (reshape x2 [b; lat; lon; pl; c]) (fun x =>
           rbind (permute x [0; 3; 1; 2; 4]%nat) (fun x =>
           reshape x [b; pl * lat * lon; c]))
      else Raise EinopsError
  | _ => Raise EinopsError
  end.

(** [gate_msa], [shift_mlp], [scale_mlp] and [gate_mlp], bound only when
    [cond_embed] is given. *)
Definition Modulation : Type := option (Tensor R * Tensor R * Tensor R * Tensor R).

(** [forward], first part: [norm1] and the block marked [# ArchesWeather
    code] that modulates its output. *)
Definition forward_modulate (self : EarthSpecificBlock) (x : Tensor R)
           (cond_embed : option (Tensor R)) : M (Tensor R * Modulation) :=
  x <- call (norm1 self) x ;;
  match cond_embed with
  | Some cond_embed =>
      chunks <- lift (chunk cond_embed 6 1) ;;
      match chunks with
      | [shift_msa; scale_msa; gate_msa; shift_mlp; scale_mlp; gate_mlp] =>
          scale <- lift (unsqueeze1 scale_msa) ;;
          x <- lift (tmul x (one_plus scale)) ;;
          shift <- lift (unsqueeze1 shift_msa) ;;
          x <- lift (tadd x shift) ;;
          ret (x, Some (gate_msa, shift_mlp, scale_mlp, gate_mlp))
      | _ => raise (ValueError_unpack 6 (length chunks))
      end
  | None => ret (x, None)
  end.

(** [forward], second part: padding, optional roll, window attention and
    their inverses.  Gives [x] flattened again, with [batch_size], [pl],
    [lat] and [lon]. *)
Definition forward_window_attention (self : EarthSpecificBlock) (x : Tensor R)
           (embedding_shape : list Z) (roll_ : bool)
  : M (Tensor R * (Z * Z * Z * Z)) :=
  (* Reshape input to three dimensions to calculate window attention *)
  x <- lift (view x embedding_shape) ;;
  (* Zero-pad input if needed: b z h w c -> b c z h w, pad, and back *)
  x <- lift (permute x [0; 4; 1; 2; 3]%nat) ;;
  x <- lift (CustomPad3d_forward (pad3D self) x) ;;
  x <- lift (permute x [0; 2; 3; 4; 1]%nat) ;;
  '(batch_size, padded_z, padded_h, padded_w, channels) <- lift (unpack5 (shape x)) ;;
  '(x, mask) <-
    (if roll_
     then
       (* Roll x for half of the window for 3 dimensions *)
       s_0 <- lift (tuple_get (shift_size self) 0) ;;
       s_1 <- lift (tuple_get (shift_size self) 1) ;;
       s_2 <- lift (tuple_get (shift_size self) 2) ;;
       x <- lift (roll x [- s_0; - s_1; - s_2] [1; 2; 3]%nat) ;;
       if negb (Nat.eqb (length (shift_size self)) 3)
       then raise (ValueError_shift_size (shift_size self))
       else
         mask <- lift_ext (generate_3d_attention_mask x (window_size self)
                                                      (shift_size self) (lam self)) ;;
         ret (x, Some mask)
     else ret (x, None)) ;;
  (* Reorganize data to calculate window attention *)
  w_0 <- lift (tuple_get (window_size self) 0) ;;
  n_z <- lift (py_floordiv padded_z w_0) ;;
  w_1 <- lift (tuple_get (window_size self) 1) ;;
  n_h <- lift (py_floordiv padded_h w_1) ;;
  w_2 <- lift (tuple_get (window_size self) 2) ;;
  n_w <- lift (py_floordiv padded_w w_2) ;;
  x_window <- lift (reshape x [nth 0 (shape x) 0; n_z; w_0; n_h; w_1; n_w; w_2; -1]) ;;
  (* b z c1 h c2 w c3 c4 -> b z h w c1 c2 c3 c4 *)
  x_window <- lift (permute x_window [0; 1; 3; 5; 2; 4; 6; 7]%nat) ;;
  (* Get data stacked in 3D cubes *)
  x_window <- lift (reshape x_window [-1; w_0 * w_1 * w_2; channels]) ;;
  (* Apply 3D window attention with Earth-Specific bias *)
  x_window <-
    (if checkpoint_activation self
     then checkpoint (call_attention (attention self)) x_window mask
                     [batch_size; padded_z; padded_h]
     else call_attention (attention self) x_window mask [batch_size]) ;;
  (* Reorganize data to original shapes *)
  x <- lift (reshape x_window [batch_size; n_z; n_h; n_w; w_0; w_1; w_2; -1]) ;;
  (* b z h w c1 c2 c3 c4 -> b z c1 h c2 w c3 c4 *)
  x <- lift (permute x [0; 1; 4; 2; 5; 3; 6; 7]%nat) ;;
  x <- lift (reshape x [batch_size; padded_z; padded_h; padded_w; -1]) ;;
  x <-
    (if roll_
     then
       (* Roll x back for half of the window *)
       s_0 <- lift (tuple_get (shift_size self) 0) ;;
       s_1 <- lift (tuple_get (shift_size self) 1) ;;
       s_2 <- lift (tuple_get (shift_size self) 2) ;;
       lift (roll x [s_0; s_1; s_2] [1; 2; 3]%nat)
     else ret x) ;;
  (* Crop the zero-padding *)
  let '(padding_left, padding_right, padding_top, padding_bottom,
        padding_front, padding_back) := padding (pad3D self) in
  x <- lift (slice_dims x [None;
                           Some (padding_front, padded_z - padding_back);
                           Some (padding_top, padded_h - padding_bottom);
                           Some (padding_left, padded_w - padding_right);
                           None]) ;;
  (* Reshape the tensor back to the input shape *)
  '(batch_size, pl, lat, lon, channels) <- lift (unpack5 (shape x)) ;;
  x <- lift (reshape x [batch_size; -1; channels]) ;;
  ret (x, (batch_size, pl, lat, lon)).

(** [forward], third part: the second block marked [# ArchesWeather code],
    up to the main calculation stages.  [x2] exists only when the block has
    the attribute [axial_attn]. *)
Definition forward_axial_attention (self : EarthSpecificBlock) (x : Tensor R)
           (dims : Z * Z * Z * Z) : M (option (Tensor R)) :=
  let '(batch_size, pl, lat, lon) := dims in
  match axial self with
  | Some (axis_pos_embed, axial_attn) =>
      x2 <- lift (rearrange_to_columns x pl lat lon) ;;
      x2 <- call axis_pos_embed x2 ;;
      x2 <- call axial_attn x2 ;;
      x2 <- lift (rearrange_from_columns x2 batch_size lat lon) ;;
      ret (Some x2)
  | None => ret None
  end.

(** [forward], last part: from the comment [# Main calculation stages] on. *)
Definition forward_main_stages (self : EarthSpecificBlock) (shortcut x : Tensor R)
           (x2 : option (Tensor R)) (modulation : Modulation) : M (Tensor R) :=
  match modulation with
  | None =>
      dx <- call (drop_path self) x ;;
      x <- lift (tadd shortcut dx) ;;
      x <- match x2 with
           | Some x2 => dx2 <- call (drop_path self) x2 ;; lift (tadd x dx2)
           | None => ret x
           end ;;
      n <- call (norm2 self) x ;;
      m <- call (mlp self) n ;;
      dm <- call (drop_path self) m ;;
      lift (tadd x dm)
  | Some (gate_msa, shift_mlp, scale_mlp, gate_mlp) =>
      x <- match x2 with
           | Some x2 => dx2 <- call (drop_path self) x2 ;; lift (tadd x dx2)
           | None => ret x
           end ;;
      gate <- lift (unsqueeze1 gate_msa) ;;
      dx <- call (drop_path self) x ;;
      gx <- lift (tmul gate dx) ;;
      x <- lift (tadd shortcut gx) ;;
      n <- call (norm2 self) x ;;
      scale <- lift (unsqueeze1 scale_mlp) ;;
      sn <- lift (tmul n (one_plus scale)) ;;
      shift <- lift (unsqueeze1 shift_mlp) ;;
      mlp_input <- lift (tadd sn shift) ;;
      gate <- lift (unsqueeze1 gate_mlp) ;;
      m <- call (mlp self) mlp_input ;;
      gm <- lift (tmul gate m) ;;
      dgm <- call (drop_path self) gm ;;
      lift (tadd x dgm)
  end.

(** [EarthSpecificBlock.forward]: its four parts, one after the other. *)
Definition EarthSpecificBlock_forward (self : EarthSpecificBlock) (x : Tensor R)
           (embedding_shape : list Z) (cond_embed : option (Tensor R)) (roll_ : bool)
  : M (Tensor R) :=
  (* Save the shortcut for skip-connection *)
  let shortcut := x in
  '(x, modulation) <- forward_modulate self x cond_embed ;;
  '(x, dims) <- forward_window_attention self x embedding_shape roll_ ;;
  x2 <- forward_axial_attention self x dims ;;
  forward_main_stages self shortcut x x2 modulation.

(** ** EarthSpecificLayer *)

Record EarthSpecificLayer : Type := {
  blocks : list EarthSpecificBlock
}.

(** [for i in range(depth): self.blocks.append(EarthSpecificBlock(...))];
    [mods] holds, per block, what the collaborators build for
    [drop_path_ratio_list[i]] and the shared arguments. *)
Fixpoint build_blocks (mods : list Submodules) (i count : nat) (data_size window_size : list Z)
         (axial_attn checkpoint_activation lam : bool) : result exn (list EarthSpecificBlock) :=
  match count with
  | O => Ok []
  | S count' =>
      match nth_error mods i with
      | None => Raise IndexError
      | Some m =>
          rbind (EarthSpecificBlock_init m data_size window_size axial_attn
                                         checkpoint_activation lam) (fun block =>
          rbind (build_blocks mods (S i) count' data_size window_size axial_attn
                              checkpoint_activation lam) (fun rest =>
          Ok (block :: rest)))
      end
  end.

Definition EarthSpecificLayer_init (depth : Z) (data_size : list Z) (mods : list Submodules)
           (window_size : list Z) (axial_attn checkpoint_activation lam : bool)
  : result exn EarthSpecificLayer :=
  rbind (build_blocks mods 0 (Z.to_nat depth) data_size window_size axial_attn
                      checkpoint_activation lam) (fun bs =>
  Ok {| blocks := bs |}).

(** [for i, block in enumerate(self.blocks)], from index [i] on. *)
Fixpoint layer_loop (bs : list EarthSpecificBlock) (i : Z) (x : Tensor R)
         (embedding_shape : list Z) (cond_embed : option (Tensor R)) : M (Tensor R) :=
  match bs with
  | [] => ret x
  | block :: rest =>
      x <- (* Roll the input every two blocks *)
           (if i mod 2 =? 0
            then EarthSpecificBlock_forward block x embedding_shape cond_embed false
            else EarthSpecificBlock_forward block x embedding_shape cond_embed true) ;;
      layer_loop rest (i + 1) x embedding_shape cond_embed
  end.

(** [EarthSpecificLayer.forward] *)
Definition EarthSpecificLayer_forward (self : EarthSpecificLayer) (x : Tensor R)
           (embedding_shape : list Z) (cond_embed : option (Tensor R)) : M (Tensor R) :=
  layer_loop (blocks self) 0 x embedding_shape cond_embed.

(** ** CondBasicLayer *)

(** The layer it extends, and the weight and bias of the [nn.Linear] that
    ends [adaLN_modulation]. *)
Record CondBasicLayer : Type := {
  base : EarthSpecificLayer;
  adaLN_weight : Tensor R;
  adaLN_bias : Tensor R
}.

(** [nn.Sequential(nn.SiLU(), nn.Linear(cond_dim, 6 * dim, bias=True))] *)
Definition adaLN_modulation (self : CondBasicLayer) (cond_emb : Tensor R)
  : result exn (Tensor R) :=
  linear (adaLN_weight self) (adaLN_bias self) (tmap silu cond_emb).

(** The constructor of the layer it extends, then the [nn.Linear] of
    [adaLN_modulation], whose weight and bias are set to 0. *)
Definition CondBasicLayer_init (depth : Z) (data_size : list Z) (dim cond_dim : Z)
           (mods : list Submodules) (window_size : list Z)
           (lam axial_attn checkpoint_activation : bool) : result exn CondBasicLayer :=
  rbind (EarthSpecificLayer_init depth data_size mods window_size axial_attn
                                 checkpoint_activation lam) (fun super =>
  if (cond_dim <? 0) || (6 * dim <? 0) then Raise RuntimeError_shape
  else Ok {| base := super;
             adaLN_weight := zeros [6 * dim; cond_dim];
             adaLN_bias := zeros [6 * dim] |}).

(** [CondBasicLayer.forward] *)
Definition CondBasicLayer_forward (self : CondBasicLayer) (x : Tensor R)
           (embedding_shape : list Z) (cond_emb : option (Tensor R)) : M (Tensor R) :=
  c <- match cond_emb with
       | Some cond_emb => c <- lift (adaLN_modulation self cond_emb) ;; ret (Some c)
       | None => ret None
       end ;;
  EarthSpecificLayer_forward (base self) x embedding_shape c.

End Model.

(** ** The statements of the specification, in its own words *)

(** [ceil(w / 2)] *)
Definition ceil_half (w : Z) : Z := - ((- w) / 2).

(** The configuration errors of the specification's taxonomy that this file
    raises: an invalid window geometry and an invalid shift geometry. *)
Definition configuration_error (e : exn) : bool :=
  match e with
  | ValueError_window_size _ | ValueError_shift_size _ => true
  | _ => false
  end.

(** The roll flags of a layer of [n] blocks: [True] at the odd positions. *)
Definition roll_flags (n : nat) : list bool := map Nat.odd (seq 0 n).

Section Specification.
Variable R : Type.
Context {scalar : Scalar R}.
Variable Rng : Type.
Variable generate_3d_attention_mask :
  Tensor R -> list Z -> list Z -> bool -> result ext_exn (Tensor R).

Local Notation "x <- m ;; k" := (bind m (fun x => k))
  (at level 61, m at next level, right associativity).

(** The blocks called one after the other, each with its own roll flag. *)
Fixpoint run_schedule (schedule : list (EarthSpecificBlock R Rng * bool)) (x : Tensor R)
         (embedding_shape : list Z) (cond_embed : option (Tensor R)) : M Rng (Tensor R) :=
  match schedule with
  | [] => ret x
  | (block, roll_) :: rest =>
      x <- EarthSpecificBlock_forward generate_3d_attention_mask block x
             embedding_shape cond_embed roll_ ;;
      run_schedule rest x embedding_shape cond_embed
  end.

(** The conditioned residual combination as the specification writes it:
    [out = shortcut + gate_attn * drop_path(window_attn[+axial_attn])], the
    FFN input is [norm(out) * (1 + scale_ffn) + shift_ffn], and then
    [out + drop_path(gate_ffn * FFN(ffn_input))].  [axial_to_add] is what is
    added to the output of the window attention. *)
Definition conditioned_stages (self : EarthSpecificBlock R Rng)
           (shortcut window_attn : Tensor R) (axial_to_add : M Rng (option (Tensor R)))
           (gate_attn shift_ffn scale_ffn gate_ffn : Tensor R) : M Rng (Tensor R) :=
  attn <- (a <- axial_to_add ;;
           match a with
           | Some a => lift (tadd window_attn a)
           | None => ret window_attn
           end) ;;
  gate <- lift (unsqueeze1 gate_attn) ;;
  dropped <- call (drop_path self) attn ;;
  gated <- lift (tmul gate dropped) ;;
  out <- lift (tadd shortcut gated) ;;
  normed <- call (norm2 self) out ;;
  scale <- lift (unsqueeze1 scale_ffn) ;;
  scaled <- lift (tmul normed (one_plus scale)) ;;
  shift <- lift (unsqueeze1 shift_ffn) ;;
  ffn_input <- lift (tadd scaled shift) ;;
  gate <- lift (unsqueeze1 gate_ffn) ;;
  ffn <- call (mlp self) ffn_input ;;
  gated <- lift (tmul gate ffn) ;;
  dropped <- call (drop_path self) gated ;;
  lift (tadd out dropped).

(** As the specification has it, the axial output is added as it is. *)
Definition claimed_conditioned_stages (self : EarthSpecificBlock R Rng)
           (shortcut window_attn : Tensor R) (axial_attn : option (Tensor R)) :=
  conditioned_stages self shortcut window_attn (ret axial_attn).

(** In the code the axial output goes through [drop_path] first. *)
Definition dropped_axial_stages (self : EarthSpecificBlock R Rng)
           (shortcut window_attn : Tensor R) (axial_attn : option (Tensor R)) :=
  conditioned_stages self shortcut window_attn
    match axial_attn with
    | Some a => a <- call (drop_path self) a ;; ret (Some a)
    | None => ret None
    end.

(** A forward pass whose conditioned residual combination is [stages]. *)
Definition forward_with_stages
           (stages : EarthSpecificBlock R Rng -> Tensor R -> Tensor R -> option (Tensor R) ->
                     Tensor R -> Tensor R -> Tensor R -> Tensor R -> M Rng (Tensor R))
           (self : EarthSpecificBlock R Rng) (x : Tensor R) (embedding_shape : list Z)
           (cond_embed : option (Tensor R)) (roll_ : bool) : M Rng (Tensor R) :=
  xm <- forward_modulate self x cond_embed ;;
  wd <- forward_window_attention generate_3d_attention_mask self (fst xm)
          embedding_shape roll_ ;;
  axial_attn <- forward_axial_attention self (fst wd) (snd wd) ;;
  match snd xm with
  | Some (gate_attn, shift_ffn, scale_ffn, gate_ffn) =>
      stages self x (fst wd) axial_attn gate_attn shift_ffn scale_ffn gate_ffn
  | None => forward_main_stages self x (fst wd) axial_attn None
  end.

(** The same block with another value of [checkpoint_activation]. *)
Definition set_checkpoint_activation (self : EarthSpecificBlock R Rng) (flag : bool)
  : EarthSpecificBlock R Rng :=
  {| checkpoint_activation := flag;
     lam := lam self;
     window_size := window_size self;
     shift_size := shift_size self;
     drop_path := drop_path self;
     norm1 := norm1 self;
     pad3D := pad3D self;
     attention := attention self;
     norm2 := norm2 self;
     mlp := mlp self;
     axial := axial self |}.

End Specification.

(** ** Concrete modules and blocks, on integer scalars *)

Definition ex_identity : Module Z unit := fun x g => Ok (x, g).

(** A [DropPath] of drop probability one half on a sample that is kept:
    the input divided by the probability to keep it. *)
Definition ex_double : Module Z unit := fun x g => Ok (tmap (Z.mul 2) x, g).

(** An attention that returns its windows, whatever follows them. *)
Definition ex_attention : Attention Z unit := fun x _ _ g => Ok (x, g).

(** An attention whose [forward(self, x, mask, batch_size)] takes the three
    positional arguments of the call [self.attention(x_window, mask,
    batch_size)] and no more. *)
Definition ex_attention3 : Attention Z unit :=
  fun x _ args g =>
    match args with
    | [_] => Ok (x, g)
    | _ => Raise (TypeError_positional 3 (2 + length args))
    end.

Definition ex_mask : Tensor Z -> list Z -> list Z -> bool -> result ext_exn (Tensor Z) :=
  fun _ _ _ _ => Ok (zeros [1]).

Definition ex_mods (drop : Module Z unit) (attn : Attention Z unit) : Submodules Z unit :=
  {| new_DropPath := drop;
     new_LayerNorm1 := ex_identity;
     new_EarthAttention3D := attn;
     new_LayerNorm2 := ex_identity;
     new_MLP := ex_identity;
     new_AxialPositionalEmbedding := ex_identity;
     new_AxialAttention := ex_identity |}.

(** The block that [EarthSpecificBlock_init] builds from these modules for
    a volume of 2 levels, 3 latitudes and 2 longitudes and windows of
    (2, 2, 2): the latitudes are padded to 4. *)
Definition ex_block (drop : Module Z unit) (attn : Attention Z unit)
           (axial_attn checkpoint_activation : bool) : EarthSpecificBlock Z unit :=
  {| checkpoint_activation := checkpoint_activation;
     lam := false;
     window_size := [2; 2; 2];
     shift_size := [1; 1; 1];
     drop_path := drop;
     norm1 := ex_identity;
     pad3D := {| padding := (0, 0, 0, 1, 0, 0); padded_size := [2; 4; 2] |};
     attention := attn;
     norm2 := ex_identity;
     mlp := ex_identity;
     axial := if axial_attn then Some (ex_identity, ex_identity) else None |}.

(** The conditioned layer of one such block, without axial attention and
    without checkpointing, that [CondBasicLayer_init] builds for [dim = 1]
    and [cond_dim = 2]. *)
Definition ex_cond_layer : CondBasicLayer Z unit :=
  {| base := {| blocks := [ex_block ex_identity ex_attention false false] |};
     adaLN_weight := zeros [6; 2];
     adaLN_bias := zeros [6] |}.

(** The layer of depth 2 that [EarthSpecificLayer_init] builds for a volume
    of 8 levels, 36 latitudes and 72 longitudes and windows of (2, 6, 12):
    nothing is padded. *)
Definition ex_layer : EarthSpecificLayer Z unit :=
  let block :=
    {| checkpoint_activation := false;
       lam := false;
       window_size := [2; 6; 12];
       shift_size := [1; 3; 6];
       drop_path := ex_identity;
       norm1 := ex_identity;
       pad3D := {| padding := (0, 0, 0, 0, 0, 0); padded_size := [8; 36; 72] |};
       attention := ex_attention;
       norm2 := ex_identity;
       mlp := ex_identity;
       axial := None |} in
  {| blocks := [block; block] |}.

(** A conditioning vector for one sample. *)
Definition ex_cond_vector : Tensor Z := mkTensor [1; 2] [3; 4].

(** Twelve tokens of one channel, for a volume of 2 levels, 3 latitudes and
    2 longitudes. *)
Definition ex_tokens : Tensor Z := mkTensor [1; 12; 1] [1; 2; 3; 4; 5; 6; 7; 8; 9; 10; 11; 12].

Definition ex_embedding_shape : list Z := [1; 2; 3; 2; 1].

Definition ex_cond : Tensor Z := mkTensor [1; 6] [1; 2; 3; 4; 5; 6].

(** A conditioning embedding for one channel whose attention gate is 1 and
    whose other five chunks are 0. *)
Definition ex_gate_cond : Tensor Z := mkTensor [1; 6] [0; 0; 1; 0; 0; 0].

(** ** Predicates of the properties *)

(** A computation that raises no configuration error, whatever the state of
    the generator. *)
Definition no_configuration_error {Rng A : Type} (m : M Rng A) : Prop :=
  forall (g : Rng) (e : exn), m g = Raise e -> configuration_error e = false.

Definition pure_no_configuration_error {A : Type} (r : result exn A) : Prop :=
  forall e : exn, r = Raise e -> configuration_error e = false.

(** A computation that returns, with a result and a generator state that
    satisfy [P]. *)
Definition runs_to {Rng A : Type} (m : M Rng A) (g : Rng) (P : A -> Rng -> Prop) : Prop :=
  exists (a : A) (g' : Rng), m g = Ok (a, g') /\ P a g'.

Section Collaborators.
Variable R : Type.
Context {scalar : Scalar R}.
Variable Rng : Type.

(** A module that returns, on every well-formed tensor, a well-formed tensor
    of the same shape. *)
Definition module_ok (m : Module R Rng) : Prop :=
  forall (x : Tensor R) (g : Rng), wf x ->
    exists y g', m x g = Ok (y, g') /\ shape y = shape x /\ wf y.

(** An attention that does so when it is called with the windows, the mask
    and the batch size, as [self.attention(x_window, mask, batch_size)]
    calls it. *)
Definition attention_ok (a : Attention R Rng) : Prop :=
  forall (x : Tensor R) (mask : option (Tensor R)) (batch_size : Z) (g : Rng),
    wf x ->
    exists y g', a x mask [batch_size] g = Ok (y, g') /\ shape y = shape x /\ wf y.

(** An attention whose [forward(self, x, mask, batch_size)] takes these
    three positional arguments: a call with another number of them is a
    [TypeError]. *)
Definition attention_signature (a : Attention R Rng) : Prop :=
  forall (x : Tensor R) (mask : option (Tensor R)) (args : list Z) (g : Rng),
    length args <> 1%nat ->
    a x mask args g = Raise (TypeError_positional 3 (2 + length args)).

Definition mask_ok (gen : Tensor R -> list Z -> list Z -> bool -> result ext_exn (Tensor R))
  : Prop :=
  forall x ws ss lam, exists mask, gen x ws ss lam = Ok mask.

(** A module that maps zeros to zeros, as [DropPath] does: it multiplies its
    input by a random factor per sample. *)
Definition preserves_zeros (m : Module R Rng) : Prop :=
  forall (s : list Z) (g : Rng), exists g', m (zeros s) g = Ok (zeros s, g').

Definition submodules_ok (mods : Submodules R Rng) : Prop :=
  module_ok (new_DropPath mods)
  /\ module_ok (new_LayerNorm1 mods)
  /\ attention_ok (new_EarthAttention3D mods)
  /\ module_ok (new_LayerNorm2 mods)
  /\ module_ok (new_MLP mods)
  /\ module_ok (new_AxialPositionalEmbedding mods)
  /\ module_ok (new_AxialAttention mods).

Definition block_modules_ok (self : EarthSpecificBlock R Rng) : Prop :=
  module_ok (drop_path self)
  /\ module_ok (norm1 self)
  /\ attention_ok (attention self)
  /\ module_ok (norm2 self)
  /\ module_ok (mlp self)
  /\ match axial self with
     | Some (axis_pos_embed, axial_attn) => module_ok axis_pos_embed /\ module_ok axial_attn
     | None => True
     end.

(** Positive windows, a shift per axis, and a padding that makes each
    padded length of a volume [z], [h], [w] a multiple of its window. *)
Definition block_geometry_ok (self : EarthSpecificBlock R Rng) (z h w : Z) : Prop :=
  exists wz wh ww p_l p_r p_t p_b p_f p_k,
    window_size self = [wz; wh; ww] /\ 0 < wz /\ 0 < wh /\ 0 < ww
    /\ length (shift_size self) = 3%nat
    /\ padding (pad3D self) = (p_l, p_r, p_t, p_b, p_f, p_k)
    /\ 0 <= p_l /\ 0 <= p_r /\ 0 <= p_t /\ 0 <= p_b /\ 0 <= p_f /\ 0 <= p_k
    /\ (z + p_f + p_k) mod wz = 0
    /\ (h + p_t + p_b) mod wh = 0
    /\ (w + p_l + p_r) mod ww = 0.

End Collaborators.

(** ** LinVert *)

(** [t[-k]] for a constant [k] *)
Definition tuple_get_end (t : list Z) (k : nat) : result exn Z :=
  if Nat.ltb (length t) k then Raise IndexError
  else tuple_get t (length t - k).

(** A dimension given from the front or, when negative, from the end. *)
Definition normalize_dim (rank : nat) (d : Z) : result exn nat :=
  let d' := if d <? 0 then d + Z.of_nat rank else d in
  if (0 <=? d') && (d' <? Z.of_nat rank) then Ok (Z.to_nat d') else Raise IndexError.

Section VerticalMixing.
Variable R : Type.
Context {scalar : Scalar R}.
Variable Rng : Type.

Local Notation "x <- m ;; k" := (bind m (fun x => k))
  (at level 61, m at next level, right associativity).

(** [t.movedim(source, destination)]: the other axes keep their order. *)
Definition movedim (t : Tensor R) (source destination : Z) : result exn (Tensor R) :=
  let rank := length (shape t) in
  rbind (normalize_dim rank source) (fun s =>
  rbind (normalize_dim rank destination) (fun d =>
  let rest := filter (fun i => negb (Nat.eqb i s)) (seq 0 rank) in
  permute t (firstn d rest ++ s :: skipn d rest))).

(** [t.flatten(start_dim, end_dim)] *)
Definition flatten (t : Tensor R) (start_dim end_dim : Z) : result exn (Tensor R) :=
  let rank := length (shape t) in
  rbind (normalize_dim rank start_dim) (fun a =>
  rbind (normalize_dim rank end_dim) (fun e =>
  if Nat.ltb e a then Raise RuntimeError_shape
  else Ok (mkTensor (firstn a (shape t)
                     ++ numel (firstn (S e - a) (skipn a (shape t)))
                     :: skipn (S e) (shape t))
                    (data t)))).

(** The embedding size, and [fc1], an [nn.Linear] over the levels and the
    channels of one column. *)
Record LinVert : Type := {
  embedding_size : list Z;
  fc1 : Module R Rng
}.

(** [LinVert.__init__]; [new_Linear] is the [nn.Linear] built for
    [embedding_size[-3] * in_features] features. *)
Definition LinVert_init (new_Linear : Module R Rng) (embedding_size : list Z)
  : result exn LinVert :=
  rbind (tuple_get_end embedding_size 3) (fun _ =>
  Ok {| embedding_size := embedding_size; fc1 := new_Linear |}).

(** [LinVert.forward] *)
Definition LinVert_forward (self : LinVert) (x : Tensor R) : M Rng (Tensor R) :=
  b <- lift (tuple_get (shape x) 0) ;;
  pl <- lift (tuple_get_end (embedding_size self) 3) ;;
  c <- lift (tuple_get_end (shape x) 1) ;;
  x2 <- lift (reshape x [b; pl; -1; c]) ;;
  x2 <- lift (movedim x2 1 (-2)) ;;
  x2 <- lift (flatten x2 (-2) (-1)) ;;
  (* B, lat*lon, Pl*C *)
  x2 <- call (fc1 self) x2 ;;
  b2 <- lift (tuple_get (shape x2) 0) ;;
  pl <- lift (tuple_get_end (embedding_size self) 3) ;;
  c <- lift (tuple_get_end (shape x) 1) ;;
  x2 <- lift (reshape x2 [b2; -1; pl; c]) ;;
  x2 <- lift (movedim x2 (-2) 1) ;;
  x2 <- lift (flatten x2 1 2) ;;
  (* B, Pl*lat*lon, C *)
  lift (tadd x x2).

End VerticalMixing.

(** A module that returns its input and leaves the generator alone. *)
Definition returns_input {R Rng : Type} (m : Module R Rng) : Prop :=
  forall (x : Tensor R) (g : Rng), m x g = Ok (x, g).

(** A [LinVert] for 2 levels whose linear map is the identity. *)
Definition ex_linvert : LinVert Z unit :=
  {| embedding_size := [2; 3; 2]; fc1 := ex_identity |}.

(** * Properties *)

#[export] Instance ScalarLaws_Z : @ScalarLaws Z Scalar_Z.
Proof. split; intros; cbn; lia. Qed.

(** ** Construction *)

Lemma Ok_inj {E A : Type} (a b : A) : @Ok E A a = Ok b -> a = b.
Proof. intros H. injection H as H. exact H. Qed.

Lemma tuple_get_error (t : list Z) (i : nat) (e : exn) :
  tuple_get t i = Raise e -> e = IndexError.
Proof.
  unfold tuple_get. destruct (nth_error t i); intros E; inversion E; reflexivity.
Qed.

Lemma axis_padding_error (n w : Z) (e : exn) :
  axis_padding n w = Raise e -> e = ZeroDivisionError.
Proof.
  unfold axis_padding, py_mod. destruct (w =? 0); cbn; intros E; inversion E; reflexivity.
Qed.

Lemma CustomPad3d_init_error (data_size window_size : list Z) (e : exn) :
  CustomPad3d_init data_size window_size = Raise e -> configuration_error e = false.
Proof.
  unfold CustomPad3d_init.
  destruct (negb _); [intros X; inversion X; reflexivity|].
  repeat match goal with
         | |- rbind ?r _ = _ -> _ =>
             let E := fresh "E" in
             destruct r as [?|?] eqn:E; cbn [rbind];
             [ | intros X; inversion X; subst;
                 first [ apply tuple_get_error in E | apply axis_padding_error in E ];
                 subst; reflexivity ]
         | p : (Z * Z)%type |- _ => destruct p
         end.
  discriminate.
Qed.

Lemma window_check_false (window_size : list Z) :
  forallb (fun w_s => (w_s =? 1) || (w_s mod 2 =? 0)) window_size = false <->
  exists w, In w window_size /\ w <> 1 /\ w mod 2 <> 0.
Proof.
  split.
  - intros E. induction window_size as [|w ws IH]; [discriminate|].
    cbn in E. apply andb_false_iff in E. destruct E as [E|E].
    + apply orb_false_iff in E. destruct E as [E1 E2].
      exists w. split; [left; reflexivity|]. split; [apply Z.eqb_neq, E1 | apply Z.eqb_neq, E2].
    + destruct (IH E) as (w' & Hin & Hw). exists w'. split; [right; exact Hin | exact Hw].
  - intros (w & Hin & H1 & H2).
    destruct (forallb _ window_size) eqn:E; [|reflexivity].
    rewrite forallb_forall in E. specialize (E w Hin).
    apply orb_true_iff in E. destruct E as [E|E]; apply Z.eqb_eq in E; contradiction.
Qed.

(** C5.  The constructor of a block raises a configuration error exactly
    when some component of the window size is neither 1 nor even; the window
    size (3, 6, 12) is rejected, whatever the other arguments. *)
Theorem window_geometry_rejected_iff (R Rng : Type) (mods : Submodules R Rng)
        (data_size window_size : list Z) (axial_attn checkpoint_activation lam : bool) :
  ((exists e, EarthSpecificBlock_init mods data_size window_size axial_attn
                                      checkpoint_activation lam = Raise e
              /\ configuration_error e = true)
   <-> exists w, In w window_size /\ w <> 1 /\ w mod 2 <> 0)
  /\ EarthSpecificBlock_init mods data_size [3; 6; 12] axial_attn checkpoint_activation lam
     = Raise (ValueError_window_size [3; 6; 12]).
Proof.
  split; [|reflexivity].
  unfold EarthSpecificBlock_init.
  destruct (forallb _ window_size) eqn:E; cbn [negb].
  - split.
    + intros (e & Hr & Hc).
      destruct (CustomPad3d_init (last3 data_size) window_size) eqn:Ep; cbn [rbind] in Hr.
      * destruct axial_attn; [destruct (Nat.ltb _ _)|]; cbn [rbind] in Hr;
          inversion Hr; subst; discriminate.
      * inversion Hr; subst. apply CustomPad3d_init_error in Ep. congruence.
    + intros Hw. apply window_check_false in Hw. congruence.
  - split.
    + intros _. apply window_check_false, E.
    + intros _. eexists. split; reflexivity.
Qed.

Lemma ceil_half_floor (w : Z) : w / 2 + w mod 2 = ceil_half w.
Proof. unfold ceil_half. Z.to_euclidean_division_equations. lia. Qed.

(** C6.  A block that was constructed has, on every axis, the shift
    [ceil(window / 2)]: the least integer that is at least half the window. *)
Theorem shift_geometry_is_ceil_half (R Rng : Type) (mods : Submodules R Rng)
        (data_size window_size : list Z) (axial_attn checkpoint_activation lam : bool)
        (block : EarthSpecificBlock R Rng) :
  EarthSpecificBlock_init mods data_size window_size axial_attn checkpoint_activation lam
  = Ok block ->
  shift_size block = map ceil_half window_size
  /\ length (shift_size block) = length window_size
  /\ forall w, 2 * ceil_half w - 2 < w <= 2 * ceil_half w.
Proof.
  unfold EarthSpecificBlock_init. intros E.
  destruct (negb _); [discriminate|].
  destruct (CustomPad3d_init _ _); [|discriminate]. cbn [rbind] in E.
  destruct (if axial_attn then _ else _); [|discriminate]. cbn [rbind] in E.
  inversion E; subst; clear E. cbn [shift_size].
  split; [|split].
  - apply map_ext. intros w. apply ceil_half_floor.
  - apply length_map.
  - intros w. unfold ceil_half. Z.to_euclidean_division_equations. lia.
Qed.

Lemma shift_geometry_is_ceil_half_witness :
  exists block : EarthSpecificBlock Z unit,
    EarthSpecificBlock_init (ex_mods ex_identity ex_attention) [8; 36; 72] [2; 6; 12]
                            false false false = Ok block
    /\ shift_size block = [1; 3; 6].
Proof.
  eexists. split; [reflexivity|].
  exact (proj1 (shift_geometry_is_ceil_half (ex_mods ex_identity ex_attention)
                  [8; 36; 72] [2; 6; 12] false false false eq_refl)).
Defined.

(** ** The layer and its wrapper *)

Section Layers.
Variable R : Type.
Context {scalar : Scalar R}.
Variable Rng : Type.
Variable generate_3d_attention_mask :
  Tensor R -> list Z -> list Z -> bool -> result ext_exn (Tensor R).

Local Abbreviation block_forward := (EarthSpecificBlock_forward generate_3d_attention_mask).
Local Abbreviation layer_forward := (EarthSpecificLayer_forward generate_3d_attention_mask).

(** C9.  Without a conditioning vector the wrapper is the layer it extends:
    same blocks, same input, same output, same use of the generator. *)
Theorem cond_layer_without_conditioning (self : CondBasicLayer R Rng) (x : Tensor R)
        (embedding_shape : list Z) :
  CondBasicLayer_forward generate_3d_attention_mask self x embedding_shape None
  = layer_forward (base self) x embedding_shape None.
Proof.
  unfold CondBasicLayer_forward.
  (* [c] is [None]: the modulation projection is not run *)
  change (bind (ret None) ?k) with (fun g : Rng => k None g).
  reflexivity.
Qed.

Lemma index_parity (i : nat) : (Z.of_nat i mod 2 =? 0) = negb (Nat.odd i).
Proof.
  destruct (Nat.odd i) eqn:E; cbn [negb].
  - apply Nat.odd_spec in E. destruct E as [m ->].
    apply Z.eqb_neq. Z.to_euclidean_division_equations. lia.
  - assert (Ev : Nat.even i = true) by (rewrite <- Nat.negb_odd, E; reflexivity).
    apply Nat.even_spec in Ev. destruct Ev as [m ->].
    apply Z.eqb_eq. Z.to_euclidean_division_equations. lia.
Qed.

Lemma layer_loop_schedule (bs : list (EarthSpecificBlock R Rng)) :
  forall (i : nat) (x : Tensor R) (embedding_shape : list Z)
         (cond_embed : option (Tensor R)) (g : Rng),
    layer_loop generate_3d_attention_mask bs (Z.of_nat i) x embedding_shape cond_embed g
    = run_schedule generate_3d_attention_mask
        (combine bs (map Nat.odd (seq i (length bs)))) x embedding_shape cond_embed g.
Proof.
  induction bs as [|block rest IH]; intros i x es cond g; [reflexivity|].
  cbn [layer_loop length seq map combine run_schedule]. unfold bind.
  rewrite index_parity.
  replace (Z.of_nat i + 1) with (Z.of_nat (S i)) by lia.
  destruct (Nat.odd i); cbn [negb];
    destruct (block_forward block x es cond _ g) as [[x' g']|e]; auto.
Qed.

(** C4.  A forward pass of a layer is its blocks called in order, block [i]
    with [roll] set exactly when [i] is odd, counting from 0. *)
Theorem roll_alternation (self : EarthSpecificLayer R Rng) (x : Tensor R)
        (embedding_shape : list Z) (cond_embed : option (Tensor R)) (g : Rng) :
  layer_forward self x embedding_shape cond_embed g
  = run_schedule generate_3d_attention_mask
      (combine (blocks self) (roll_flags (length (blocks self))))
      x embedding_shape cond_embed g
  /\ length (roll_flags (length (blocks self))) = length (blocks self)
  /\ forall i : nat, (i < length (blocks self))%nat ->
       nth i (roll_flags (length (blocks self))) false = Nat.odd i.
Proof.
  split; [|split].
  - apply (layer_loop_schedule (blocks self) 0).
  - unfold roll_flags. rewrite length_map, length_seq. reflexivity.
  - intros i Hi. unfold roll_flags.
    change false with (Nat.odd 0). rewrite map_nth, seq_nth by exact Hi. reflexivity.
Qed.

End Layers.

(** ** No configuration error in a forward pass *)

Ltac break_result :=
  repeat match goal with
         | |- pure_no_configuration_error _ => intros ? ?
         | H : Raise _ = Raise _ |- _ => inversion H; subst; clear H
         | H : Ok _ = Raise _ |- _ => discriminate H
         | H : context [match ?r with _ => _ end] |- _ => destruct r eqn:?
         | H : context [if ?b then _ else _] |- _ => destruct b eqn:?
         | |- configuration_error _ = false => reflexivity
         end.

Lemma safe_rbind {A B : Type} (r : result exn A) (k : A -> result exn B) :
  pure_no_configuration_error r ->
  (forall a, pure_no_configuration_error (k a)) ->
  pure_no_configuration_error (rbind r k).
Proof.
  intros Hr Hk e E. destruct r as [a|e']; cbn [rbind] in E.
  - exact (Hk a e E).
  - inversion E; subst. apply Hr. reflexivity.
Qed.

Lemma safe_tuple_get (t : list Z) (i : nat) : pure_no_configuration_error (tuple_get t i).
Proof. unfold tuple_get. break_result. Qed.

Lemma safe_py_floordiv (a b : Z) : pure_no_configuration_error (py_floordiv a b).
Proof. unfold py_floordiv. break_result. Qed.

Lemma safe_unpack5 (t : list Z) : pure_no_configuration_error (unpack5 t).
Proof. unfold unpack5. break_result. Qed.

Lemma safe_infer_shape (n : Z) (s : list Z) : pure_no_configuration_error (infer_shape n s).
Proof. unfold infer_shape. break_result. Qed.

Lemma safe_broadcast_rev (a : list Z) :
  forall b, pure_no_configuration_error (broadcast_rev a b).
Proof.
  induction a as [|x a IH]; intros [|y b]; cbn [broadcast_rev];
    try solve [intros e E; inversion E].
  apply safe_rbind; [apply IH|]. intros r. break_result.
Qed.

Section Safety.
Variable R : Type.
Context {scalar : Scalar R}.

Lemma safe_reshape (t : Tensor R) (s : list Z) : pure_no_configuration_error (reshape t s).
Proof.
  unfold reshape. apply safe_rbind; [apply safe_infer_shape|]. intros s'. break_result.
Qed.

Lemma safe_permute (t : Tensor R) (perm : list nat) :
  pure_no_configuration_error (permute t perm).
Proof. unfold permute. break_result. Qed.

Lemma safe_roll (shifts : list Z) :
  forall (dims : list nat) (t : Tensor R), pure_no_configuration_error (roll t shifts dims).
Proof.
  induction shifts as [|sh shifts IH]; intros [|d dims] t; cbn [roll];
    try solve [intros e E; inversion E; reflexivity].
  apply safe_rbind; [|intros t'; apply IH].
  unfold roll1. break_result.
Qed.

Lemma safe_slice_dims (t : Tensor R) (ranges : list (option (Z * Z))) :
  pure_no_configuration_error (slice_dims t ranges).
Proof. unfold slice_dims. break_result. Qed.

Lemma safe_unsqueeze1 (t : Tensor R) : pure_no_configuration_error (unsqueeze1 t).
Proof. unfold unsqueeze1. break_result. Qed.

Lemma safe_binop (op : R -> R -> R) (a b : Tensor R) :
  pure_no_configuration_error (binop op a b).
Proof.
  unfold binop. apply safe_rbind; [|intros s; break_result].
  unfold broadcast_shapes. apply safe_rbind; [apply safe_broadcast_rev|].
  intros r. break_result.
Qed.

Lemma safe_chunk (t : Tensor R) (chunks : Z) (dim : nat) :
  pure_no_configuration_error (chunk t chunks dim).
Proof.
  unfold chunk. destruct (nth_error (shape t) dim) as [n|]; [|break_result].
  induction (seq 0 _) as [|i l IH]; cbn [fold_right]; [break_result|].
  apply safe_rbind; [apply safe_slice_dims|]. intros c.
  apply safe_rbind; [exact IH|]. intros cs. break_result.
Qed.

Lemma safe_rearrange_to_columns (x : Tensor R) (pl lat lon : Z) :
  pure_no_configuration_error (rearrange_to_columns x pl lat lon).
Proof.
  unfold rearrange_to_columns.
  destruct (shape x) as [|b [|n [|c [|? ?]]]]; try (intros e E; inversion E; reflexivity).
  destruct (n =? _); [|intros e E; inversion E; reflexivity].
  apply safe_rbind; [apply safe_reshape|]. intros x1.
  apply safe_rbind; [apply safe_permute|]. intros x3. apply safe_reshape.
Qed.

Lemma safe_rearrange_from_columns (x : Tensor R) (b lat lon : Z) :
  pure_no_configuration_error (rearrange_from_columns x b lat lon).
Proof.
  unfold rearrange_from_columns.
  destruct (shape x) as [|n [|pl [|c [|? ?]]]]; try (intros e E; inversion E; reflexivity).
  destruct (n =? _); [|intros e E; inversion E; reflexivity].
  apply safe_rbind; [apply safe_reshape|]. intros x1.
  apply safe_rbind; [apply safe_permute|]. intros x3. apply safe_reshape.
Qed.

End Safety.

Create HintDb safe_ops.
#[export] Hint Resolve safe_tuple_get safe_py_floordiv safe_unpack5 safe_reshape safe_permute
  safe_roll safe_slice_dims safe_unsqueeze1 safe_binop safe_chunk
  safe_rearrange_to_columns safe_rearrange_from_columns : safe_ops.

Section ForwardSafety.
Variable R : Type.
Context {scalar : Scalar R}.
Variable Rng : Type.
Variable generate_3d_attention_mask :
  Tensor R -> list Z -> list Z -> bool -> result ext_exn (Tensor R).

Lemma nce_ret {A : Type} (a : A) : no_configuration_error (ret (Rng := Rng) a).
Proof. intros g e E. discriminate E. Qed.

Lemma nce_raise {A : Type} (e : exn) :
  configuration_error e = false -> no_configuration_error (raise (Rng := Rng) (A := A) e).
Proof. intros He g e' E. inversion E; subst. exact He. Qed.

Lemma nce_lift {A : Type} (r : result exn A) :
  pure_no_configuration_error r -> no_configuration_error (lift (Rng := Rng) r).
Proof.
  intros Hr g e E. unfold lift in E. destruct r; [discriminate|].
  inversion E; subst. apply Hr. reflexivity.
Qed.

Lemma nce_lift_ext {A : Type} (r : result ext_exn A) :
  no_configuration_error (lift_ext (Rng := Rng) r).
Proof.
  intros g e E. unfold lift_ext in E. destruct r; [discriminate|].
  inversion E; subst. reflexivity.
Qed.

Lemma nce_call (m : Module R Rng) (x : Tensor R) : no_configuration_error (call m x).
Proof.
  intros g e E. unfold call, run_ext in E. destruct (m x g); [discriminate|].
  inversion E; subst. reflexivity.
Qed.

Lemma nce_call_attention (a : Attention R Rng) (x : Tensor R) (mask : option (Tensor R))
      (args : list Z) :
  no_configuration_error (call_attention a x mask args).
Proof.
  intros g e E. unfold call_attention, run_ext in E. destruct (a x mask args g); [discriminate|].
  inversion E; subst. reflexivity.
Qed.

Lemma nce_bind {A B : Type} (m : M Rng A) (k : A -> M Rng B) :
  no_configuration_error m ->
  (forall a, no_configuration_error (k a)) ->
  no_configuration_error (bind m k).
Proof.
  intros Hm Hk g e E. unfold bind in E.
  destruct (m g) as [[a g']|e'] eqn:Em.
  - exact (Hk a g' e E).
  - inversion E; subst. exact (Hm g e Em).
Qed.

Ltac safe_step :=
  match goal with
  | |- no_configuration_error (bind _ _) => apply nce_bind; [|intros ?]
  | |- no_configuration_error (ret _) => apply nce_ret
  | |- no_configuration_error (lift_ext _) => apply nce_lift_ext
  | |- no_configuration_error (lift _) => apply nce_lift; auto with safe_ops
  | |- no_configuration_error (call_attention _ _ _ _) => apply nce_call_attention
  | |- no_configuration_error (checkpoint _ _ _ _) => unfold checkpoint
  | |- no_configuration_error (call _ _) => apply nce_call
  | |- no_configuration_error (raise _) => apply nce_raise; reflexivity
  | |- no_configuration_error (match ?x with _ => _ end) => destruct x
  end.

Lemma forward_modulate_safe (self : EarthSpecificBlock R Rng) (x : Tensor R)
      (cond_embed : option (Tensor R)) :
  no_configuration_error (forward_modulate self x cond_embed).
Proof. unfold forward_modulate, tadd, tmul. repeat safe_step. Qed.

Lemma safe_CustomPad3d_forward (pad : CustomPad3d) (x : Tensor R) :
  pure_no_configuration_error (CustomPad3d_forward pad x).
Proof.
  unfold CustomPad3d_forward. destruct (padding pad) as [[[[[? ?] ?] ?] ?] ?].
  break_result.
Qed.

Lemma forward_window_attention_safe (self : EarthSpecificBlock R Rng) (x : Tensor R)
      (embedding_shape : list Z) (roll_ : bool) :
  length (shift_size self) = 3%nat ->
  no_configuration_error
    (forward_window_attention generate_3d_attention_mask self x embedding_shape roll_).
Proof.
  intros Hlen. unfold forward_window_attention, view. rewrite Hlen. cbn [Nat.eqb negb].
  pose proof safe_CustomPad3d_forward.
  repeat safe_step; auto.
Qed.

Lemma forward_axial_attention_safe (self : EarthSpecificBlock R Rng) (x : Tensor R)
      (dims : Z * Z * Z * Z) :
  no_configuration_error (forward_axial_attention self x dims).
Proof. unfold forward_axial_attention. repeat safe_step. Qed.

Lemma forward_main_stages_safe (self : EarthSpecificBlock R Rng) (shortcut x : Tensor R)
      (x2 : option (Tensor R)) (modulation : Modulation R) :
  no_configuration_error (forward_main_stages self shortcut x x2 modulation).
Proof. unfold forward_main_stages, tadd, tmul. repeat safe_step. Qed.

Lemma EarthSpecificBlock_forward_safe (self : EarthSpecificBlock R Rng) (x : Tensor R)
      (embedding_shape : list Z) (cond_embed : option (Tensor R)) (roll_ : bool) :
  length (shift_size self) = 3%nat ->
  no_configuration_error
    (EarthSpecificBlock_forward generate_3d_attention_mask self x embedding_shape
                                cond_embed roll_).
Proof.
  intros Hlen. unfold EarthSpecificBlock_forward.
  apply nce_bind; [apply forward_modulate_safe|]. intros [x1 modulation].
  apply nce_bind; [apply forward_window_attention_safe, Hlen|]. intros [x3 dims].
  apply nce_bind; [apply forward_axial_attention_safe|]. intros x2.
  apply forward_main_stages_safe.
Qed.

Lemma init_shift_size (mods : Submodules R Rng) (data_size ws : list Z)
      (axial_attn checkpoint_activation lam : bool) (block : EarthSpecificBlock R Rng) :
  EarthSpecificBlock_init mods data_size ws axial_attn checkpoint_activation lam
  = Ok block ->
  shift_size block = map (fun w_size => w_size / 2 + w_size mod 2) ws
  /\ window_size block = ws.
Proof.
  unfold EarthSpecificBlock_init. intros E.
  destruct (negb _); [discriminate|].
  destruct (CustomPad3d_init _ _); [|discriminate]. cbn [rbind] in E.
  destruct (if axial_attn then _ else _); [|discriminate]. cbn [rbind] in E.
  inversion E; subst; clear E. split; reflexivity.
Qed.

(** C10.  A block constructed with a window size of 3 components has a shift
    size of 3 components, so that no forward call with [roll=True] raises
    "Shift size must be 3D": the branch that raises it is never taken. *)
Theorem shift_error_unreachable (mods : Submodules R Rng) (data_size window_size : list Z)
        (axial_attn checkpoint_activation lam : bool) (block : EarthSpecificBlock R Rng) :
  length window_size = 3%nat ->
  EarthSpecificBlock_init mods data_size window_size axial_attn checkpoint_activation lam
  = Ok block ->
  length (shift_size block) = 3%nat
  /\ forall (x : Tensor R) (embedding_shape : list Z) (cond_embed : option (Tensor R))
            (g : Rng) (got : list Z),
       EarthSpecificBlock_forward generate_3d_attention_mask block x embedding_shape
                                  cond_embed true g
       <> Raise (ValueError_shift_size got).
Proof.
  intros Hlen Hinit. apply init_shift_size in Hinit. destruct Hinit as [Hs _].
  assert (H3 : length (shift_size block) = 3%nat) by (rewrite Hs, length_map; exact Hlen).
  split; [exact H3|].
  intros x es cond g got E.
  apply (EarthSpecificBlock_forward_safe block x es cond true H3) in E. discriminate E.
Qed.



End ForwardSafety.

Lemma shift_error_unreachable_witness :
  exists block : EarthSpecificBlock Z unit,
    EarthSpecificBlock_init (ex_mods ex_identity ex_attention) [2; 3; 2] [2; 2; 2]
                            true false false = Ok block
    /\ length (shift_size block) = 3%nat.
Proof.
  eexists. split; [reflexivity|].
  exact (proj1 (shift_error_unreachable ex_mask (ex_mods ex_identity ex_attention)
                  [2; 3; 2] [2; 2; 2] true false false eq_refl eq_refl)).
Defined.


(** ** The concrete blocks *)

Example ex_block_constructed (drop : Module Z unit) (attn : Attention Z unit)
        (axial_attn checkpoint_activation : bool) :
  EarthSpecificBlock_init (ex_mods drop attn) [2; 3; 2] [2; 2; 2] axial_attn
                          checkpoint_activation false
  = Ok (ex_block drop attn axial_attn checkpoint_activation).
Proof. destruct axial_attn; reflexivity. Qed.

(** ** Activation checkpointing *)

Section Checkpointing.
Variable R : Type.
Context {scalar : Scalar R}.
Variable Rng : Type.
Variable generate_3d_attention_mask :
  Tensor R -> list Z -> list Z -> bool -> result ext_exn (Tensor R).

Lemma bind_ext {A B : Type} (m m' : M Rng A) (k k' : A -> M Rng B) :
  (forall g, m g = m' g) ->
  (forall a g, k a g = k' a g) ->
  forall g, bind m k g = bind m' k' g.
Proof.
  intros Hm Hk g. unfold bind. rewrite Hm.
  destruct (m' g) as [[a g']|e]; [apply Hk | reflexivity].
Qed.

Ltac bind_cong :=
  repeat first
    [ reflexivity
    | apply bind_ext; [ intros ?; try reflexivity | intros ? ? ]
    | match goal with
      | |- context [let '(_, _) := ?p in _] => destruct p
      end ].

(** X1.  The two paths agree for an attention that takes the two further
    positional arguments of the checkpointed call and ignores them: with
    and without activation checkpointing the forward pass gives the same
    result, or raises the same exception, on every input. *)
Lemma checkpoint_agrees_when_arguments_ignored (self : EarthSpecificBlock R Rng) :
  (forall x_window mask batch_size padded_z padded_h g,
      attention self x_window mask [batch_size; padded_z; padded_h] g
      = attention self x_window mask [batch_size] g) ->
  forall (x : Tensor R) (embedding_shape : list Z) (cond_embed : option (Tensor R))
         (roll_ : bool) (g : Rng),
    EarthSpecificBlock_forward generate_3d_attention_mask
      (set_checkpoint_activation self true) x embedding_shape cond_embed roll_ g
    = EarthSpecificBlock_forward generate_3d_attention_mask
        (set_checkpoint_activation self false) x embedding_shape cond_embed roll_ g.
Proof.
  intros Hattn x es cond roll_. unfold EarthSpecificBlock_forward.
  apply bind_ext; [reflexivity|]. intros [x1 modulation] g1.
  apply bind_ext; [|reflexivity].
  clear g1. unfold forward_window_attention.
  cbn [set_checkpoint_activation checkpoint_activation lam window_size shift_size pad3D
       attention].
  bind_cong.
  unfold checkpoint, call_attention. rewrite Hattn. reflexivity.
Qed.

End Checkpointing.

(** C8.  With an attention whose forward takes [x], [mask] and [batch_size],
    as the call of the path without checkpointing supposes, that path
    returns, and the checkpointed path raises a [TypeError]: it passes
    [padded_z] and [padded_h] as two further positional arguments. *)
Theorem checkpoint_path_diverges :
  EarthSpecificBlock_init (ex_mods ex_identity ex_attention3) [2; 3; 2] [2; 2; 2]
                          false false false
  = Ok (ex_block ex_identity ex_attention3 false false)
  /\ EarthSpecificBlock_init (ex_mods ex_identity ex_attention3) [2; 3; 2] [2; 2; 2]
                             false true false
     = Ok (ex_block ex_identity ex_attention3 false true)
  /\ EarthSpecificBlock_forward ex_mask (ex_block ex_identity ex_attention3 false false)
                                ex_tokens ex_embedding_shape None false tt
     = Ok (mkTensor [1; 12; 1] [4; 8; 12; 16; 20; 24; 28; 32; 36; 40; 44; 48], tt)
  /\ EarthSpecificBlock_forward ex_mask (ex_block ex_identity ex_attention3 false true)
                                ex_tokens ex_embedding_shape None false tt
     = Raise (CollaboratorError (TypeError_positional 3 5)).
Proof. repeat split; vm_compute; reflexivity. Qed.

(** ** The conditioned residual combination *)

Section Residual.
Variable R : Type.
Context {scalar : Scalar R}.
Variable Rng : Type.
Variable generate_3d_attention_mask :
  Tensor R -> list Z -> list Z -> bool -> result ext_exn (Tensor R).

Lemma conditioned_main_stages (self : EarthSpecificBlock R Rng)
      (shortcut window_attn : Tensor R) (axial_attn : option (Tensor R))
      (gate_attn shift_ffn scale_ffn gate_ffn : Tensor R) (g : Rng) :
  forward_main_stages self shortcut window_attn axial_attn
                      (Some (gate_attn, shift_ffn, scale_ffn, gate_ffn)) g
  = dropped_axial_stages self shortcut window_attn axial_attn
                         gate_attn shift_ffn scale_ffn gate_ffn g.
Proof.
  unfold forward_main_stages, dropped_axial_stages, conditioned_stages.
  apply bind_ext; [|reflexivity]. clear g. intros g.
  destruct axial_attn as [a|]; [|reflexivity].
  unfold bind. destruct (call (drop_path self) a g) as [[da g']|e]; reflexivity.
Qed.

Lemma forward_axial_attention_absent (self : EarthSpecificBlock R Rng) (x : Tensor R)
      (dims : Z * Z * Z * Z) (g : Rng) :
  axial self = None -> forward_axial_attention self x dims g = Ok (None, g).
Proof.
  intros Hax. unfold forward_axial_attention. destruct dims as [[[b pl] lat] lon].
  rewrite Hax. reflexivity.
Qed.

(** With conditioning, a forward pass is the modulation, the window
    attention and the axial attention followed by the residual combination
    of the specification, in which the output of the axial attention goes
    through [drop_path] before it is added to the output of the window
    attention. *)
Lemma conditioned_residual_combination (self : EarthSpecificBlock R Rng) (x : Tensor R)
      (embedding_shape : list Z) (cond_embed : Tensor R) (roll_ : bool) (g : Rng) :
  EarthSpecificBlock_forward generate_3d_attention_mask self x embedding_shape
                             (Some cond_embed) roll_ g
  = forward_with_stages generate_3d_attention_mask (@dropped_axial_stages R scalar Rng)
                        self x embedding_shape (Some cond_embed) roll_ g.
Proof.
  unfold EarthSpecificBlock_forward, forward_with_stages.
  apply bind_ext; [reflexivity|]. intros [x1 modulation] g1.
  apply bind_ext; [reflexivity|]. intros [w dims] g2.
  apply bind_ext; [reflexivity|]. intros a g3. cbn [fst snd].
  destruct modulation as [[[[gate_attn shift_ffn] scale_ffn] gate_ffn]|];
    [apply conditioned_main_stages | reflexivity].
Qed.

(** X15.  For a block without axial attention, a forward pass with
    conditioning is the residual combination of the specification:
    [out = shortcut + gate_attn * drop_path(window_attn)], the FFN input
    [norm(out) * (1 + scale_ffn) + shift_ffn] and
    [out + drop_path(gate_ffn * FFN(ffn_input))]. *)
Theorem conditioned_combination_without_axial (self : EarthSpecificBlock R Rng)
        (x : Tensor R) (embedding_shape : list Z) (cond_embed : Tensor R) (roll_ : bool)
        (g : Rng) :
  axial self = None ->
  EarthSpecificBlock_forward generate_3d_attention_mask self x embedding_shape
                             (Some cond_embed) roll_ g
  = forward_with_stages generate_3d_attention_mask
                        (@claimed_conditioned_stages R scalar Rng)
                        self x embedding_shape (Some cond_embed) roll_ g.
Proof.
  intros Hax. rewrite conditioned_residual_combination. unfold forward_with_stages.
  apply bind_ext; [reflexivity|]. intros [x1 modulation] g1.
  apply bind_ext; [reflexivity|]. intros [w dims] g2.
  unfold bind. cbn [fst snd].
  rewrite !(forward_axial_attention_absent self w dims g2 Hax).
  destruct modulation as [[[[gate_attn shift_ffn] scale_ffn] gate_ffn]|]; reflexivity.
Qed.

End Residual.

(** C3.  On a block with axial attention whose drop-path doubles what it
    keeps, with a conditioning whose attention gate is 1 and whose other
    chunks are 0, the tokens [x] come back as [7 * x]: the axial output is
    doubled when it is added to the output of the window attention and
    doubled again with the sum, [x + 2 * (x + 2 * x)].  The combination of
    the specification, [x + 2 * (x + x)], gives [5 * x].  The branch
    without conditioning drops the axial output once: on a window output
    [x] and an axial output [x] it gives what it gives on the window output
    [x + x] without axial output. *)
Theorem conditioned_axial_output_dropped_twice :
  EarthSpecificBlock_init (ex_mods ex_double ex_attention) [2; 3; 2] [2; 2; 2]
                          true false false
  = Ok (ex_block ex_double ex_attention true false)
  /\ EarthSpecificBlock_forward ex_mask (ex_block ex_double ex_attention true false)
                                ex_tokens ex_embedding_shape (Some ex_gate_cond) false tt
     = Ok (mkTensor [1; 12; 1] [7; 14; 21; 28; 35; 42; 49; 56; 63; 70; 77; 84], tt)
  /\ forward_with_stages ex_mask (@claimed_conditioned_stages Z _ unit)
                         (ex_block ex_double ex_attention true false)
                         ex_tokens ex_embedding_shape (Some ex_gate_cond) false tt
     = Ok (mkTensor [1; 12; 1] [5; 10; 15; 20; 25; 30; 35; 40; 45; 50; 55; 60], tt)
  /\ forward_main_stages (ex_block ex_double ex_attention true false)
                         (zeros [1; 12; 1]) ex_tokens (Some ex_tokens) None tt
     = forward_main_stages (ex_block ex_double ex_attention true false)
                           (zeros [1; 12; 1]) (tmap (Z.mul 2) ex_tokens) None None tt.
Proof. repeat split; vm_compute; reflexivity. Qed.

Lemma conditioned_combination_without_axial_witness :
  EarthSpecificBlock_forward ex_mask (ex_block ex_double ex_attention false false)
                             ex_tokens ex_embedding_shape (Some ex_cond) false tt
  = forward_with_stages ex_mask (@claimed_conditioned_stages Z _ unit)
                        (ex_block ex_double ex_attention false false)
                        ex_tokens ex_embedding_shape (Some ex_cond) false tt.
Proof.
  exact (@conditioned_combination_without_axial Z _ unit ex_mask
           (ex_block ex_double ex_attention false false)
           ex_tokens ex_embedding_shape ex_cond false tt eq_refl).
Defined.

(** ** Shapes *)

Lemma numel_cons (x : Z) (s : list Z) : numel (x :: s) = x * numel s.
Proof. reflexivity. Qed.

Lemma numel_nil : numel [] = 1.
Proof. reflexivity. Qed.

Lemma numel_app (a b : list Z) : numel (a ++ b) = numel a * numel b.
Proof.
  induction a as [|x a IH]; cbn [app].
  - rewrite numel_nil. lia.
  - rewrite !numel_cons, IH. ring.
Qed.

Lemma numel_pos (s : list Z) : Forall (fun d => 0 < d) s -> 0 < numel s.
Proof.
  induction 1 as [|x s Hx Hs IH]; [rewrite numel_nil; lia|].
  rewrite numel_cons. apply Z.mul_pos_pos; assumption.
Qed.

Lemma positive_no_hole (s : list Z) :
  Forall (fun d => 0 < d) s ->
  existsb (fun d => d <? -1) s = false
  /\ count_occ Z.eq_dec s (-1) = O
  /\ remove Z.eq_dec (-1) s = s
  /\ map (fun d => if d =? -1 then 0 else d) s = s.
Proof.
  induction 1 as [|x s Hx Hs (IH1 & IH2 & IH3 & IH4)]; [repeat split|].
  cbn [existsb count_occ remove map].
  destruct (Z.eq_dec x (-1)) as [->|Hne]; [lia|].
  destruct (Z.eq_dec (-1) x) as [<-|_]; [lia|].
  assert (Hlt : (x <? -1) = false) by (apply Z.ltb_ge; lia).
  assert (Heq : (x =? -1) = false) by (apply Z.eqb_neq; lia).
  rewrite Hlt, Heq, IH1, IH2, IH3, IH4. repeat split.
Qed.

Lemma map_fill_positive (v : Z) (s : list Z) :
  Forall (fun d => 0 < d) s -> map (fun d => if d =? -1 then v else d) s = s.
Proof.
  induction 1 as [|x s Hx Hs IH]; [reflexivity|]. cbn [map].
  assert (Heq : (x =? -1) = false) by (apply Z.eqb_neq; lia).
  rewrite Heq, IH. reflexivity.
Qed.

Lemma infer_shape_exact (n : Z) (s : list Z) :
  Forall (fun d => 0 < d) s -> numel s = n -> infer_shape n s = Ok s.
Proof.
  intros Hs Hn. unfold infer_shape.
  destruct (positive_no_hole Hs) as (E1 & E2 & _ & _).
  rewrite E1, E2. apply Z.eqb_eq in Hn. rewrite Hn. reflexivity.
Qed.

Lemma infer_shape_hole (n d : Z) (pre post : list Z) :
  Forall (fun d => 0 < d) pre -> Forall (fun d => 0 < d) post -> 0 < d ->
  n = numel pre * d * numel post ->
  infer_shape n (pre ++ -1 :: post) = Ok (pre ++ d :: post).
Proof.
  intros Hpre Hpost Hd Hn. unfold infer_shape.
  destruct (positive_no_hole Hpre) as (A1 & A2 & A3 & _).
  destruct (positive_no_hole Hpost) as (B1 & B2 & B3 & _).
  rewrite existsb_app. cbn [existsb]. rewrite A1, B1. cbn [orb].
  replace (-1 <? -1) with false by reflexivity. cbn [orb].
  rewrite count_occ_app. cbn [count_occ].
  destruct (Z.eq_dec (-1) (-1)) as [_|Hne]; [|contradiction].
  rewrite A2, B2. cbn [Nat.add].
  rewrite remove_app. cbn [remove].
  destruct (Z.eq_dec (-1) (-1)) as [_|Hne]; [|contradiction].
  rewrite A3, B3, numel_app.
  pose proof (numel_pos Hpre) as Ppre. pose proof (numel_pos Hpost) as Ppost.
  assert (Hk : 0 < numel pre * numel post) by (apply Z.mul_pos_pos; assumption).
  assert (Hne : (numel pre * numel post =? 0) = false) by (apply Z.eqb_neq; lia).
  rewrite Hne.
  assert (Hn' : n = d * (numel pre * numel post)) by (rewrite Hn; ring).
  rewrite Hn', Z.mod_mul, Z.div_mul by lia. cbn [Z.eqb].
  rewrite map_app. cbn [map]. replace (-1 =? -1) with true by reflexivity.
  rewrite !map_fill_positive by assumption. reflexivity.
Qed.

Section Shapes.
Variable R : Type.
Context {scalar : Scalar R}.

Lemma wf_tensor_of_fn (s : list Z) (f : list Z -> R) :
  Forall (fun d => 0 < d) s -> wf (tensor_of_fn s f).
Proof.
  intros Hs. split; [|exact Hs].
  cbn [tensor_of_fn data shape]. rewrite length_map, length_seq. reflexivity.
Qed.

Lemma wf_zeros (s : list Z) : Forall (fun d => 0 < d) s -> wf (zeros (R := R) s).
Proof.
  intros Hs. split; [|exact Hs]. cbn [zeros data shape]. apply repeat_length.
Qed.

Lemma reshape_exact (t : Tensor R) (s : list Z) :
  wf t -> Forall (fun d => 0 < d) s -> numel s = numel (shape t) ->
  exists t', reshape t s = Ok t' /\ shape t' = s /\ wf t' /\ data t' = data t.
Proof.
  intros [Hl Hp] Hs Hn. unfold reshape. rewrite (infer_shape_exact Hs Hn). cbn [rbind].
  eexists. split; [reflexivity|]. repeat split; cbn [shape data]; [congruence|exact Hs].
Qed.

Lemma reshape_hole (t : Tensor R) (pre post : list Z) (d : Z) :
  wf t -> Forall (fun d => 0 < d) pre -> Forall (fun d => 0 < d) post -> 0 < d ->
  numel (shape t) = numel pre * d * numel post ->
  exists t', reshape t (pre ++ -1 :: post) = Ok t' /\ shape t' = pre ++ d :: post /\ wf t'.
Proof.
  intros [Hl Hp] Hpre Hpost Hd Hn. unfold reshape.
  rewrite (infer_shape_hole Hpre Hpost Hd Hn). cbn [rbind].
  eexists. split; [reflexivity|]. split; [reflexivity|].
  split; cbn [shape data].
  - rewrite Hl, Hn, numel_app, numel_cons. f_equal. ring.
  - apply Forall_app. split; [exact Hpre|]. constructor; assumption.
Qed.

Lemma permute_ok (t : Tensor R) (perm : list nat) :
  Nat.eqb (length perm) (length (shape t))
  && forallb (fun d => existsb (Nat.eqb d) perm) (seq 0 (length (shape t))) = true ->
  Forall (fun d => 0 < d) (map (fun p => nth p (shape t) 0) perm) ->
  exists t', permute t perm = Ok t'
             /\ shape t' = map (fun p => nth p (shape t) 0) perm /\ wf t'.
Proof.
  intros Hc Hp. unfold permute. rewrite Hc.
  eexists. split; [reflexivity|]. split; [reflexivity|].
  apply wf_tensor_of_fn, Hp.
Qed.

End Shapes.

Lemma unravel_bounds (s : list Z) :
  Forall (fun d => 0 < d) s ->
  forall k, 0 <= k < numel s -> Forall2 (fun d i => 0 <= i < d) s (unravel s k).
Proof.
  induction 1 as [|d s Hd Hs IH]; intros k Hk; cbn [unravel]; [constructor|].
  rewrite numel_cons in Hk. pose proof (numel_pos Hs) as Hp.
  constructor.
  - split; [apply Z.div_pos; lia|].
    apply Z.div_lt_upper_bound; [lia|]. rewrite Z.mul_comm. lia.
  - apply IH. apply Z.mod_pos_bound. lia.
Qed.

Lemma ravel_unravel (s : list Z) :
  Forall (fun d => 0 < d) s ->
  forall k, 0 <= k < numel s -> ravel s (unravel s k) = k.
Proof.
  induction 1 as [|d s Hd Hs IH]; intros k Hk.
  - rewrite numel_nil in Hk. cbn [unravel ravel]. lia.
  - cbn [unravel ravel]. rewrite numel_cons in Hk. pose proof (numel_pos Hs) as Hp.
    rewrite IH by (apply Z.mod_pos_bound; lia).
    rewrite (Z.div_mod k (numel s)) at 3 by lia. ring.
Qed.

Lemma bcast_index_same (s idx : list Z) :
  Forall2 (fun d i => 0 <= i < d) s idx -> bcast_index s idx = idx.
Proof.
  intros H. unfold bcast_index.
  rewrite (Forall2_length H), Nat.sub_diag. cbn [skipn].
  induction H as [|d i s idx Hi H IH]; [reflexivity|].
  cbn [combine map]. rewrite IH. f_equal.
  destruct (d =? 1) eqn:E; [|reflexivity]. apply Z.eqb_eq in E. lia.
Qed.

Lemma map_nth_seq_id {A : Type} (l : list A) (d : A) :
  map (fun k => nth k l d) (seq 0 (length l)) = l.
Proof.
  apply (nth_ext _ _ d d).
  - rewrite length_map, length_seq. reflexivity.
  - intros n Hn. rewrite length_map, length_seq in Hn.
    rewrite (nth_indep _ _ (nth 0 l d)) by (rewrite length_map, length_seq; exact Hn).
    rewrite (map_nth (fun k => nth k l d) (seq 0 (length l)) 0%nat n).
    rewrite seq_nth by exact Hn. reflexivity.
Qed.

Lemma map_const_repeat {A B : Type} (c : B) (l : list A) :
  map (fun _ => c) l = repeat c (length l).
Proof. induction l as [|x l IH]; cbn; [reflexivity|]. rewrite IH. reflexivity. Qed.

Lemma broadcast_shapes_same (s : list Z) : broadcast_shapes s s = Ok s.
Proof.
  unfold broadcast_shapes.
  assert (H : forall r, broadcast_rev r r = Ok r).
  { induction r as [|x r IH]; [reflexivity|]. cbn [broadcast_rev]. rewrite IH. cbn [rbind].
    rewrite Z.eqb_refl. reflexivity. }
  rewrite H. cbn [rbind]. rewrite rev_involutive. reflexivity.
Qed.

Lemma broadcast_shapes_tokens_r (b n c : Z) :
  broadcast_shapes [b; n; c] [b; 1; c] = Ok [b; n; c].
Proof.
  unfold broadcast_shapes. cbn [rev app broadcast_rev rbind].
  rewrite !Z.eqb_refl. cbn [rbind].
  destruct (n =? 1) eqn:E; [|destruct (n =? 1); reflexivity]. reflexivity.
Qed.

Lemma broadcast_shapes_tokens_l (b n c : Z) :
  broadcast_shapes [b; 1; c] [b; n; c] = Ok [b; n; c].
Proof.
  unfold broadcast_shapes. cbn [rev app broadcast_rev rbind].
  rewrite !Z.eqb_refl. cbn [rbind].
  destruct (1 =? n) eqn:E; cbn [rbind rev app]; [|reflexivity].
  apply Z.eqb_eq in E. subst n. reflexivity.
Qed.

Section OperationShapes.
Variable R : Type.
Context {scalar : Scalar R}.

Lemma get_zeros (s idx : list Z) : get (zeros (R := R) s) idx = s0.
Proof. unfold get, zeros. cbn [data shape]. apply nth_repeat. Qed.

Lemma tensor_of_fn_zeros (s : list Z) (f : list Z -> R) :
  (forall idx, f idx = s0) -> tensor_of_fn s f = zeros s.
Proof.
  intros Hf. unfold tensor_of_fn, zeros. f_equal.
  rewrite (map_ext _ (fun _ => s0)) by (intros k; apply Hf).
  rewrite map_const_repeat, length_seq. reflexivity.
Qed.

Lemma binop_ok (op : R -> R -> R) (a b : Tensor R) (s : list Z) :
  broadcast_shapes (shape a) (shape b) = Ok s -> Forall (fun d => 0 < d) s ->
  exists t', binop op a b = Ok t' /\ shape t' = s /\ wf t'.
Proof.
  intros Hb Hs. unfold binop. rewrite Hb. cbn [rbind].
  eexists. split; [reflexivity|]. split; [reflexivity|]. apply wf_tensor_of_fn, Hs.
Qed.

Lemma tmul_zeros_l `{!ScalarLaws R} (sa : list Z) (b : Tensor R) (s : list Z) :
  broadcast_shapes sa (shape b) = Ok s -> tmul (zeros sa) b = Ok (zeros s).
Proof.
  intros Hb. unfold tmul, binop. cbn [zeros shape]. rewrite Hb. cbn [rbind]. f_equal.
  apply tensor_of_fn_zeros. intros idx.
  change (mkTensor sa (repeat s0 (Z.to_nat (numel sa)))) with (zeros (R := R) sa).
  rewrite get_zeros. apply smul_0_l.
Qed.

Lemma tadd_zeros_r `{!ScalarLaws R} (a : Tensor R) :
  wf a -> tadd a (zeros (shape a)) = Ok a.
Proof.
  intros [Hl Hp]. unfold tadd, binop. cbn [zeros shape].
  rewrite broadcast_shapes_same. cbn [rbind]. f_equal.
  destruct a as [s d]. cbn [shape data] in *. unfold tensor_of_fn. f_equal.
  transitivity (map (fun k => nth k d s0) (seq 0 (length d))); [|apply map_nth_seq_id].
  rewrite Hl. apply map_ext_in. intros k Hk. apply in_seq in Hk.
  assert (Hk' : 0 <= Z.of_nat k < numel s) by lia.
  rewrite (bcast_index_same (unravel_bounds Hp Hk')).
  change (mkTensor s (repeat s0 (Z.to_nat (numel s)))) with (zeros (R := R) s).
  rewrite get_zeros, sadd_0_r. unfold get. cbn [shape data].
  rewrite (ravel_unravel Hp Hk'), Nat2Z.id. reflexivity.
Qed.

Lemma wf_one_plus (t : Tensor R) : wf t -> wf (one_plus t) /\ shape (one_plus t) = shape t.
Proof.
  intros [Hl Hp]. split; [|reflexivity]. split; [|exact Hp].
  cbn [one_plus tmap data shape]. rewrite length_map. exact Hl.
Qed.

Lemma unsqueeze1_ok (t : Tensor R) (a b : Z) :
  wf t -> shape t = [a; b] ->
  exists t', unsqueeze1 t = Ok t' /\ shape t' = [a; 1; b] /\ wf t' /\ data t' = data t.
Proof.
  intros [Hl Hp] Hs. unfold unsqueeze1. rewrite Hs.
  eexists. split; [reflexivity|]. split; [reflexivity|].
  rewrite Hs in Hl, Hp.
  pose proof (Forall_inv Hp) as Ha. pose proof (Forall_inv (Forall_inv_tail Hp)) as Hb.
  cbv beta in Ha, Hb.
  split; [|reflexivity]. split; cbn [shape data].
  - rewrite Hl, !numel_cons, numel_nil. f_equal. ring.
  - repeat constructor; lia.
Qed.

End OperationShapes.

Lemma slice_range_in (n a b : Z) : 0 <= a -> a <= b -> b <= n -> slice_range n a b = (a, b - a).
Proof.
  intros Ha Hab Hbn. unfold slice_range, slice_bound.
  assert (Ea : (a <? 0) = false) by (apply Z.ltb_ge; lia).
  assert (Eb : (b <? 0) = false) by (apply Z.ltb_ge; lia).
  rewrite Ea, Eb. f_equal; lia.
Qed.

Section MoreOperationShapes.
Variable R : Type.
Context {scalar : Scalar R}.

Lemma slice_cols_ok (t : Tensor R) (b n a c : Z) :
  wf t -> shape t = [b; n] -> 0 <= a -> 0 < c -> a + c <= n ->
  exists t', slice_dims t [None; Some (a, a + c)] = Ok t'
             /\ shape t' = [b; c] /\ wf t'
             /\ (t = zeros [b; n] -> t' = zeros [b; c]).
Proof.
  intros [Hl Hp] Hs Ha Hc Hn. unfold slice_dims. rewrite Hs.
  cbn [length Nat.ltb Nat.leb Nat.sub repeat app combine map].
  rewrite slice_range_in by lia. cbn [snd]. replace (a + c - a) with c by lia.
  eexists. split; [reflexivity|]. split; [reflexivity|].
  rewrite Hs in Hp. pose proof (Forall_inv Hp) as Hb. cbv beta in Hb.
  split; [apply wf_tensor_of_fn; repeat constructor; lia|].
  intros ->. apply tensor_of_fn_zeros. intros idx. apply get_zeros.
Qed.

Lemma chunk6_ok (ce : Tensor R) (b c : Z) :
  wf ce -> shape ce = [b; 6 * c] ->
  exists c0 c1 c2 c3 c4 c5,
    chunk ce 6 1 = Ok [c0; c1; c2; c3; c4; c5]
    /\ Forall (fun t => shape t = [b; c] /\ wf t) [c0; c1; c2; c3; c4; c5]
    /\ (ce = zeros [b; 6 * c] -> Forall (fun t => t = zeros [b; c]) [c0; c1; c2; c3; c4; c5]).
Proof.
  intros Hw Hs. pose proof Hw as [Hl Hp]. rewrite Hs in Hp.
  pose proof (Forall_inv Hp) as Hb. pose proof (Forall_inv (Forall_inv_tail Hp)) as Hc.
  cbv beta in Hb, Hc. assert (Hc0 : 0 < c) by lia.
  unfold chunk. rewrite Hs. cbn [nth_error].
  replace ((6 * c + 6 - 1) / 6) with c by (Z.to_euclidean_division_equations; lia).
  assert (Ec : (c =? 0) = false) by (apply Z.eqb_neq; lia). rewrite Ec.
  replace ((6 * c + c - 1) / c) with 6 by (Z.to_euclidean_division_equations; nia).
  change (Z.to_nat 6) with 6%nat. cbn [seq fold_right repeat app].
  destruct (@slice_cols_ok ce b (6 * c) (Z.of_nat 0 * c) c Hw Hs) as (c0 & E0 & S0 & W0 & Z0);
    [lia..|].
  destruct (@slice_cols_ok ce b (6 * c) (Z.of_nat 1 * c) c Hw Hs) as (c1 & E1 & S1 & W1 & Z1);
    [lia..|].
  destruct (@slice_cols_ok ce b (6 * c) (Z.of_nat 2 * c) c Hw Hs) as (c2 & E2 & S2 & W2 & Z2);
    [lia..|].
  destruct (@slice_cols_ok ce b (6 * c) (Z.of_nat 3 * c) c Hw Hs) as (c3 & E3 & S3 & W3 & Z3);
    [lia..|].
  destruct (@slice_cols_ok ce b (6 * c) (Z.of_nat 4 * c) c Hw Hs) as (c4 & E4 & S4 & W4 & Z4);
    [lia..|].
  destruct (@slice_cols_ok ce b (6 * c) (Z.of_nat 5 * c) c Hw Hs) as (c5 & E5 & S5 & W5 & Z5);
    [lia..|].
  exists c0, c1, c2, c3, c4, c5. split; [|split].
  - rewrite E0; cbn [rbind]. rewrite E1; cbn [rbind]. rewrite E2; cbn [rbind].
    rewrite E3; cbn [rbind]. rewrite E4; cbn [rbind]. rewrite E5; cbn [rbind].
    reflexivity.
  - repeat (apply Forall_cons; [split; assumption|]). apply Forall_nil.
  - intros Hz. repeat (apply Forall_cons; [auto|]). apply Forall_nil.
Qed.

Lemma pad_ok (pad : CustomPad3d) (x : Tensor R) (b c z h w p_l p_r p_t p_b p_f p_k : Z) :
  shape x = [b; c; z; h; w] ->
  padding pad = (p_l, p_r, p_t, p_b, p_f, p_k) ->
  Forall (fun d => 0 < d) [b; c; z + p_f + p_k; h + p_t + p_b; w + p_l + p_r] ->
  exists t', CustomPad3d_forward pad x = Ok t'
             /\ shape t' = [b; c; z + p_f + p_k; h + p_t + p_b; w + p_l + p_r] /\ wf t'.
Proof.
  intros Hs Hpad Hp. unfold CustomPad3d_forward. rewrite Hpad, Hs.
  eexists. split; [reflexivity|]. split; [reflexivity|]. apply wf_tensor_of_fn, Hp.
Qed.

Lemma roll1_ok (t : Tensor R) (shift : Z) (dim : nat) :
  wf t -> (dim < length (shape t))%nat ->
  exists t', roll1 t shift dim = Ok t' /\ shape t' = shape t /\ wf t'.
Proof.
  intros [Hl Hp] Hd. unfold roll1.
  destruct (nth_error (shape t) dim) as [n|] eqn:E.
  - eexists. split; [reflexivity|]. split; [reflexivity|]. apply wf_tensor_of_fn, Hp.
  - apply nth_error_None in E. lia.
Qed.

Lemma roll3_ok (t : Tensor R) (a b c : Z) :
  wf t -> length (shape t) = 5%nat ->
  exists t', roll t [a; b; c] [1; 2; 3]%nat = Ok t' /\ shape t' = shape t /\ wf t'.
Proof.
  intros Hw Hlen. cbn [roll].
  destruct (@roll1_ok t a 1 Hw) as (t1 & E1 & S1 & W1); [lia|].
  destruct (@roll1_ok t1 b 2 W1) as (t2 & E2 & S2 & W2); [rewrite S1; lia|].
  destruct (@roll1_ok t2 c 3 W2) as (t3 & E3 & S3 & W3); [rewrite S2, S1; lia|].
  rewrite E1. cbn [rbind]. rewrite E2. cbn [rbind]. rewrite E3. cbn [rbind].
  exists t3. split; [reflexivity|]. split; [congruence|exact W3].
Qed.

Lemma crop_ok (t : Tensor R) (b pz ph pw c p_l p_r p_t p_b p_f p_k : Z) :
  shape t = [b; pz; ph; pw; c] -> 0 < b -> 0 < c ->
  0 <= p_l -> 0 <= p_r -> 0 <= p_t -> 0 <= p_b -> 0 <= p_f -> 0 <= p_k ->
  0 < pz - p_k - p_f -> 0 < ph - p_b - p_t -> 0 < pw - p_r - p_l ->
  exists t', slice_dims t [None; Some (p_f, pz - p_k); Some (p_t, ph - p_b);
                           Some (p_l, pw - p_r); None] = Ok t'
             /\ shape t' = [b; pz - p_k - p_f; ph - p_b - p_t; pw - p_r - p_l; c] /\ wf t'.
Proof.
  intros Hs Hb Hc Hl Hr Ht Hbt Hf Hk Hz Hh Hw. unfold slice_dims. rewrite Hs.
  cbn [length Nat.ltb Nat.leb Nat.sub repeat app combine map].
  rewrite !slice_range_in by lia. cbn [snd].
  eexists. split; [reflexivity|]. split; [reflexivity|].
  apply wf_tensor_of_fn. repeat constructor; lia.
Qed.

End MoreOperationShapes.

(** ** Rules for computations that return *)

Section Runs.
Variable R : Type.
Context {scalar : Scalar R}.
Variable Rng : Type.

Lemma runs_ret {A : Type} (a : A) (g : Rng) (P : A -> Rng -> Prop) :
  P a g -> runs_to (ret a) g P.
Proof. intros HP. exists a, g. split; [reflexivity | exact HP]. Qed.

Lemma runs_lift {A : Type} (r : result exn A) (a : A) (g : Rng) (P : A -> Rng -> Prop) :
  r = Ok a -> P a g -> runs_to (lift r) g P.
Proof. intros -> HP. exists a, g. split; [reflexivity | exact HP]. Qed.

Lemma runs_bind {A B : Type} (m : M Rng A) (k : A -> M Rng B) (g : Rng)
      (Q : A -> Rng -> Prop) (P : B -> Rng -> Prop) :
  runs_to m g Q ->
  (forall a g', Q a g' -> runs_to (k a) g' P) ->
  runs_to (bind m k) g P.
Proof.
  intros (a & g1 & E & HQ) Hk. destruct (Hk a g1 HQ) as (b & g2 & E2 & HP).
  exists b, g2. split; [|exact HP]. unfold bind. rewrite E. exact E2.
Qed.

Lemma runs_bind_lift {A B : Type} (r : result exn A) (a : A) (k : A -> M Rng B) (g : Rng)
      (P : B -> Rng -> Prop) :
  r = Ok a -> runs_to (k a) g P -> runs_to (bind (lift r) k) g P.
Proof.
  intros -> (b & g' & E & HP). exists b, g'. split; [exact E | exact HP].
Qed.

Lemma runs_bind_lift_ext {A B : Type} (r : result ext_exn A) (a : A) (k : A -> M Rng B)
      (g : Rng) (P : B -> Rng -> Prop) :
  r = Ok a -> runs_to (k a) g P -> runs_to (bind (lift_ext r) k) g P.
Proof.
  intros -> (b & g' & E & HP). exists b, g'. split; [exact E | exact HP].
Qed.

Lemma runs_call_attention (a : Attention R Rng) (x : Tensor R) (mask : option (Tensor R))
      (batch_size : Z) (g : Rng) :
  attention_ok a -> wf x ->
  runs_to (call_attention a x mask [batch_size]) g (fun y _ => shape y = shape x /\ wf y).
Proof.
  intros Ha Hx. destruct (Ha x mask batch_size g Hx) as (y & g' & E & Hs & Hw).
  exists y, g'. split; [|split; assumption]. unfold call_attention. rewrite E. reflexivity.
Qed.

Lemma runs_bind_ret {A B : Type} (a : A) (k : A -> M Rng B) (g : Rng)
      (P : B -> Rng -> Prop) :
  runs_to (k a) g P -> runs_to (bind (ret a) k) g P.
Proof. intros (b & g' & E & HP). exists b, g'. split; [exact E | exact HP]. Qed.

Lemma runs_call (m : Module R Rng) (x : Tensor R) (g : Rng) :
  module_ok m -> wf x ->
  runs_to (call m x) g (fun y _ => shape y = shape x /\ wf y).
Proof.
  intros Hm Hx. destruct (Hm x g Hx) as (y & g' & E & Hs & Hw).
  exists y, g'. split; [|split; assumption]. unfold call. rewrite E. reflexivity.
Qed.

Lemma runs_call_zeros (m : Module R Rng) (s : list Z) (g : Rng) :
  preserves_zeros m -> runs_to (call m (zeros s)) g (fun y _ => y = zeros s).
Proof.
  intros Hm. destruct (Hm s g) as (g' & E).
  exists (zeros s), g'. split; [|reflexivity]. unfold call. rewrite E. reflexivity.
Qed.

Lemma runs_weaken {A : Type} (m : M Rng A) (g : Rng) (P Q : A -> Rng -> Prop) :
  runs_to m g P -> (forall a g', P a g' -> Q a g') -> runs_to m g Q.
Proof. intros (a & g' & E & HP) H. exists a, g'. split; [exact E | apply H, HP]. Qed.

End Runs.

(** ** The stages of a forward pass return, with the right shapes *)

Ltac run_step :=
  match goal with
  | E : ?r = Ok ?a |- runs_to (bind (lift ?r) _) _ _ =>
      eapply runs_bind_lift; [exact E|]; cbv beta iota
  | E : ?r = Ok ?a |- runs_to (lift ?r) _ _ =>
      eapply runs_lift; [exact E|]; cbv beta iota
  | |- runs_to (bind (lift (Ok _)) _) _ _ =>
      eapply runs_bind_lift; [reflexivity|]; cbv beta iota
  | E : ?r = Ok ?a |- runs_to (bind (lift_ext ?r) _) _ _ =>
      eapply runs_bind_lift_ext; [exact E|]; cbv beta iota
  | |- runs_to (bind (ret _) _) _ _ => apply runs_bind_ret; cbv beta iota
  end.

Ltac positive_shape := repeat (apply Forall_cons; [lia|]); apply Forall_nil.

Section Stages.
Variable R : Type.
Context {scalar : Scalar R}.
Variable Rng : Type.
Variable generate_3d_attention_mask :
  Tensor R -> list Z -> list Z -> bool -> result ext_exn (Tensor R).

Lemma wf_tokens (x : Tensor R) (b n c : Z) :
  wf x -> shape x = [b; n; c] -> 0 < b /\ 0 < n /\ 0 < c.
Proof.
  intros [_ Hp] Hs. rewrite Hs in Hp.
  pose proof (Forall_inv Hp) as H1.
  pose proof (Forall_inv (Forall_inv_tail Hp)) as H2.
  pose proof (Forall_inv (Forall_inv_tail (Forall_inv_tail Hp))) as H3.
  cbv beta in *. auto.
Qed.

Lemma forward_modulate_none (self : EarthSpecificBlock R Rng) (x : Tensor R) (g : Rng) :
  module_ok (norm1 self) -> wf x ->
  runs_to (forward_modulate self x None) g
          (fun ym _ => snd ym = None /\ shape (fst ym) = shape x /\ wf (fst ym)).
Proof.
  intros Hn Hx. unfold forward_modulate.
  eapply runs_bind; [apply runs_call; eassumption|].
  intros y g1 [Hs Hw]. cbv beta. apply runs_ret. cbn [fst snd]. auto.
Qed.

Lemma forward_modulate_some (self : EarthSpecificBlock R Rng) (x ce : Tensor R)
      (b n c : Z) (g : Rng) :
  module_ok (norm1 self) -> wf x -> shape x = [b; n; c] ->
  wf ce -> shape ce = [b; 6 * c] ->
  runs_to (forward_modulate self x (Some ce)) g
          (fun ym _ =>
             shape (fst ym) = [b; n; c] /\ wf (fst ym)
             /\ exists gate_msa shift_mlp scale_mlp gate_mlp,
                 snd ym = Some (gate_msa, shift_mlp, scale_mlp, gate_mlp)
                 /\ Forall (fun t => shape t = [b; c] /\ wf t)
                           [gate_msa; shift_mlp; scale_mlp; gate_mlp]
                 /\ (ce = zeros [b; 6 * c] ->
                     Forall (fun t => t = zeros [b; c])
                            [gate_msa; shift_mlp; scale_mlp; gate_mlp])).
Proof.
  intros Hn Hx Hsx Hce Hsce. unfold forward_modulate.
  destruct (wf_tokens Hx Hsx) as (Hb & Hn0 & Hc).
  eapply runs_bind; [apply runs_call; eassumption|].
  intros y g1 [Hs Hw]. cbv beta iota. rewrite Hsx in Hs.
  destruct (chunk6_ok c Hce Hsce) as (c0 & c1 & c2 & c3 & c4 & c5 & Ech & Hall & Hz).
  run_step.
  pose proof (Forall_inv Hall) as [S0 W0].
  pose proof (Forall_inv (Forall_inv_tail Hall)) as [S1 W1].
  destruct (unsqueeze1_ok W1 S1) as (sc & Esc & Ssc & Wsc & _). run_step.
  destruct (wf_one_plus Wsc) as [Wop Sop].
  destruct (@binop_ok R scalar smul y (one_plus sc) [b; n; c]) as (y1 & Ey1 & Sy1 & Wy1);
    [rewrite Hs, Sop, Ssc; apply broadcast_shapes_tokens_r | positive_shape |].
  fold (tmul y (one_plus sc)) in Ey1. run_step.
  destruct (unsqueeze1_ok W0 S0) as (sh & Esh & Ssh & Wsh & _). run_step.
  destruct (@binop_ok R scalar sadd y1 sh [b; n; c]) as (y2 & Ey2 & Sy2 & Wy2);
    [rewrite Sy1, Ssh; apply broadcast_shapes_tokens_r | positive_shape |].
  fold (tadd y1 sh) in Ey2. run_step.
  apply runs_ret. cbn [fst snd]. split; [exact Sy2|]. split; [exact Wy2|].
  exists c2, c3, c4, c5. split; [reflexivity|]. split.
  - exact (Forall_inv_tail (Forall_inv_tail Hall)).
  - intros Hzero. exact (Forall_inv_tail (Forall_inv_tail (Hz Hzero))).
Qed.

Lemma py_floordiv_exact (a w : Z) :
  0 < a -> 0 < w -> a mod w = 0 ->
  py_floordiv a w = Ok (a / w) /\ a = a / w * w /\ 0 < a / w.
Proof.
  intros Ha Hw Hm. unfold py_floordiv.
  assert (E : (w =? 0) = false) by (apply Z.eqb_neq; lia). rewrite E.
  split; [reflexivity|].
  assert (Hd : a = a / w * w) by (rewrite Z.mul_comm; apply Z.div_exact; lia).
  split; [exact Hd|]. nia.
Qed.

Lemma forward_window_attention_ok (self : EarthSpecificBlock R Rng) (x : Tensor R)
      (b z h w c : Z) (roll_ : bool) (g : Rng) :
  block_geometry_ok self z h w ->
  checkpoint_activation self = false ->
  attention_ok (attention self) ->
  mask_ok generate_3d_attention_mask ->
  wf x -> shape x = [b; z * h * w; c] -> 0 < z -> 0 < h -> 0 < w ->
  runs_to (forward_window_attention generate_3d_attention_mask self x [b; z; h; w; c] roll_) g
          (fun yd _ => snd yd = (b, z, h, w)
                       /\ shape (fst yd) = [b; z * h * w; c] /\ wf (fst yd)).
Proof.
  intros (wz & wh & ww & p_l & p_r & p_t & p_b & p_f & p_k & Hws & Hwz & Hwh & Hww & Hlen
          & Hpad & Hl & Hr & Ht & Hbt & Hf & Hk & Hmz & Hmh & Hmw)
         Hck Hattn Hmask Hx Hsx Hz Hh Hw.
  destruct (wf_tokens Hx Hsx) as (Hb & _ & Hc).
  destruct (shift_size self) as [|s_0 [|s_1 [|s_2 [|? ?]]]] eqn:Hss; try discriminate Hlen.
  destruct (@py_floordiv_exact (z + p_f + p_k) wz) as (Efz & Hpz & Hnz); [lia..|].
  destruct (@py_floordiv_exact (h + p_t + p_b) wh) as (Efh & Hph & Hnh); [lia..|].
  destruct (@py_floordiv_exact (w + p_l + p_r) ww) as (Efw & Hpw & Hnw); [lia..|].
  unfold forward_window_attention, view. rewrite Hws, Hss, Hpad.
  cbn [tuple_get nth_error length Nat.eqb negb].
  (* view *)
  destruct (@reshape_exact R x [b; z; h; w; c]) as (t1 & E1 & S1 & W1 & _);
    [exact Hx | positive_shape | rewrite Hsx, !numel_cons, numel_nil; ring |].
  run_step.
  (* b z h w c -> b c z h w *)
  destruct (@permute_ok R scalar t1 [0; 4; 1; 2; 3]%nat) as (t2 & E2 & S2 & W2);
    [rewrite S1; reflexivity | rewrite S1; cbn [map nth]; positive_shape |].
  rewrite S1 in S2. cbn [map nth] in S2. run_step.
  destruct (@pad_ok R scalar (pad3D self) t2 b c z h w p_l p_r p_t p_b p_f p_k S2 Hpad)
    as (t3 & E3 & S3 & W3); [positive_shape|].
  run_step.
  destruct (@permute_ok R scalar t3 [0; 2; 3; 4; 1]%nat) as (t4 & E4 & S4 & W4);
    [rewrite S3; reflexivity | rewrite S3; cbn [map nth]; positive_shape |].
  rewrite S3 in S4. cbn [map nth] in S4. run_step.
  assert (E5 : unpack5 (shape t4)
               = Ok (b, z + p_f + p_k, h + p_t + p_b, w + p_l + p_r, c))
    by (rewrite S4; reflexivity).
  run_step.
  (* roll *)
  eapply runs_bind with (Q := fun xm _ => shape (fst xm) = shape t4 /\ wf (fst xm)).
  { destruct roll_.
    - repeat run_step.
      destruct (@roll3_ok R scalar t4 (- s_0) (- s_1) (- s_2) W4) as (t5 & E5' & S5 & W5);
        [rewrite S4; reflexivity|].
      run_step.
      destruct (Hmask t5 [wz; wh; ww] [s_0; s_1; s_2] (lam self)) as (mask & Em).
      run_step. apply runs_ret. cbn [fst]. split; assumption.
    - apply runs_ret. cbn [fst]. split; [reflexivity | exact W4]. }
  intros [t5 mask] g5 [S5 W5]. cbn [fst] in S5, W5. cbv beta iota. rewrite S4 in S5.
  repeat run_step.
  (* windows *)
  rewrite S5. cbn [nth].
  set (nz := (z + p_f + p_k) / wz) in *.
  set (nh := (h + p_t + p_b) / wh) in *.
  set (nw := (w + p_l + p_r) / ww) in *.
  destruct (@reshape_hole R t5 [b; nz; wz; nh; wh; nw; ww] [] c W5) as (t6 & E6 & S6 & W6);
    [positive_shape | positive_shape | lia
     | rewrite S5, !numel_cons, numel_nil, Hpz, Hph, Hpw; ring |].
  cbn [app] in E6, S6. run_step.
  destruct (@permute_ok R scalar t6 [0; 1; 3; 5; 2; 4; 6; 7]%nat) as (t7 & E7 & S7 & W7);
    [rewrite S6; reflexivity | rewrite S6; cbn [map nth]; positive_shape |].
  rewrite S6 in S7. cbn [map nth] in S7. run_step.
  assert (Hvol : 0 < wz * wh * ww) by nia.
  assert (Hcount : 0 < b * nz * nh * nw) by nia.
  destruct (@reshape_hole R t7 [] [wz * wh * ww; c] (b * nz * nh * nw) W7)
    as (t8 & E8 & S8 & W8);
    [positive_shape | positive_shape | lia
     | rewrite S7, !numel_cons, numel_nil; ring |].
  cbn [app] in E8, S8. run_step.
  (* attention *)
  eapply runs_bind with (Q := fun y _ => shape y = shape t8 /\ wf y).
  { rewrite Hck. apply runs_call_attention; assumption. }
  intros t9 g9 [S9 W9]. cbv beta iota. rewrite S8 in S9.
  destruct (@reshape_hole R t9 [b; nz; nh; nw; wz; wh; ww] [] c W9) as (t10 & E10 & S10 & W10);
    [positive_shape | positive_shape | lia
     | rewrite S9, !numel_cons, numel_nil; ring |].
  cbn [app] in E10, S10. run_step.
  destruct (@permute_ok R scalar t10 [0; 1; 4; 2; 5; 3; 6; 7]%nat) as (t11 & E11 & S11 & W11);
    [rewrite S10; reflexivity | rewrite S10; cbn [map nth]; positive_shape |].
  rewrite S10 in S11. cbn [map nth] in S11. run_step.
  destruct (@reshape_hole R t11 [b; z + p_f + p_k; h + p_t + p_b; w + p_l + p_r] [] c W11)
    as (t12 & E12 & S12 & W12);
    [positive_shape | positive_shape | lia
     | rewrite S11, !numel_cons, numel_nil, Hpz, Hph, Hpw; ring |].
  cbn [app] in E12, S12. run_step.
  (* roll back *)
  eapply runs_bind with (Q := fun y _ => shape y = shape t12 /\ wf y).
  { destruct roll_.
    - repeat run_step.
      destruct (@roll3_ok R scalar t12 s_0 s_1 s_2 W12) as (t13 & E13 & S13 & W13);
        [rewrite S12; reflexivity|].
      run_step. split; assumption.
    - apply runs_ret. split; [reflexivity | exact W12]. }
  intros t13 g13 [S13 W13]. cbv beta iota. rewrite S12 in S13.
  (* crop *)
  destruct (@crop_ok R scalar t13 b (z + p_f + p_k) (h + p_t + p_b) (w + p_l + p_r) c
                     p_l p_r p_t p_b p_f p_k S13) as (t14 & E14 & S14 & W14); [lia..|].
  replace (z + p_f + p_k - p_k - p_f) with z in S14 by lia.
  replace (h + p_t + p_b - p_b - p_t) with h in S14 by lia.
  replace (w + p_l + p_r - p_r - p_l) with w in S14 by lia.
  run_step.
  assert (E15 : unpack5 (shape t14) = Ok (b, z, h, w, c)) by (rewrite S14; reflexivity).
  run_step.
  assert (Hn : 0 < z * h * w) by nia.
  destruct (@reshape_hole R t14 [b] [c] (z * h * w) W14) as (t15 & E15' & S15 & W15);
    [positive_shape | positive_shape | lia
     | rewrite S14, !numel_cons, numel_nil; ring |].
  cbn [app] in E15', S15. run_step.
  apply runs_ret. cbn [fst snd]. auto.
Qed.

Lemma binop_same (op : R -> R -> R) (a b : Tensor R) (s : list Z) :
  wf a -> shape a = s -> shape b = s ->
  exists t', binop op a b = Ok t' /\ shape t' = s /\ wf t'.
Proof.
  intros [_ Hp] Ha Hb. apply binop_ok.
  - rewrite Ha, Hb. apply broadcast_shapes_same.
  - rewrite <- Ha. exact Hp.
Qed.

Lemma binop_tokens_r (op : R -> R -> R) (a m : Tensor R) (b n c : Z) :
  wf a -> shape a = [b; n; c] -> shape m = [b; 1; c] ->
  exists t', binop op a m = Ok t' /\ shape t' = [b; n; c] /\ wf t'.
Proof.
  intros [_ Hp] Ha Hm. apply binop_ok.
  - rewrite Ha, Hm. apply broadcast_shapes_tokens_r.
  - rewrite <- Ha. exact Hp.
Qed.

Lemma binop_tokens_l (op : R -> R -> R) (m a : Tensor R) (b n c : Z) :
  wf a -> shape a = [b; n; c] -> shape m = [b; 1; c] ->
  exists t', binop op m a = Ok t' /\ shape t' = [b; n; c] /\ wf t'.
Proof.
  intros [_ Hp] Ha Hm. apply binop_ok.
  - rewrite Ha, Hm. apply broadcast_shapes_tokens_l.
  - rewrite <- Ha. exact Hp.
Qed.

Lemma rearrange_to_columns_ok (x : Tensor R) (b pl lat lon c : Z) :
  wf x -> shape x = [b; pl * lat * lon; c] -> 0 < pl -> 0 < lat -> 0 < lon ->
  exists t', rearrange_to_columns x pl lat lon = Ok t'
             /\ shape t' = [b * lat * lon; pl; c] /\ wf t'.
Proof.
  intros Hx Hs Hpl Hlat Hlon. destruct (wf_tokens Hx Hs) as (Hb & _ & Hc).
  unfold rearrange_to_columns. rewrite Hs, Z.eqb_refl.
  destruct (@reshape_exact R x [b; pl; lat; lon; c]) as (t1 & E1 & S1 & W1 & _);
    [exact Hx | positive_shape | rewrite Hs, !numel_cons, numel_nil; ring |].
  rewrite E1. cbn [rbind].
  destruct (@permute_ok R scalar t1 [0; 2; 3; 1; 4]%nat) as (t2 & E2 & S2 & W2);
    [rewrite S1; reflexivity | rewrite S1; cbn [map nth]; positive_shape |].
  rewrite S1 in S2. cbn [map nth] in S2. rewrite E2. cbn [rbind].
  assert (Hn : 0 < b * lat * lon) by nia.
  destruct (@reshape_exact R t2 [b * lat * lon; pl; c]) as (t3 & E3 & S3 & W3 & _);
    [exact W2 | positive_shape | rewrite S2, !numel_cons, numel_nil; ring |].
  exists t3. auto.
Qed.

Lemma rearrange_from_columns_ok (x2 : Tensor R) (b pl lat lon c : Z) :
  wf x2 -> shape x2 = [b * lat * lon; pl; c] -> 0 < b -> 0 < lat -> 0 < lon ->
  exists t', rearrange_from_columns x2 b lat lon = Ok t'
             /\ shape t' = [b; pl * lat * lon; c] /\ wf t'.
Proof.
  intros Hx Hs Hb Hlat Hlon. destruct (wf_tokens Hx Hs) as (_ & Hpl & Hc).
  unfold rearrange_from_columns. rewrite Hs, Z.eqb_refl.
  destruct (@reshape_exact R x2 [b; lat; lon; pl; c]) as (t1 & E1 & S1 & W1 & _);
    [exact Hx | positive_shape | rewrite Hs, !numel_cons, numel_nil; ring |].
  rewrite E1. cbn [rbind].
  destruct (@permute_ok R scalar t1 [0; 3; 1; 2; 4]%nat) as (t2 & E2 & S2 & W2);
    [rewrite S1; reflexivity | rewrite S1; cbn [map nth]; positive_shape |].
  rewrite S1 in S2. cbn [map nth] in S2. rewrite E2. cbn [rbind].
  assert (Hn : 0 < pl * lat * lon) by nia.
  destruct (@reshape_exact R t2 [b; pl * lat * lon; c]) as (t3 & E3 & S3 & W3 & _);
    [exact W2 | positive_shape | rewrite S2, !numel_cons, numel_nil; ring |].
  exists t3. auto.
Qed.

Ltac run_call H :=
  eapply runs_bind; [apply runs_call; [exact H | eassumption]|];
  intros ? ? [? ?]; cbv beta iota.

Lemma forward_axial_attention_ok (self : EarthSpecificBlock R Rng) (x : Tensor R)
      (b z h w c : Z) (g : Rng) :
  match axial self with
  | Some (axis_pos_embed, axial_attn) => module_ok axis_pos_embed /\ module_ok axial_attn
  | None => True
  end ->
  wf x -> shape x = [b; z * h * w; c] -> 0 < z -> 0 < h -> 0 < w ->
  runs_to (forward_axial_attention self x (b, z, h, w)) g
          (fun x2 _ => match x2 with
                       | Some t => shape t = [b; z * h * w; c] /\ wf t
                       | None => True
                       end).
Proof.
  intros Hax Hx Hs Hz Hh Hw. destruct (wf_tokens Hx Hs) as (Hb & _ & Hc).
  unfold forward_axial_attention.
  destruct (axial self) as [[axis_pos_embed axial_attn]|]; [|apply runs_ret; exact I].
  destruct Hax as [Hpos Hattn].
  destruct (@rearrange_to_columns_ok x b z h w c Hx Hs Hz Hh Hw) as (t1 & E1 & S1 & W1).
  run_step.
  run_call Hpos. run_call Hattn.
  destruct (@rearrange_from_columns_ok a0 b z h w c) as (t4 & E4 & S4 & W4);
    [assumption | congruence | lia..|].
  run_step. apply runs_ret. auto.
Qed.

Lemma unsqueeze1_zeros (b c : Z) : unsqueeze1 (zeros (R := R) [b; c]) = Ok (zeros [b; 1; c]).
Proof.
  unfold unsqueeze1, zeros. cbn [shape data]. do 3 f_equal.
  rewrite !numel_cons, numel_nil. f_equal. ring.
Qed.

Lemma forward_main_stages_ok (self : EarthSpecificBlock R Rng) (shortcut x : Tensor R)
      (x2 : option (Tensor R)) (modulation : Modulation R) (b n c : Z) (g : Rng) :
  module_ok (drop_path self) -> module_ok (norm2 self) -> module_ok (mlp self) ->
  wf shortcut -> shape shortcut = [b; n; c] ->
  wf x -> shape x = [b; n; c] ->
  match x2 with
  | Some t => shape t = [b; n; c] /\ wf t
  | None => True
  end ->
  match modulation with
  | Some (gate_msa, shift_mlp, scale_mlp, gate_mlp) =>
      Forall (fun t => shape t = [b; c] /\ wf t) [gate_msa; shift_mlp; scale_mlp; gate_mlp]
  | None => True
  end ->
  runs_to (forward_main_stages self shortcut x x2 modulation) g
          (fun y _ => shape y = [b; n; c] /\ wf y).
Proof.
  intros Hdp Hn2 Hmlp Hws Hss Hwx Hsx Hx2 Hmod.
  unfold forward_main_stages, tadd, tmul.
  destruct modulation as [[[[gate_msa shift_mlp] scale_mlp] gate_mlp]|].
  - pose proof (Forall_inv Hmod) as [Sg Wg].
    pose proof (Forall_inv (Forall_inv_tail Hmod)) as [Ssh Wsh].
    pose proof (Forall_inv (Forall_inv_tail (Forall_inv_tail Hmod))) as [Ssc Wsc].
    pose proof (Forall_inv (Forall_inv_tail (Forall_inv_tail (Forall_inv_tail Hmod))))
      as [Sgf Wgf].
    eapply runs_bind with (Q := fun y _ => shape y = [b; n; c] /\ wf y).
    { destruct x2 as [t2|]; [|apply runs_ret; auto]. destruct Hx2 as [S2 W2].
      eapply runs_bind; [apply runs_call; eassumption|].
      intros d2 g2 [Sd Wd]. cbv beta.
      destruct (@binop_same sadd x d2 [b; n; c] Hwx Hsx) as (t & E & S & W); [congruence|].
      run_step. auto. }
    intros x1 g1 [S1 W1]. cbv beta.
    destruct (unsqueeze1_ok Wg Sg) as (gate & Eg & Sgate & Wgate & _). run_step.
    eapply runs_bind; [apply runs_call; eassumption|].
    intros dx g2 [Sdx Wdx]. cbv beta. rewrite S1 in Sdx.
    destruct (@binop_tokens_l smul gate dx b n c Wdx Sdx Sgate) as (gx & Egx & Sgx & Wgx).
    run_step.
    destruct (@binop_same sadd shortcut gx [b; n; c] Hws Hss Sgx) as (x3 & Ex3 & Sx3 & Wx3).
    run_step.
    eapply runs_bind; [apply runs_call; eassumption|].
    intros nx g3 [Snx Wnx]. cbv beta. rewrite Sx3 in Snx.
    destruct (unsqueeze1_ok Wsc Ssc) as (scale & Esc & Sscale & Wscale & _). run_step.
    destruct (wf_one_plus Wscale) as [Wop Sop].
    destruct (@binop_tokens_r smul nx (one_plus scale) b n c Wnx Snx) as (sn & Esn & Ssn & Wsn);
      [congruence|].
    run_step.
    destruct (unsqueeze1_ok Wsh Ssh) as (shift & Esh & Sshift & Wshift & _). run_step.
    destruct (@binop_tokens_r sadd sn shift b n c Wsn Ssn Sshift) as (mi & Emi & Smi & Wmi).
    run_step.
    destruct (unsqueeze1_ok Wgf Sgf) as (gate2 & Eg2 & Sgate2 & Wgate2 & _). run_step.
    eapply runs_bind; [apply runs_call; eassumption|].
    intros m g4 [Sm Wm]. cbv beta. rewrite Smi in Sm.
    destruct (@binop_tokens_l smul gate2 m b n c Wm Sm Sgate2) as (gm & Egm & Sgm & Wgm).
    run_step.
    eapply runs_bind; [apply runs_call; eassumption|].
    intros dgm g5 [Sdgm Wdgm]. cbv beta. rewrite Sgm in Sdgm.
    destruct (@binop_same sadd x3 dgm [b; n; c] Wx3 Sx3 Sdgm) as (out & Eo & So & Wo).
    run_step. auto.
  - eapply runs_bind; [apply runs_call; eassumption|].
    intros dx g1 [Sdx Wdx]. cbv beta. rewrite Hsx in Sdx.
    destruct (@binop_same sadd shortcut dx [b; n; c] Hws Hss Sdx) as (x1 & E1 & S1 & W1).
    run_step.
    eapply runs_bind with (Q := fun y _ => shape y = [b; n; c] /\ wf y).
    { destruct x2 as [t2|]; [|apply runs_ret; auto]. destruct Hx2 as [S2 W2].
      eapply runs_bind; [apply runs_call; eassumption|].
      intros d2 g2 [Sd Wd]. cbv beta.
      destruct (@binop_same sadd x1 d2 [b; n; c] W1 S1) as (t & E & S & W); [congruence|].
      run_step. auto. }
    intros x3 g3 [S3 W3]. cbv beta.
    eapply runs_bind; [apply runs_call; eassumption|].
    intros nx g4 [Snx Wnx]. cbv beta.
    eapply runs_bind; [apply runs_call; eassumption|].
    intros m g5 [Sm Wm]. cbv beta.
    eapply runs_bind; [apply runs_call; eassumption|].
    intros dm g6 [Sdm Wdm]. cbv beta.
    destruct (@binop_same sadd x3 dm [b; n; c] W3 S3) as (out & Eo & So & Wo); [congruence|].
    run_step. auto.
Qed.

(** With all four chunks zero the conditioned residual stages return the
    shortcut: both gates are zero. *)
Lemma forward_main_stages_zero {laws : ScalarLaws R} (self : EarthSpecificBlock R Rng)
      (shortcut x : Tensor R) (x2 : option (Tensor R)) (b n c : Z) (g : Rng) :
  module_ok (drop_path self) -> preserves_zeros (drop_path self) ->
  module_ok (norm2 self) -> module_ok (mlp self) ->
  wf shortcut -> shape shortcut = [b; n; c] ->
  wf x -> shape x = [b; n; c] ->
  match x2 with
  | Some t => shape t = [b; n; c] /\ wf t
  | None => True
  end ->
  runs_to (forward_main_stages self shortcut x x2
             (Some (zeros [b; c], zeros [b; c], zeros [b; c], zeros [b; c]))) g
          (fun y _ => y = shortcut).
Proof.
  intros Hdp Hdpz Hn2 Hmlp Hws Hss Hwx Hsx Hx2.
  destruct (wf_tokens Hws Hss) as (Hb & Hn & Hc).
  assert (Wz : wf (zeros (R := R) [b; 1; c])) by (apply wf_zeros; positive_shape).
  unfold forward_main_stages.
  eapply runs_bind with (Q := fun y _ => shape y = [b; n; c] /\ wf y).
  { destruct x2 as [t2|]; [|apply runs_ret; auto]. destruct Hx2 as [S2 W2].
    eapply runs_bind; [apply runs_call; eassumption|].
    intros d2 g2 [Sd Wd]. cbv beta.
    destruct (@binop_same sadd x d2 [b; n; c] Hwx Hsx) as (t & E & S & W); [congruence|].
    fold (tadd x d2) in E. run_step. auto. }
  intros x1 g1 [S1 W1]. cbv beta.
  pose proof (unsqueeze1_zeros b c) as Eu. run_step.
  eapply runs_bind; [apply runs_call; eassumption|].
  intros dx g2 [Sdx Wdx]. cbv beta. rewrite S1 in Sdx.
  assert (Egx : tmul (zeros [b; 1; c]) dx = Ok (zeros [b; n; c])).
  { apply (@tmul_zeros_l R scalar laws). rewrite Sdx. apply broadcast_shapes_tokens_l. }
  run_step.
  assert (Ex3 : tadd shortcut (zeros [b; n; c]) = Ok shortcut).
  { rewrite <- Hss. apply (@tadd_zeros_r R scalar laws), Hws. }
  run_step.
  eapply runs_bind; [apply runs_call; eassumption|].
  intros nx g3 [Snx Wnx]. cbv beta. rewrite Hss in Snx.
  run_step.
  destruct (wf_one_plus Wz) as [Wop Sop].
  destruct (@binop_tokens_r smul nx (one_plus (zeros [b; 1; c])) b n c Wnx Snx)
    as (sn & Esn & Ssn & Wsn); [exact Sop|].
  fold (tmul nx (one_plus (zeros [b; 1; c]))) in Esn. run_step. run_step.
  destruct (@binop_tokens_r sadd sn (zeros [b; 1; c]) b n c Wsn Ssn) as (mi & Emi & Smi & Wmi);
    [reflexivity|].
  fold (tadd sn (zeros [b; 1; c])) in Emi. run_step. run_step.
  eapply runs_bind; [apply runs_call; eassumption|].
  intros m g4 [Sm Wm]. cbv beta. rewrite Smi in Sm.
  assert (Egm : tmul (zeros [b; 1; c]) m = Ok (zeros [b; n; c])).
  { apply (@tmul_zeros_l R scalar laws). rewrite Sm. apply broadcast_shapes_tokens_l. }
  run_step.
  eapply runs_bind; [apply runs_call_zeros; exact Hdpz|].
  intros dgm g5 ->. cbv beta.
  run_step. reflexivity.
Qed.

Lemma block_forward_ok (self : EarthSpecificBlock R Rng) (x : Tensor R)
      (cond_embed : option (Tensor R)) (b z h w c : Z) (roll_ : bool) (g : Rng) :
  block_geometry_ok self z h w -> block_modules_ok self ->
  checkpoint_activation self = false ->
  mask_ok generate_3d_attention_mask ->
  wf x -> shape x = [b; z * h * w; c] -> 0 < z -> 0 < h -> 0 < w ->
  match cond_embed with
  | Some ce => wf ce /\ shape ce = [b; 6 * c]
  | None => True
  end ->
  runs_to (EarthSpecificBlock_forward generate_3d_attention_mask self x [b; z; h; w; c]
                                      cond_embed roll_) g
          (fun y _ => shape y = [b; z * h * w; c] /\ wf y).
Proof.
  intros Hgeo (Hdp & Hn1 & Hattn & Hn2 & Hmlp & Hax) Hck Hmask Hx Hsx Hz Hh Hw Hcond.
  unfold EarthSpecificBlock_forward.
  eapply runs_bind with
    (Q := fun ym _ =>
            shape (fst ym) = [b; z * h * w; c] /\ wf (fst ym)
            /\ match snd ym with
               | Some (gate_msa, shift_mlp, scale_mlp, gate_mlp) =>
                   Forall (fun t => shape t = [b; c] /\ wf t)
                          [gate_msa; shift_mlp; scale_mlp; gate_mlp]
               | None => True
               end).
  { destruct cond_embed as [ce|].
    - destruct Hcond as [Hce Hsce].
      eapply runs_weaken; [apply (@forward_modulate_some self x ce b (z * h * w) c g);
                           assumption|].
      intros [y m] g' (Sy & Wy & ga & sh & sc & gf & Em & Hall & _).
      cbn [fst snd] in *. subst m. auto.
    - eapply runs_weaken; [apply forward_modulate_none; assumption|].
      intros [y m] g' (Em & Sy & Wy). cbn [fst snd] in *. subst m.
      rewrite Hsx in Sy. auto. }
  intros [x1 modulation] g1 (S1 & W1 & Hmod). cbn [fst snd] in *. cbv beta iota.
  eapply runs_bind;
    [apply (@forward_window_attention_ok self x1 b z h w c roll_ g1); assumption|].
  intros [x3 dims] g3 (Edims & S3 & W3). cbn [fst snd] in *. subst dims. cbv beta iota.
  eapply runs_bind;
    [apply (@forward_axial_attention_ok self x3 b z h w c g3); assumption|].
  intros x2 g4 Hx2. cbv beta.
  apply forward_main_stages_ok; assumption.
Qed.

Lemma block_forward_zero {laws : ScalarLaws R} (self : EarthSpecificBlock R Rng)
      (x : Tensor R) (b z h w c : Z) (roll_ : bool) (g : Rng) :
  block_geometry_ok self z h w -> block_modules_ok self ->
  checkpoint_activation self = false ->
  preserves_zeros (drop_path self) ->
  mask_ok generate_3d_attention_mask ->
  wf x -> shape x = [b; z * h * w; c] -> 0 < z -> 0 < h -> 0 < w ->
  runs_to (EarthSpecificBlock_forward generate_3d_attention_mask self x [b; z; h; w; c]
                                      (Some (zeros [b; 6 * c])) roll_) g
          (fun y _ => y = x).
Proof.
  intros Hgeo (Hdp & Hn1 & Hattn & Hn2 & Hmlp & Hax) Hck Hdpz Hmask Hx Hsx Hz Hh Hw.
  destruct (wf_tokens Hx Hsx) as (Hb & _ & Hc).
  unfold EarthSpecificBlock_forward.
  eapply runs_bind with
    (Q := fun ym _ =>
            shape (fst ym) = [b; z * h * w; c] /\ wf (fst ym)
            /\ snd ym = Some (zeros [b; c], zeros [b; c], zeros [b; c], zeros [b; c])).
  { eapply runs_weaken;
      [apply (@forward_modulate_some self x (zeros [b; 6 * c]) b (z * h * w) c g);
       try assumption; [apply wf_zeros; positive_shape | reflexivity]|].
    intros [y m] g' (Sy & Wy & ga & sh & sc & gf & Em & _ & Hzero).
    cbn [fst snd] in *. subst m. specialize (Hzero eq_refl).
    pose proof (Forall_inv Hzero) as Z1.
    pose proof (Forall_inv (Forall_inv_tail Hzero)) as Z2.
    pose proof (Forall_inv (Forall_inv_tail (Forall_inv_tail Hzero))) as Z3.
    pose proof (Forall_inv (Forall_inv_tail (Forall_inv_tail (Forall_inv_tail Hzero)))) as Z4.
    cbv beta in *. subst. auto. }
  intros [x1 modulation] g1 (S1 & W1 & Hmod). cbn [fst snd] in *. subst modulation.
  cbv beta iota.
  eapply runs_bind;
    [apply (@forward_window_attention_ok self x1 b z h w c roll_ g1); assumption|].
  intros [x3 dims] g3 (Edims & S3 & W3). cbn [fst snd] in *. subst dims. cbv beta iota.
  eapply runs_bind;
    [apply (@forward_axial_attention_ok self x3 b z h w c g3); assumption|].
  intros x2 g4 Hx2. cbv beta.
  apply (@forward_main_stages_zero laws self x x3 x2 b (z * h * w) c g4); assumption.
Qed.

(** *** The loop over the blocks *)

Lemma layer_loop_ok (bs : list (EarthSpecificBlock R Rng)) (cond_embed : option (Tensor R))
      (b z h w c : Z) :
  Forall (fun self => block_geometry_ok self z h w /\ block_modules_ok self
                      /\ checkpoint_activation self = false) bs ->
  mask_ok generate_3d_attention_mask ->
  0 < z -> 0 < h -> 0 < w ->
  match cond_embed with
  | Some ce => wf ce /\ shape ce = [b; 6 * c]
  | None => True
  end ->
  forall (i : Z) (x : Tensor R) (g : Rng),
    wf x -> shape x = [b; z * h * w; c] ->
    runs_to (layer_loop generate_3d_attention_mask bs i x [b; z; h; w; c] cond_embed) g
            (fun y _ => shape y = [b; z * h * w; c] /\ wf y).
Proof.
  intros Hbs Hmask Hz Hh Hw Hcond.
  induction Hbs as [|self bs (Hgeo & Hmods & Hck) Hbs IH]; intros i x g Hx Hsx;
    cbn [layer_loop].
  - apply runs_ret. auto.
  - eapply runs_bind with (Q := fun y _ => shape y = [b; z * h * w; c] /\ wf y).
    + destruct (i mod 2 =? 0); apply block_forward_ok; assumption.
    + intros y g' [Sy Wy]. cbv beta. apply IH; assumption.
Qed.

Lemma layer_loop_zero {laws : ScalarLaws R} (bs : list (EarthSpecificBlock R Rng))
      (b z h w c : Z) :
  Forall (fun self => block_geometry_ok self z h w /\ block_modules_ok self
                      /\ checkpoint_activation self = false
                      /\ preserves_zeros (drop_path self)) bs ->
  mask_ok generate_3d_attention_mask ->
  0 < z -> 0 < h -> 0 < w ->
  forall (i : Z) (x : Tensor R) (g : Rng),
    wf x -> shape x = [b; z * h * w; c] ->
    runs_to (layer_loop generate_3d_attention_mask bs i x [b; z; h; w; c]
                        (Some (zeros [b; 6 * c]))) g
            (fun y _ => y = x).
Proof.
  intros Hbs Hmask Hz Hh Hw.
  induction Hbs as [|self bs (Hgeo & Hmods & Hck & Hdpz) Hbs IH]; intros i x g Hx Hsx;
    cbn [layer_loop].
  - apply runs_ret. reflexivity.
  - eapply runs_bind with (Q := fun y _ => y = x).
    + destruct (i mod 2 =? 0); apply block_forward_zero; assumption.
    + intros y g' ->. cbv beta. apply IH; assumption.
Qed.

End Stages.

(** ** What the constructors establish *)

Lemma axis_padding_ok (n w : Z) :
  0 < w ->
  exists p q, axis_padding n w = Ok (p, q) /\ 0 <= p /\ 0 <= q /\ (n + p + q) mod w = 0.
Proof.
  intros Hw. unfold axis_padding, py_mod.
  assert (E : (w =? 0) = false) by (apply Z.eqb_neq; lia). rewrite E. cbn [rbind].
  eexists. eexists. split; [reflexivity|].
  pose proof (Z.mod_pos_bound (- n) w Hw) as Hb.
  split; [apply Z.div_pos; lia|]. split; [Z.to_euclidean_division_equations; lia|].
  replace (n + (- n) mod w / 2 + ((- n) mod w - (- n) mod w / 2))
    with (- ((- n) / w) * w).
  - apply Z_mod_mult.
  - pose proof (Z.div_mod (- n) w). lia.
Qed.

Section Construction.
Variable R : Type.
Context {scalar : Scalar R}.
Variable Rng : Type.

Lemma block_init_ok (mods : Submodules R Rng) (data_size : list Z) (wz wh ww z h w : Z)
      (use_axial use_checkpoint use_lam : bool) (block : EarthSpecificBlock R Rng) :
  EarthSpecificBlock_init mods data_size [wz; wh; ww] use_axial use_checkpoint use_lam
  = Ok block ->
  last3 data_size = [z; h; w] -> 0 < wz -> 0 < wh -> 0 < ww ->
  submodules_ok mods ->
  block_geometry_ok block z h w /\ block_modules_ok block
  /\ checkpoint_activation block = use_checkpoint
  /\ drop_path block = new_DropPath mods.
Proof.
  intros Hinit Hds Hwz Hwh Hww (Hdp & Hn1 & Hattn & Hn2 & Hmlp & Hpos & Hax).
  unfold EarthSpecificBlock_init in Hinit.
  destruct (negb _); [discriminate|].
  rewrite Hds in Hinit. unfold CustomPad3d_init in Hinit.
  cbn [tuple_get nth_error rbind length Nat.eqb negb] in Hinit.
  destruct (@axis_padding_ok w ww Hww) as (p_l & p_r & El & Hl & Hr & Hmw).
  destruct (@axis_padding_ok h wh Hwh) as (p_t & p_b & Et & Ht & Hb & Hmh).
  destruct (@axis_padding_ok z wz Hwz) as (p_f & p_k & Ef & Hf & Hk & Hmz).
  rewrite El in Hinit; cbn [rbind] in Hinit.
  rewrite Et in Hinit; cbn [rbind] in Hinit.
  rewrite Ef in Hinit; cbn [rbind] in Hinit.
  destruct (if use_axial then _ else _) as [ax|] eqn:Eax; [|discriminate].
  cbn [rbind] in Hinit. inversion Hinit; subst block; clear Hinit.
  split; [|split; [|split; reflexivity]].
  - exists wz, wh, ww, p_l, p_r, p_t, p_b, p_f, p_k.
    cbn [window_size shift_size pad3D padding]. repeat split; assumption.
  - unfold block_modules_ok.
    cbn [drop_path norm1 attention norm2 mlp axial checkpoint_activation].
    repeat split; try assumption.
    destruct use_axial; [destruct (Nat.ltb _ _); [discriminate|]|];
      inversion Eax; subst ax; auto.
Qed.

Lemma build_blocks_ok (Pm : Module R Rng -> Prop) (mods : list (Submodules R Rng))
      (data_size : list Z) (wz wh ww z h w : Z) (use_axial use_checkpoint use_lam : bool) :
  last3 data_size = [z; h; w] -> 0 < wz -> 0 < wh -> 0 < ww ->
  Forall (fun m => submodules_ok m /\ Pm (new_DropPath m)) mods ->
  forall (count i : nat) (bs : list (EarthSpecificBlock R Rng)),
    build_blocks mods i count data_size [wz; wh; ww] use_axial use_checkpoint use_lam
    = Ok bs ->
    Forall (fun self => block_geometry_ok self z h w /\ block_modules_ok self
                        /\ checkpoint_activation self = use_checkpoint
                        /\ Pm (drop_path self)) bs.
Proof.
  intros Hds Hwz Hwh Hww Hmods. induction count as [|count IH]; intros i bs Hb;
    cbn [build_blocks] in Hb.
  - inversion Hb. constructor.
  - destruct (nth_error mods i) as [m|] eqn:Em; [|discriminate].
    destruct (EarthSpecificBlock_init m _ _ _ _ _) as [block|] eqn:Einit; [|discriminate].
    cbn [rbind] in Hb.
    destruct (build_blocks mods (S i) count _ _ _ _ _) as [rest|] eqn:Erest; [|discriminate].
    cbn [rbind] in Hb. inversion Hb; subst bs; clear Hb.
    apply nth_error_In in Em. rewrite Forall_forall in Hmods.
    destruct (Hmods m Em) as [Hm HPm].
    destruct (@block_init_ok m data_size wz wh ww z h w use_axial use_checkpoint use_lam
                             block Einit Hds Hwz Hwh Hww Hm) as (Hgeo & Hbm & Hck & Hdp).
    constructor; [|exact (IH (S i) rest Erest)].
    rewrite Hdp. auto.
Qed.

Lemma build_blocks_length (mods : list (Submodules R Rng)) (data_size window_size : list Z)
      (use_axial use_checkpoint use_lam : bool) :
  forall (count i : nat) (bs : list (EarthSpecificBlock R Rng)),
    build_blocks mods i count data_size window_size use_axial use_checkpoint use_lam = Ok bs ->
    length bs = count.
Proof.
  induction count as [|count IH]; intros i bs Hb; cbn [build_blocks] in Hb.
  - inversion Hb. reflexivity.
  - destruct (nth_error mods i) as [m|]; [|discriminate].
    destruct (EarthSpecificBlock_init m _ _ _ _ _) as [block|]; [|discriminate].
    cbn [rbind] in Hb.
    destruct (build_blocks mods (S i) count _ _ _ _ _) as [rest|] eqn:Erest; [|discriminate].
    cbn [rbind] in Hb. inversion Hb; subst bs. cbn [length]. f_equal. exact (IH _ _ Erest).
Qed.

Lemma linear_zeros {laws : ScalarLaws R} (x : Tensor R) (b n m : Z) :
  shape x = [b; n] -> linear (zeros [m; n]) (zeros [m]) x = Ok (zeros [b; m]).
Proof.
  intros Hs. unfold linear. rewrite Hs. cbn [zeros shape rev app].
  rewrite !Z.eqb_refl. cbn [andb].
  f_equal. apply tensor_of_fn_zeros. intros idx. cbv zeta.
  change (mkTensor [m; n] (repeat s0 (Z.to_nat (numel [m; n])))) with (zeros (R := R) [m; n]).
  change (mkTensor [m] (repeat s0 (Z.to_nat (numel [m])))) with (zeros (R := R) [m]).
  rewrite get_zeros.
  assert (Hsum : forall l,
             fold_right (fun k acc =>
                           sadd (smul (get x (removelast idx ++ [Z.of_nat k]))
                                      (get (zeros [m; n]) [last idx 0; Z.of_nat k])) acc)
                        s0 l = s0).
  { induction l as [|k l IH]; [reflexivity|]. cbn [fold_right].
    rewrite IH, get_zeros, smul_0_r. apply sadd_0_r. }
  rewrite Hsum. apply sadd_0_r.
Qed.

End Construction.

(** ** The forward pass of a layer *)

Section LayerForward.
Variable R : Type.
Context {scalar : Scalar R}.
Variable Rng : Type.
Variable generate_3d_attention_mask :
  Tensor R -> list Z -> list Z -> bool -> result ext_exn (Tensor R).

Lemma layer_forward_ok (depth : Z) (data_size : list Z) (mods : list (Submodules R Rng))
      (wz wh ww : Z) (use_axial use_lam : bool)
      (layer : EarthSpecificLayer R Rng) (b z h w c : Z) (x : Tensor R)
      (cond_embed : option (Tensor R)) (g : Rng) :
  EarthSpecificLayer_init depth data_size mods [wz; wh; ww] use_axial false use_lam
  = Ok layer ->
  last3 data_size = [z; h; w] -> 0 < wz -> 0 < wh -> 0 < ww ->
  0 < z -> 0 < h -> 0 < w ->
  Forall (fun m => submodules_ok m) mods ->
  mask_ok generate_3d_attention_mask ->
  wf x -> shape x = [b; z * h * w; c] ->
  match cond_embed with
  | Some ce => wf ce /\ shape ce = [b; 6 * c]
  | None => True
  end ->
  runs_to (EarthSpecificLayer_forward generate_3d_attention_mask layer x [b; z; h; w; c]
                                      cond_embed) g
          (fun y _ => shape y = [b; z * h * w; c] /\ wf y).
Proof.
  intros Hinit Hds Hwz Hwh Hww Hz Hh Hw Hmods Hmask Hx Hsx Hcond.
  unfold EarthSpecificLayer_init in Hinit.
  destruct (build_blocks mods 0 (Z.to_nat depth) _ _ _ _ _) as [bs|] eqn:Eb; [|discriminate].
  cbn [rbind] in Hinit. inversion Hinit; subst layer; clear Hinit.
  unfold EarthSpecificLayer_forward. cbn [blocks].
  apply layer_loop_ok; try assumption.
  assert (Hm : Forall (fun m => submodules_ok m /\ (fun _ => True) (new_DropPath m)) mods).
  { eapply Forall_impl; [|exact Hmods]. cbv beta. auto. }
  pose proof (@build_blocks_ok R Rng (fun _ => True) mods data_size wz wh ww z h w
                               use_axial false use_lam Hds Hwz Hwh Hww Hm
                               (Z.to_nat depth) 0%nat bs Eb) as Hbs.
  eapply Forall_impl; [|exact Hbs]. cbv beta. intros self (H1 & H2 & H3 & _). auto.
Qed.

(** C1, as amended.  Immediately after construction, when the modulation
    projection has zero weight and bias, a forward pass of a conditioned
    layer built without activation checkpointing, with a conditioning
    vector, returns its token input unchanged: every gate is zero, so that
    every block is the identity. *)
Theorem conditioned_layer_is_identity_at_init {laws : ScalarLaws R}
        (depth : Z) (data_size : list Z) (dim cond_dim : Z) (mods : list (Submodules R Rng))
        (wz wh ww : Z) (use_lam use_axial : bool)
        (layer : CondBasicLayer R Rng) (b z h w : Z) (x cond_emb : Tensor R) (g : Rng) :
  CondBasicLayer_init depth data_size dim cond_dim mods [wz; wh; ww] use_lam use_axial
                      false = Ok layer ->
  last3 data_size = [z; h; w] -> 0 < wz -> 0 < wh -> 0 < ww ->
  0 < z -> 0 < h -> 0 < w ->
  Forall (fun m => submodules_ok m /\ preserves_zeros (new_DropPath m)) mods ->
  mask_ok generate_3d_attention_mask ->
  wf x -> shape x = [b; z * h * w; dim] ->
  shape cond_emb = [b; cond_dim] ->
  exists g',
    CondBasicLayer_forward generate_3d_attention_mask layer x [b; z; h; w; dim]
                           (Some cond_emb) g = Ok (x, g').
Proof.
  intros Hinit Hds Hwz Hwh Hww Hz Hh Hw Hmods Hmask Hx Hsx Hsc.
  unfold CondBasicLayer_init, EarthSpecificLayer_init in Hinit.
  destruct (build_blocks mods 0 (Z.to_nat depth) _ _ _ _ _) as [bs|] eqn:Eb; [|discriminate].
  cbn [rbind] in Hinit. destruct (_ || _); [discriminate|].
  apply Ok_inj in Hinit. subst layer.
  pose proof (@build_blocks_ok R Rng (@preserves_zeros R scalar Rng) mods data_size
                               wz wh ww z h w use_axial false use_lam
                               Hds Hwz Hwh Hww Hmods (Z.to_nat depth) 0%nat bs Eb) as Hbs.
  assert (Ec : adaLN_modulation
                 {| base := {| blocks := bs |};
                    adaLN_weight := zeros [6 * dim; cond_dim];
                    adaLN_bias := zeros [6 * dim] |} cond_emb
               = Ok (zeros [b; 6 * dim])).
  { unfold adaLN_modulation. cbn [adaLN_weight adaLN_bias].
    apply (@linear_zeros R scalar laws (tmap silu cond_emb) b cond_dim (6 * dim)).
    exact Hsc. }
  unfold CondBasicLayer_forward.
  assert (Hrun : runs_to
                   (layer_loop generate_3d_attention_mask bs 0 x [b; z; h; w; dim]
                               (Some (zeros [b; 6 * dim]))) g (fun y _ => y = x)).
  { apply (@layer_loop_zero R scalar Rng generate_3d_attention_mask laws bs b z h w dim);
      assumption. }
  destruct Hrun as (y & g' & E & ->).
  exists g'. unfold bind at 1. unfold bind, lift. rewrite Ec. cbn [ret].
  unfold EarthSpecificLayer_forward. cbn [base blocks]. exact E.
Qed.

End LayerForward.

(** ** The concrete modules keep shapes *)

Lemma ex_identity_ok : module_ok ex_identity.
Proof. intros x g Hx. exists x, g. repeat split; apply Hx. Qed.

Lemma ex_identity_zeros : preserves_zeros ex_identity.
Proof. intros s g. exists g. reflexivity. Qed.

Lemma ex_attention_ok : attention_ok ex_attention.
Proof. intros x mask batch_size g Hx. exists x, g. repeat split; apply Hx. Qed.

Lemma ex_attention3_ok : attention_ok ex_attention3.
Proof. intros x mask batch_size g Hx. exists x, g. repeat split; apply Hx. Qed.

Lemma ex_attention3_signature : attention_signature ex_attention3.
Proof.
  intros x mask args g Hlen. unfold ex_attention3.
  destruct args as [|a [|a' args]]; [reflexivity | contradiction Hlen; reflexivity | reflexivity].
Qed.

Lemma ex_mask_ok : mask_ok ex_mask.
Proof. intros x ws ss l. eexists. reflexivity. Qed.

Lemma ex_mods_ok :
  submodules_ok (ex_mods ex_identity ex_attention)
  /\ preserves_zeros (new_DropPath (ex_mods ex_identity ex_attention)).
Proof.
  split; [|exact ex_identity_zeros].
  repeat split; try exact ex_identity_ok. apply ex_attention_ok.
Qed.

(** C1, as stated, fails: right after construction the conditioned forward
    pass returns the tokens it was given, and the forward pass without
    conditioning adds the attention and feed-forward branches to them. *)
Lemma conditioned_differs_from_unconditioned_at_init :
  CondBasicLayer_init 1 [2; 3; 2] 1 2 [ex_mods ex_identity ex_attention] [2; 2; 2]
                      false false false = Ok ex_cond_layer
  /\ CondBasicLayer_forward ex_mask ex_cond_layer ex_tokens ex_embedding_shape
                            (Some ex_cond_vector) tt
     = Ok (ex_tokens, tt)
  /\ CondBasicLayer_forward ex_mask ex_cond_layer ex_tokens ex_embedding_shape None tt
     = Ok (mkTensor [1; 12; 1] [4; 8; 12; 16; 20; 24; 28; 32; 36; 40; 44; 48], tt)
  /\ CondBasicLayer_forward ex_mask ex_cond_layer ex_tokens ex_embedding_shape
                            (Some ex_cond_vector) tt
     <> CondBasicLayer_forward ex_mask ex_cond_layer ex_tokens ex_embedding_shape None tt.
Proof.
  split; [reflexivity|]. split; [vm_compute; reflexivity|].
  split; [vm_compute; reflexivity|]. vm_compute. discriminate.
Qed.

Lemma conditioned_layer_is_identity_at_init_witness :
  exists g',
    CondBasicLayer_forward ex_mask ex_cond_layer ex_tokens ex_embedding_shape
                           (Some ex_cond_vector) tt = Ok (ex_tokens, g').
Proof.
  refine (@conditioned_layer_is_identity_at_init Z _ unit ex_mask ScalarLaws_Z
            1 [2; 3; 2] 1 2 [ex_mods ex_identity ex_attention] 2 2 2 false false
            ex_cond_layer 1 2 3 2 ex_tokens ex_cond_vector tt
            eq_refl eq_refl _ _ _ _ _ _ _ ex_mask_ok _ eq_refl eq_refl); try lia.
  - repeat constructor; apply ex_mods_ok.
  - split; [reflexivity | repeat constructor; lia].
Defined.

(** ** Reading a tensor by index *)

Lemma unravel_ravel (s idx : list Z) :
  Forall2 (fun d i => 0 <= i < d) s idx ->
  unravel s (ravel s idx) = idx /\ 0 <= ravel s idx < numel s.
Proof.
  induction 1 as [|d i s idx Hi H [IHu IHb]].
  - cbn [unravel ravel]. rewrite numel_nil. split; [reflexivity | lia].
  - cbn [unravel ravel]. rewrite numel_cons.
    assert (Hp : 0 < numel s) by lia.
    assert (Hd : (i * numel s + ravel s idx) / numel s = i)
      by (rewrite Z.div_add_l, Z.div_small; lia).
    assert (Hm : (i * numel s + ravel s idx) mod numel s = ravel s idx)
      by (rewrite Z.add_comm, Z.mod_add, Z.mod_small; lia).
    rewrite Hd, Hm, IHu. split; [reflexivity | nia].
Qed.

Section Reading.
Variable R : Type.
Context {scalar : Scalar R}.

Lemma get_tensor_of_fn (s idx : list Z) (f : list Z -> R) :
  Forall2 (fun d i => 0 <= i < d) s idx -> get (tensor_of_fn s f) idx = f idx.
Proof.
  intros H. destruct (unravel_ravel H) as [Hu Hb].
  unfold get, tensor_of_fn. cbn [shape data].
  set (g := fun k : nat => f (unravel s (Z.of_nat k))).
  assert (Hk : (Z.to_nat (ravel s idx) < length (seq 0 (Z.to_nat (numel s))))%nat)
    by (rewrite length_seq; lia).
  rewrite (nth_indep _ s0 (g 0%nat)) by (rewrite length_map; exact Hk).
  rewrite (map_nth g). rewrite length_seq in Hk. rewrite seq_nth by exact Hk.
  unfold g. cbn [Nat.add]. rewrite Z2Nat.id by lia. rewrite Hu. reflexivity.
Qed.

Lemma tensor_ext (a b : Tensor R) :
  wf a -> wf b -> shape a = shape b ->
  (forall idx, Forall2 (fun d i => 0 <= i < d) (shape a) idx -> get a idx = get b idx) ->
  a = b.
Proof.
  intros [La Pa] [Lb Pb] Hs Hget. destruct a as [sa da], b as [sb db].
  cbn [shape data] in *. subst sb. f_equal.
  apply (nth_ext _ _ s0 s0); [congruence|].
  intros k Hk. rewrite La in Hk.
  assert (Hk' : 0 <= Z.of_nat k < numel sa) by lia.
  specialize (Hget (unravel sa (Z.of_nat k)) (unravel_bounds Pa Hk')).
  unfold get in Hget. cbn [shape data] in Hget.
  rewrite (ravel_unravel Pa Hk'), Nat2Z.id in Hget. exact Hget.
Qed.

Lemma reshape_data (t t' : Tensor R) (s : list Z) :
  reshape t s = Ok t' -> data t' = data t.
Proof.
  unfold reshape. destruct (infer_shape _ _); cbn [rbind]; intros E; [|discriminate].
  apply Ok_inj in E. subst t'. reflexivity.
Qed.

Lemma same_tensor (a b : Tensor R) : shape a = shape b -> data a = data b -> a = b.
Proof. destruct a, b. cbn [shape data]. intros -> ->. reflexivity. Qed.

End Reading.

(** ** Rearrangements and their inverses *)

Ltac invert_bounds :=
  repeat match goal with
         | H : Forall2 _ (_ :: _) _ |- _ => inversion H; subst; clear H
         | H : Forall2 _ [] _ |- _ => inversion H; subst; clear H
         end.

Ltac bounds := repeat (apply Forall2_cons; [lia|]); apply Forall2_nil.

Lemma shape_tensor_of_fn {R : Type} (s : list Z) (f : list Z -> R) :
  shape (tensor_of_fn s f) = s.
Proof. reflexivity. Qed.

Tactic Notation "index_cbn" :=
  cbn [length Nat.eqb andb forallb existsb seq map nth index_of combine fst snd].

Tactic Notation "index_cbn" "in" hyp(H) :=
  cbn [length Nat.eqb andb forallb existsb seq map nth index_of combine fst snd] in H.

Ltac permute_there_and_back sc Hw Hs E1 E2 :=
  unfold permute in E1; rewrite Hs in E1; index_cbn in E1; apply Ok_inj in E1; subst;
  unfold permute in E2; rewrite !shape_tensor_of_fn in E2; index_cbn in E2;
  apply Ok_inj in E2; subst;
  pose proof Hw as [_ Hpos]; rewrite Hs in Hpos;
  apply (@tensor_ext _ sc);
  [ apply wf_tensor_of_fn; exact Hpos
  | exact Hw
  | rewrite Hs; reflexivity
  | rewrite shape_tensor_of_fn; intros idx Hb; invert_bounds;
    rewrite get_tensor_of_fn by bounds; index_cbn;
    rewrite get_tensor_of_fn by bounds; index_cbn; reflexivity ].

Section Inverses.
Variable R : Type.
Context {scalar : Scalar R}.

Lemma permute_channels_back (t t1 t2 : Tensor R) (b z h w c : Z) :
  wf t -> shape t = [b; z; h; w; c] ->
  permute t [0; 4; 1; 2; 3]%nat = Ok t1 ->
  permute t1 [0; 2; 3; 4; 1]%nat = Ok t2 ->
  t2 = t.
Proof. intros Hw Hs E1 E2. permute_there_and_back scalar Hw Hs E1 E2. Qed.

End Inverses.

Lemma mod_shift_back (i c n : Z) : 0 <= i < n -> ((i - c) mod n - - c) mod n = i.
Proof.
  intros Hi. rewrite Zminus_mod_idemp_l.
  replace (i - c - - c) with i by lia. apply Z.mod_small. exact Hi.
Qed.

Ltac bounds_mod :=
  repeat (apply Forall2_cons; [first [lia | apply Z.mod_pos_bound; lia]|]);
  apply Forall2_nil.

Lemma in_range_true (k n : Z) : 0 <= k < n -> (0 <=? k) && (k <? n) = true.
Proof.
  intros Hk. apply andb_true_iff. split; [apply Z.leb_le | apply Z.ltb_lt]; lia.
Qed.

Section MoreInverses.
Variable R : Type.
Context {scalar : Scalar R}.

Lemma permute_windows_back (t t1 t2 : Tensor R) (b nz wz nh wh nw ww c : Z) :
  wf t -> shape t = [b; nz; wz; nh; wh; nw; ww; c] ->
  permute t [0; 1; 3; 5; 2; 4; 6; 7]%nat = Ok t1 ->
  permute t1 [0; 1; 4; 2; 5; 3; 6; 7]%nat = Ok t2 ->
  t2 = t.
Proof. intros Hw Hs E1 E2. permute_there_and_back scalar Hw Hs E1 E2. Qed.

Lemma permute_levels_back (t t1 t2 : Tensor R) (b pl n c : Z) :
  wf t -> shape t = [b; pl; n; c] ->
  permute t [0; 2; 1; 3]%nat = Ok t1 ->
  permute t1 [0; 2; 1; 3]%nat = Ok t2 ->
  t2 = t.
Proof. intros Hw Hs E1 E2. permute_there_and_back scalar Hw Hs E1 E2. Qed.

Lemma roll1_eq (t : Tensor R) (shift : Z) (dim : nat) (n : Z) :
  nth_error (shape t) dim = Some n ->
  roll1 t shift dim
  = Ok (tensor_of_fn (shape t)
          (fun idx => get t (map (fun '(j, i) => if Nat.eqb j dim then (i - shift) mod n else i)
                                 (combine (seq 0 (length idx)) idx)))).
Proof. intros E. unfold roll1. rewrite E. reflexivity. Qed.

Lemma roll_back (t t1 t2 : Tensor R) (d0 d1 d2 d3 d4 a b c : Z) :
  wf t -> shape t = [d0; d1; d2; d3; d4] ->
  roll t [- a; - b; - c] [1; 2; 3]%nat = Ok t1 ->
  roll t1 [a; b; c] [1; 2; 3]%nat = Ok t2 ->
  t2 = t.
Proof.
  intros Hw Hs E1 E2. pose proof Hw as [_ Hpos]. rewrite Hs in Hpos.
  pose proof (Forall_inv (Forall_inv_tail Hpos)) as H1.
  pose proof (Forall_inv (Forall_inv_tail (Forall_inv_tail Hpos))) as H2.
  pose proof (Forall_inv (Forall_inv_tail (Forall_inv_tail (Forall_inv_tail Hpos)))) as H3.
  cbv beta in H1, H2, H3.
  cbn [roll] in E1, E2.
  rewrite (@roll1_eq t (- a) 1 d1) in E1 by (rewrite Hs; reflexivity). cbn [rbind] in E1.
  rewrite (@roll1_eq _ (- b) 2 d2) in E1 by (rewrite shape_tensor_of_fn, Hs; reflexivity).
  cbn [rbind] in E1.
  rewrite (@roll1_eq _ (- c) 3 d3) in E1 by (rewrite !shape_tensor_of_fn, Hs; reflexivity).
  cbn [rbind] in E1. apply Ok_inj in E1. subst t1.
  rewrite (@roll1_eq _ a 1 d1) in E2 by (rewrite !shape_tensor_of_fn, Hs; reflexivity).
  cbn [rbind] in E2.
  rewrite (@roll1_eq _ b 2 d2) in E2 by (rewrite !shape_tensor_of_fn, Hs; reflexivity).
  cbn [rbind] in E2.
  rewrite (@roll1_eq _ c 3 d3) in E2 by (rewrite !shape_tensor_of_fn, Hs; reflexivity).
  cbn [rbind] in E2. apply Ok_inj in E2. subst t2.
  rewrite !shape_tensor_of_fn, Hs.
  apply (@tensor_ext R scalar).
  - apply wf_tensor_of_fn. exact Hpos.
  - exact Hw.
  - rewrite Hs. reflexivity.
  - rewrite shape_tensor_of_fn. intros idx Hb. invert_bounds.
    repeat (rewrite get_tensor_of_fn by bounds_mod; index_cbn).
    rewrite !mod_shift_back by lia. reflexivity.
Qed.

End MoreInverses.

Section PadCrop.
Variable R : Type.
Context {scalar : Scalar R}.

Lemma pad_crop_back (pad : CustomPad3d) (t t2 t3 t4 t5 : Tensor R)
      (b z h w c p_l p_r p_t p_b p_f p_k : Z) :
  wf t -> shape t = [b; z; h; w; c] ->
  padding pad = (p_l, p_r, p_t, p_b, p_f, p_k) ->
  0 <= p_l -> 0 <= p_r -> 0 <= p_t -> 0 <= p_b -> 0 <= p_f -> 0 <= p_k ->
  permute t [0; 4; 1; 2; 3]%nat = Ok t2 ->
  CustomPad3d_forward pad t2 = Ok t3 ->
  permute t3 [0; 2; 3; 4; 1]%nat = Ok t4 ->
  slice_dims t4 [None; Some (p_f, z + p_f + p_k - p_k); Some (p_t, h + p_t + p_b - p_b);
                 Some (p_l, w + p_l + p_r - p_r); None] = Ok t5 ->
  t5 = t.
Proof.
  intros Hw Hs Hpad Hl Hr Ht Hb Hf Hk E2 E3 E4 E5.
  pose proof Hw as [_ Hpos]. rewrite Hs in Hpos.
  pose proof (Forall_inv Hpos) as P0.
  pose proof (Forall_inv (Forall_inv_tail Hpos)) as P1.
  pose proof (Forall_inv (Forall_inv_tail (Forall_inv_tail Hpos))) as P2.
  pose proof (Forall_inv (Forall_inv_tail (Forall_inv_tail (Forall_inv_tail Hpos)))) as P3.
  pose proof (Forall_inv (Forall_inv_tail (Forall_inv_tail (Forall_inv_tail
                                                              (Forall_inv_tail Hpos))))) as P4.
  cbv beta in P0, P1, P2, P3, P4.
  unfold permute in E2. rewrite Hs in E2. index_cbn in E2. apply Ok_inj in E2. subst t2.
  unfold CustomPad3d_forward in E3. rewrite Hpad, shape_tensor_of_fn in E3.
  cbv beta iota zeta in E3. apply Ok_inj in E3. subst t3.
  unfold permute in E4. rewrite shape_tensor_of_fn in E4. index_cbn in E4.
  apply Ok_inj in E4. subst t4.
  unfold slice_dims in E5. rewrite shape_tensor_of_fn in E5.
  cbn [length Nat.ltb Nat.leb Nat.sub repeat app combine map] in E5.
  rewrite !slice_range_in in E5 by lia. cbn [snd] in E5.
  apply Ok_inj in E5. subst t5.
  apply (@tensor_ext R scalar).
  - apply wf_tensor_of_fn. repeat (apply Forall_cons; [lia|]). apply Forall_nil.
  - exact Hw.
  - rewrite shape_tensor_of_fn, Hs. repeat f_equal; lia.
  - rewrite shape_tensor_of_fn. intros idx Hbn. invert_bounds.
    rewrite get_tensor_of_fn by bounds. index_cbn.
    rewrite get_tensor_of_fn by bounds. index_cbn.
    rewrite get_tensor_of_fn by bounds. index_cbn.
    rewrite !(proj2 (Z.leb_le _ _)) by lia. rewrite !(proj2 (Z.ltb_lt _ _)) by lia.
    cbn [andb].
    rewrite get_tensor_of_fn by bounds. index_cbn.
    f_equal. repeat f_equal; lia.
Qed.

End PadCrop.

(** ** Padding, shifting and windowing are undone exactly *)

Section WindowRoundTrip.
Variable R : Type.
Context {scalar : Scalar R}.
Variable Rng : Type.
Variable generate_3d_attention_mask :
  Tensor R -> list Z -> list Z -> bool -> result ext_exn (Tensor R).

(** X2.  When the attention returns the windows it is given, the second part
    of [forward] returns the tokens it is given, with or without the roll:
    the padding, the cyclic shift and the partition into windows are each
    undone exactly, and the generator is not touched. *)
Theorem window_attention_round_trip (self : EarthSpecificBlock R Rng) (x : Tensor R)
        (b z h w c : Z) (roll_ : bool) (g : Rng) :
  block_geometry_ok self z h w ->
  (forall x_window mask args g', attention self x_window mask args g' = Ok (x_window, g')) ->
  mask_ok generate_3d_attention_mask ->
  wf x -> shape x = [b; z * h * w; c] -> 0 < z -> 0 < h -> 0 < w ->
  forward_window_attention generate_3d_attention_mask self x [b; z; h; w; c] roll_ g
  = Ok ((x, (b, z, h, w)), g).
Proof.
  intros (wz & wh & ww & p_l & p_r & p_t & p_b & p_f & p_k & Hws & Hwz & Hwh & Hww & Hlen
          & Hpad & Hl & Hr & Ht & Hbt & Hf & Hk & Hmz & Hmh & Hmw)
         Hid Hmask Hx Hsx Hz Hh Hw.
  cut (runs_to (forward_window_attention generate_3d_attention_mask self x
                                         [b; z; h; w; c] roll_) g
               (fun yd g' => yd = (x, (b, z, h, w)) /\ g' = g)).
  { intros (yd & g' & E & -> & ->). exact E. }
  destruct (wf_tokens Hx Hsx) as (Hb & _ & Hc).
  destruct (shift_size self) as [|s_0 [|s_1 [|s_2 [|? ?]]]] eqn:Hss; try discriminate Hlen.
  destruct (@py_floordiv_exact (z + p_f + p_k) wz) as (Efz & Hpz & Hnz); [lia..|].
  destruct (@py_floordiv_exact (h + p_t + p_b) wh) as (Efh & Hph & Hnh); [lia..|].
  destruct (@py_floordiv_exact (w + p_l + p_r) ww) as (Efw & Hpw & Hnw); [lia..|].
  unfold forward_window_attention, view. rewrite Hws, Hss, Hpad.
  cbn [tuple_get nth_error length Nat.eqb negb].
  destruct (@reshape_exact R x [b; z; h; w; c]) as (t1 & E1 & S1 & W1 & D1);
    [exact Hx | positive_shape | rewrite Hsx, !numel_cons, numel_nil; ring |].
  run_step.
  destruct (@permute_ok R scalar t1 [0; 4; 1; 2; 3]%nat) as (t2 & E2 & S2 & W2);
    [rewrite S1; reflexivity | rewrite S1; cbn [map nth]; positive_shape |].
  rewrite S1 in S2. cbn [map nth] in S2. run_step.
  destruct (@pad_ok R scalar (pad3D self) t2 b c z h w p_l p_r p_t p_b p_f p_k S2 Hpad)
    as (t3 & E3 & S3 & W3); [positive_shape|].
  run_step.
  destruct (@permute_ok R scalar t3 [0; 2; 3; 4; 1]%nat) as (t4 & E4 & S4 & W4);
    [rewrite S3; reflexivity | rewrite S3; cbn [map nth]; positive_shape |].
  rewrite S3 in S4. cbn [map nth] in S4. run_step.
  assert (E5 : unpack5 (shape t4)
               = Ok (b, z + p_f + p_k, h + p_t + p_b, w + p_l + p_r, c))
    by (rewrite S4; reflexivity).
  run_step.
  (* the roll *)
  eapply runs_bind with
    (Q := fun xm g' => g' = g /\ shape (fst xm) = shape t4 /\ wf (fst xm)
                       /\ if roll_
                          then roll t4 [- s_0; - s_1; - s_2] [1; 2; 3]%nat = Ok (fst xm)
                          else fst xm = t4).
  { destruct roll_.
    - repeat run_step.
      destruct (@roll3_ok R scalar t4 (- s_0) (- s_1) (- s_2) W4) as (t5 & E5' & S5 & W5);
        [rewrite S4; reflexivity|].
      run_step.
      destruct (Hmask t5 [wz; wh; ww] [s_0; s_1; s_2] (lam self)) as (mask & Em).
      run_step. apply runs_ret. cbn [fst]. auto.
    - apply runs_ret. cbn [fst]. auto. }
  intros [t5 mask] g5 (-> & S5 & W5 & Hroll). cbn [fst] in S5, W5, Hroll. cbv beta iota.
  rewrite S4 in S5.
  repeat run_step.
  rewrite S5. cbn [nth].
  set (nz := (z + p_f + p_k) / wz) in *.
  set (nh := (h + p_t + p_b) / wh) in *.
  set (nw := (w + p_l + p_r) / ww) in *.
  destruct (@reshape_hole R t5 [b; nz; wz; nh; wh; nw; ww] [] c W5) as (t6 & E6 & S6 & W6);
    [positive_shape | positive_shape | lia
     | rewrite S5, !numel_cons, numel_nil, Hpz, Hph, Hpw; ring |].
  cbn [app] in E6, S6. run_step.
  destruct (@permute_ok R scalar t6 [0; 1; 3; 5; 2; 4; 6; 7]%nat) as (t7 & E7 & S7 & W7);
    [rewrite S6; reflexivity | rewrite S6; cbn [map nth]; positive_shape |].
  rewrite S6 in S7. cbn [map nth] in S7. run_step.
  assert (Hvol : 0 < wz * wh * ww) by nia.
  assert (Hcount : 0 < b * nz * nh * nw) by nia.
  destruct (@reshape_hole R t7 [] [wz * wh * ww; c] (b * nz * nh * nw) W7)
    as (t8 & E8 & S8 & W8);
    [positive_shape | positive_shape | lia
     | rewrite S7, !numel_cons, numel_nil; ring |].
  cbn [app] in E8, S8. run_step.
  (* the attention *)
  eapply runs_bind with (Q := fun y g' => y = t8 /\ g' = g).
  { exists t8, g. split; [|auto].
    destruct (checkpoint_activation self); unfold checkpoint, call_attention;
      rewrite Hid; reflexivity. }
  intros t9 g9 [-> ->]. cbv beta iota.
  destruct (@reshape_hole R t8 [b; nz; nh; nw; wz; wh; ww] [] c W8) as (t10 & E10 & S10 & W10);
    [positive_shape | positive_shape | lia
     | rewrite S8, !numel_cons, numel_nil; ring |].
  cbn [app] in E10, S10. run_step.
  assert (H10 : t10 = t7).
  { apply same_tensor; [congruence|].
    rewrite (reshape_data _ _ E10), (reshape_data _ _ E8). reflexivity. }
  subst t10.
  destruct (@permute_ok R scalar t7 [0; 1; 4; 2; 5; 3; 6; 7]%nat) as (t11 & E11 & S11 & W11);
    [rewrite S7; reflexivity | rewrite S7; cbn [map nth]; positive_shape |].
  run_step.
  assert (H11 : t11 = t6) by exact (permute_windows_back W6 S6 E7 E11).
  subst t11.
  destruct (@reshape_hole R t6 [b; z + p_f + p_k; h + p_t + p_b; w + p_l + p_r] [] c W6)
    as (t12 & E12 & S12 & W12);
    [positive_shape | positive_shape | lia
     | rewrite S6, !numel_cons, numel_nil, Hpz, Hph, Hpw; ring |].
  cbn [app] in E12, S12. run_step.
  assert (H12 : t12 = t5).
  { apply same_tensor; [congruence|].
    rewrite (reshape_data _ _ E12), (reshape_data _ _ E6). reflexivity. }
  subst t12.
  (* the roll back *)
  eapply runs_bind with (Q := fun y g' => y = t4 /\ g' = g).
  { destruct roll_.
    - repeat run_step.
      destruct (@roll3_ok R scalar t5 s_0 s_1 s_2 W5) as (t13 & E13 & S13 & W13);
        [rewrite S5; reflexivity|].
      run_step. split; [|reflexivity].
      exact (@roll_back R scalar t4 t5 t13 b (z + p_f + p_k) (h + p_t + p_b) (w + p_l + p_r) c
                        s_0 s_1 s_2 W4 S4 Hroll E13).
    - subst t5. apply runs_ret. auto. }
  intros t13 g13 [-> ->]. cbv beta iota.
  (* the crop *)
  destruct (@crop_ok R scalar t4 b (z + p_f + p_k) (h + p_t + p_b) (w + p_l + p_r) c
                     p_l p_r p_t p_b p_f p_k S4) as (t14 & E14 & S14 & W14); [lia..|].
  assert (H14 : t14 = t1)
    by exact (@pad_crop_back R scalar (pad3D self) t1 t2 t3 t4 t14 b z h w c
                             p_l p_r p_t p_b p_f p_k W1 S1 Hpad Hl Hr Ht Hbt Hf Hk
                             E2 E3 E4 E14).
  subst t14. run_step.
  assert (E15 : unpack5 (shape t1) = Ok (b, z, h, w, c)) by (rewrite S1; reflexivity).
  run_step.
  assert (Hn : 0 < z * h * w) by nia.
  destruct (@reshape_hole R t1 [b] [c] (z * h * w) W1) as (t15 & E15' & S15 & W15);
    [positive_shape | positive_shape | lia
     | rewrite S1, !numel_cons, numel_nil; ring |].
  cbn [app] in E15', S15. run_step.
  apply runs_ret. split; [|reflexivity]. f_equal.
  apply same_tensor; [congruence|].
  rewrite (reshape_data _ _ E15'). exact D1.
Qed.

End WindowRoundTrip.

(** ** Shapes that do not fit *)

Lemma infer_shape_mismatch (n : Z) (s : list Z) :
  Forall (fun d => 0 < d) s -> numel s <> n -> infer_shape n s = Raise RuntimeError_shape.
Proof.
  intros Hs Hn. unfold infer_shape.
  destruct (positive_no_hole Hs) as (E1 & E2 & _ & _).
  rewrite E1, E2. apply Z.eqb_neq in Hn. rewrite Hn. reflexivity.
Qed.

Lemma infer_shape_hole_mismatch (n : Z) (pre post : list Z) :
  Forall (fun d => 0 < d) pre -> Forall (fun d => 0 < d) post ->
  n mod (numel pre * numel post) <> 0 ->
  infer_shape n (pre ++ -1 :: post) = Raise RuntimeError_shape.
Proof.
  intros Hpre Hpost Hn. unfold infer_shape.
  destruct (positive_no_hole Hpre) as (A1 & A2 & A3 & _).
  destruct (positive_no_hole Hpost) as (B1 & B2 & B3 & _).
  rewrite existsb_app. cbn [existsb]. rewrite A1, B1. cbn [orb].
  replace (-1 <? -1) with false by reflexivity. cbn [orb].
  rewrite count_occ_app. cbn [count_occ].
  destruct (Z.eq_dec (-1) (-1)) as [_|Hne]; [|contradiction].
  rewrite A2, B2. cbn [Nat.add].
  rewrite remove_app. cbn [remove].
  destruct (Z.eq_dec (-1) (-1)) as [_|Hne]; [|contradiction].
  rewrite A3, B3, numel_app.
  pose proof (numel_pos Hpre) as Ppre. pose proof (numel_pos Hpost) as Ppost.
  assert (Hk : 0 < numel pre * numel post) by (apply Z.mul_pos_pos; assumption).
  assert (Hne : (numel pre * numel post =? 0) = false) by (apply Z.eqb_neq; lia).
  rewrite Hne. apply Z.eqb_neq in Hn. rewrite Hn. reflexivity.
Qed.

Section LinVertShapes.
Variable R : Type.
Context {scalar : Scalar R}.
Variable Rng : Type.

Lemma movedim_levels_out (t : Tensor R) (b pl n c : Z) :
  shape t = [b; pl; n; c] -> movedim t 1 (-2) = permute t [0; 2; 1; 3]%nat.
Proof. intros Hs. unfold movedim. rewrite Hs. reflexivity. Qed.

Lemma movedim_levels_in (t : Tensor R) (b n pl c : Z) :
  shape t = [b; n; pl; c] -> movedim t (-2) 1 = permute t [0; 2; 1; 3]%nat.
Proof. intros Hs. unfold movedim. rewrite Hs. reflexivity. Qed.

Lemma flatten_last_two (t : Tensor R) (b n pl c : Z) :
  wf t -> shape t = [b; n; pl; c] ->
  exists t', flatten t (-2) (-1) = Ok t'
             /\ shape t' = [b; n; pl * c] /\ data t' = data t /\ wf t'.
Proof.
  intros [Hl Hp] Hs. unfold flatten. rewrite Hs.
  cbn [length].
  change (normalize_dim 4 (-2)) with (@Ok exn nat 2%nat).
  change (normalize_dim 4 (-1)) with (@Ok exn nat 3%nat).
  cbn [rbind Nat.ltb Nat.leb Nat.sub firstn skipn app].
  rewrite !numel_cons, numel_nil, Z.mul_1_r.
  eexists. split; [reflexivity|]. split; [reflexivity|]. split; [reflexivity|].
  rewrite Hs in Hl, Hp. split; cbn [shape data].
  - rewrite Hl, !numel_cons, numel_nil. f_equal. ring.
  - pose proof (Forall_inv Hp). pose proof (Forall_inv (Forall_inv_tail Hp)).
    pose proof (Forall_inv (Forall_inv_tail (Forall_inv_tail Hp))).
    pose proof (Forall_inv (Forall_inv_tail (Forall_inv_tail (Forall_inv_tail Hp)))).
    cbv beta in *. repeat (apply Forall_cons; [nia|]). apply Forall_nil.
Qed.

Lemma flatten_middle_two (t : Tensor R) (b pl n c : Z) :
  wf t -> shape t = [b; pl; n; c] ->
  exists t', flatten t 1 2 = Ok t'
             /\ shape t' = [b; pl * n; c] /\ data t' = data t /\ wf t'.
Proof.
  intros [Hl Hp] Hs. unfold flatten. rewrite Hs.
  cbn [length].
  change (normalize_dim 4 1) with (@Ok exn nat 1%nat).
  change (normalize_dim 4 2) with (@Ok exn nat 2%nat).
  cbn [rbind Nat.ltb Nat.leb Nat.sub firstn skipn app].
  rewrite !numel_cons, numel_nil, Z.mul_1_r.
  eexists. split; [reflexivity|]. split; [reflexivity|]. split; [reflexivity|].
  rewrite Hs in Hl, Hp. split; cbn [shape data].
  - rewrite Hl, !numel_cons, numel_nil. f_equal. ring.
  - pose proof (Forall_inv Hp). pose proof (Forall_inv (Forall_inv_tail Hp)).
    pose proof (Forall_inv (Forall_inv_tail (Forall_inv_tail Hp))).
    pose proof (Forall_inv (Forall_inv_tail (Forall_inv_tail (Forall_inv_tail Hp)))).
    cbv beta in *. repeat (apply Forall_cons; [nia|]). apply Forall_nil.
Qed.

End LinVertShapes.

(** ** LinVert *)

Section LinVertForward.
Variable R : Type.
Context {scalar : Scalar R}.
Variable Rng : Type.

Lemma LinVert_forward_runs (self : LinVert R Rng) (x : Tensor R) (b pl n c : Z) (g : Rng)
      (P : Tensor R -> Tensor R -> Rng -> Prop) :
  tuple_get_end (embedding_size self) 3 = Ok pl -> 0 < pl -> 0 < n ->
  wf x -> shape x = [b; pl * n; c] ->
  (forall t3, wf t3 -> shape t3 = [b; n; pl * c] ->
              runs_to (call (fc1 self) t3) g
                      (fun t4 g' => shape t4 = [b; n; pl * c] /\ wf t4 /\ P t3 t4 g')) ->
  runs_to (LinVert_forward self x) g
          (fun y g' => shape y = [b; pl * n; c] /\ wf y
                       /\ exists t3 t4, P t3 t4 g' /\ (t4 = t3 -> tadd x x = Ok y)).
Proof.
  intros Hpl Hp Hn Hx Hsx Hfc.
  destruct (wf_tokens Hx Hsx) as (Hb & _ & Hc).
  unfold LinVert_forward. rewrite Hsx, Hpl. unfold tuple_get_end.
  cbn [length Nat.ltb Nat.leb Nat.sub tuple_get nth_error].
  repeat run_step.
  destruct (@reshape_hole R x [b; pl] [c] n Hx) as (t1 & E1 & S1 & W1);
    [positive_shape | positive_shape | lia
     | rewrite Hsx, !numel_cons, numel_nil; ring |].
  cbn [app] in E1, S1. run_step.
  destruct (@permute_ok R scalar t1 [0; 2; 1; 3]%nat) as (t2 & E2 & S2 & W2);
    [rewrite S1; reflexivity | rewrite S1; cbn [map nth]; positive_shape |].
  rewrite S1 in S2. cbn [map nth] in S2.
  rewrite <- (@movedim_levels_out R scalar t1 b pl n c S1) in E2. run_step.
  destruct (@flatten_last_two R t2 b n pl c W2 S2) as (t3 & E3 & S3 & D3 & W3).
  run_step.
  eapply runs_bind; [exact (Hfc t3 W3 S3)|].
  intros t4 g4 (S4 & W4 & HP). cbv beta iota. rewrite S4.
  cbn [length Nat.ltb Nat.leb Nat.sub tuple_get nth_error].
  repeat run_step.
  destruct (@reshape_hole R t4 [b] [pl; c] n W4) as (t5 & E5 & S5 & W5);
    [positive_shape | positive_shape | lia
     | rewrite S4, !numel_cons, numel_nil; ring |].
  cbn [app] in E5, S5. run_step.
  destruct (@permute_ok R scalar t5 [0; 2; 1; 3]%nat) as (t6 & E6 & S6 & W6);
    [rewrite S5; reflexivity | rewrite S5; cbn [map nth]; positive_shape |].
  rewrite S5 in S6. cbn [map nth] in S6.
  pose proof E6 as E6'.
  rewrite <- (@movedim_levels_in R scalar t5 b n pl c S5) in E6'. run_step.
  destruct (@flatten_middle_two R t6 b pl n c W6 S6) as (t7 & E7 & S7 & D7 & W7).
  run_step.
  destruct (@binop_same R scalar sadd x t7 [b; pl * n; c] Hx Hsx S7) as (y & Ey & Sy & Wy).
  fold (tadd x t7) in Ey. run_step.
  split; [exact Sy|]. split; [exact Wy|].
  exists t3, t4. split; [exact HP|]. intros ->.
  assert (H5 : t5 = t2).
  { apply same_tensor; [congruence|]. rewrite (reshape_data _ _ E5). exact D3. }
  subst t5.
  assert (H6 : t6 = t1) by exact (@permute_levels_back R scalar t1 t2 t6 b pl n c W1 S1
                                    ltac:(rewrite <- (@movedim_levels_out R scalar t1 b pl n c S1);
                                          exact E2) E6).
  subst t6.
  assert (H7 : t7 = x).
  { apply same_tensor; [congruence|]. rewrite D7. exact (reshape_data _ _ E1). }
  subst t7. exact Ey.
Qed.

End LinVertForward.

(** ** Rules for computations that raise *)

Section Raises.
Variable R : Type.
Context {scalar : Scalar R}.
Variable Rng : Type.

Lemma raise_bind_lift {A B : Type} (r : result exn A) (a : A) (k : A -> M Rng B)
      (g : Rng) (e : exn) :
  r = Ok a -> k a g = Raise e -> bind (lift r) k g = Raise e.
Proof. intros -> E. exact E. Qed.

Lemma raise_bind_lift_here {A B : Type} (r : result exn A) (k : A -> M Rng B)
      (g : Rng) (e : exn) :
  r = Raise e -> bind (lift r) k g = Raise e.
Proof. intros ->. reflexivity. Qed.

Lemma raise_bind_lift_ext_here {A B : Type} (r : result ext_exn A) (k : A -> M Rng B)
      (g : Rng) (e : ext_exn) :
  r = Raise e -> bind (lift_ext r) k g = Raise (CollaboratorError e).
Proof. intros ->. reflexivity. Qed.

Lemma raise_bind_runs {A B : Type} (m : M Rng A) (k : A -> M Rng B) (g : Rng)
      (Q : A -> Rng -> Prop) (e : exn) :
  runs_to m g Q -> (forall a g', Q a g' -> k a g' = Raise e) -> bind m k g = Raise e.
Proof.
  intros (a & g' & E & HQ) Hk. unfold bind. rewrite E. exact (Hk a g' HQ).
Qed.

Lemma raise_bind_here {A B : Type} (m : M Rng A) (k : A -> M Rng B) (g : Rng) (e : exn) :
  m g = Raise e -> bind m k g = Raise e.
Proof. intros E. unfold bind. rewrite E. reflexivity. Qed.

End Raises.

Ltac raise_step :=
  match goal with
  | E : ?r = Ok ?a |- bind (lift ?r) _ _ = Raise _ =>
      eapply raise_bind_lift; [exact E|]; cbv beta iota
  | |- bind (lift (Ok _)) _ _ = Raise _ =>
      eapply raise_bind_lift; [reflexivity|]; cbv beta iota
  end.

(** ** The attention mask and the embedding shape *)

Section MaskAndShape.
Variable R : Type.
Context {scalar : Scalar R}.
Variable Rng : Type.

(** X3.  A forward call without roll never generates an attention mask: its
    result is the same whatever the mask generator is.  A forward call with
    roll on well-formed tokens reaches the generator, and an exception the
    generator raises is the exception of the call. *)
Theorem mask_only_with_roll (self : EarthSpecificBlock R Rng) (x : Tensor R)
        (b z h w c : Z) (g : Rng) :
  (forall gen gen' embedding_shape cond_embed,
      EarthSpecificBlock_forward gen self x embedding_shape cond_embed false g
      = EarthSpecificBlock_forward gen' self x embedding_shape cond_embed false g)
  /\ (forall gen (e : ext_exn),
         (forall t ws ss l, gen t ws ss l = Raise e) ->
         block_geometry_ok self z h w -> module_ok (norm1 self) ->
         wf x -> shape x = [b; z * h * w; c] -> 0 < z -> 0 < h -> 0 < w ->
         EarthSpecificBlock_forward gen self x [b; z; h; w; c] None true g
         = Raise (CollaboratorError e)).
Proof.
  split; [reflexivity|].
  intros gen e Hgen
         (wz & wh & ww & p_l & p_r & p_t & p_b & p_f & p_k & Hws & Hwz & Hwh & Hww & Hlen
          & Hpad & Hl & Hr & Ht & Hbt & Hf & Hk & Hmz & Hmh & Hmw)
         Hn1 Hx Hsx Hz Hh Hw.
  destruct (wf_tokens Hx Hsx) as (Hb & _ & Hc).
  unfold EarthSpecificBlock_forward.
  eapply raise_bind_runs; [apply forward_modulate_none; assumption|].
  intros [y m] g1 (_ & Sy & Wy). cbn [fst snd] in Sy, Wy. cbv beta iota.
  rewrite Hsx in Sy.
  apply raise_bind_here.
  destruct (shift_size self) as [|s_0 [|s_1 [|s_2 [|? ?]]]] eqn:Hss; try discriminate Hlen.
  unfold forward_window_attention, view. rewrite Hss.
  cbn [tuple_get nth_error length Nat.eqb negb].
  destruct (@reshape_exact R y [b; z; h; w; c]) as (t1 & E1 & S1 & W1 & D1);
    [exact Wy | positive_shape | rewrite Sy, !numel_cons, numel_nil; ring |].
  raise_step.
  destruct (@permute_ok R scalar t1 [0; 4; 1; 2; 3]%nat) as (t2 & E2 & S2 & W2);
    [rewrite S1; reflexivity | rewrite S1; cbn [map nth]; positive_shape |].
  rewrite S1 in S2. cbn [map nth] in S2. raise_step.
  destruct (@pad_ok R scalar (pad3D self) t2 b c z h w p_l p_r p_t p_b p_f p_k S2 Hpad)
    as (t3 & E3 & S3 & W3); [positive_shape|].
  raise_step.
  destruct (@permute_ok R scalar t3 [0; 2; 3; 4; 1]%nat) as (t4 & E4 & S4 & W4);
    [rewrite S3; reflexivity | rewrite S3; cbn [map nth]; positive_shape |].
  rewrite S3 in S4. cbn [map nth] in S4. raise_step.
  assert (E5 : unpack5 (shape t4)
               = Ok (b, z + p_f + p_k, h + p_t + p_b, w + p_l + p_r, c))
    by (rewrite S4; reflexivity).
  raise_step.
  apply raise_bind_here.
  repeat raise_step.
  destruct (@roll3_ok R scalar t4 (- s_0) (- s_1) (- s_2) W4) as (t5 & E5' & S5 & W5);
    [rewrite S4; reflexivity|].
  raise_step.
  apply raise_bind_lift_ext_here. apply Hgen.
Qed.

(** X4.  An embedding shape that does not hold as many elements as the
    tokens is refused when the tokens are viewed in it, before any padding
    or attention: the call raises the shape error of torch. *)
Theorem embedding_shape_mismatch (gen : Tensor R -> list Z -> list Z -> bool ->
                                        result ext_exn (Tensor R))
        (self : EarthSpecificBlock R Rng) (x : Tensor R) (embedding_shape : list Z)
        (roll_ : bool) (g : Rng) :
  module_ok (norm1 self) -> wf x ->
  Forall (fun d => 0 < d) embedding_shape ->
  numel embedding_shape <> numel (shape x) ->
  EarthSpecificBlock_forward gen self x embedding_shape None roll_ g
  = Raise RuntimeError_shape.
Proof.
  intros Hn1 Hx Hes Hne.
  unfold EarthSpecificBlock_forward.
  eapply raise_bind_runs; [apply forward_modulate_none; assumption|].
  intros [y m] g1 (_ & Sy & Wy). cbn [fst snd] in Sy, Wy. cbv beta iota.
  apply raise_bind_here. unfold forward_window_attention.
  apply raise_bind_lift_here. unfold view, reshape.
  rewrite infer_shape_mismatch; [reflexivity | exact Hes | congruence].
Qed.

End MaskAndShape.

(** ** The axial rearrangement *)

Section AxialRoundTrip.
Variable R : Type.
Context {scalar : Scalar R}.
Variable Rng : Type.

Lemma permute_columns_back (t t1 t2 : Tensor R) (b pl lat lon c : Z) :
  wf t -> shape t = [b; pl; lat; lon; c] ->
  permute t [0; 2; 3; 1; 4]%nat = Ok t1 ->
  permute t1 [0; 3; 1; 2; 4]%nat = Ok t2 ->
  t2 = t.
Proof. intros Hw Hs E1 E2. permute_there_and_back scalar Hw Hs E1 E2. Qed.

Lemma rearrange_columns_back (x x2 x3 : Tensor R) (b pl lat lon c : Z) :
  wf x -> shape x = [b; pl * lat * lon; c] -> 0 < pl -> 0 < lat -> 0 < lon ->
  rearrange_to_columns x pl lat lon = Ok x2 ->
  rearrange_from_columns x2 b lat lon = Ok x3 ->
  x3 = x.
Proof.
  intros Hx Hs Hpl Hlat Hlon E E'. destruct (wf_tokens Hx Hs) as (Hb & _ & Hc).
  unfold rearrange_to_columns in E. rewrite Hs, Z.eqb_refl in E.
  destruct (@reshape_exact R x [b; pl; lat; lon; c]) as (t1 & E1 & S1 & W1 & D1);
    [exact Hx | positive_shape | rewrite Hs, !numel_cons, numel_nil; ring |].
  rewrite E1 in E. cbn [rbind] in E.
  destruct (@permute_ok R scalar t1 [0; 2; 3; 1; 4]%nat) as (t2 & E2 & S2 & W2);
    [rewrite S1; reflexivity | rewrite S1; cbn [map nth]; positive_shape |].
  rewrite S1 in S2. cbn [map nth] in S2. rewrite E2 in E. cbn [rbind] in E.
  assert (Hn : 0 < b * lat * lon) by nia.
  destruct (@reshape_exact R t2 [b * lat * lon; pl; c]) as (t3 & E3 & S3 & W3 & D3);
    [exact W2 | positive_shape | rewrite S2, !numel_cons, numel_nil; ring |].
  rewrite E3 in E. apply Ok_inj in E. subst x2.
  unfold rearrange_from_columns in E'. rewrite S3, Z.eqb_refl in E'.
  destruct (@reshape_exact R t3 [b; lat; lon; pl; c]) as (t4 & E4 & S4 & W4 & D4);
    [exact W3 | positive_shape | rewrite S3, !numel_cons, numel_nil; ring |].
  rewrite E4 in E'. cbn [rbind] in E'.
  assert (H4 : t4 = t2) by (apply same_tensor; congruence). subst t4.
  destruct (@permute_ok R scalar t2 [0; 3; 1; 2; 4]%nat) as (t5 & E5 & S5 & W5);
    [rewrite S2; reflexivity | rewrite S2; cbn [map nth]; positive_shape |].
  rewrite E5 in E'. cbn [rbind] in E'.
  assert (H5 : t5 = t1) by exact (@permute_columns_back t1 t2 t5 b pl lat lon c W1 S1 E2 E5).
  subst t5.
  assert (Hm : 0 < pl * lat * lon) by nia.
  destruct (@reshape_exact R t1 [b; pl * lat * lon; c]) as (t6 & E6 & S6 & W6 & D6);
    [exact W1 | positive_shape | rewrite S1, !numel_cons, numel_nil; ring |].
  rewrite E6 in E'. apply Ok_inj in E'. subst x3.
  apply same_tensor; congruence.
Qed.

(** X5.  In a block with axial attention whose positional embedding and
    axial attention return their input, the third part of [forward] returns
    the tokens it is given: regrouping the tokens by column and back changes
    nothing. *)
Theorem axial_rearrangement_round_trip (self : EarthSpecificBlock R Rng)
        (axis_pos_embed axial_attn : Module R Rng) (x : Tensor R) (b z h w c : Z) (g : Rng) :
  axial self = Some (axis_pos_embed, axial_attn) ->
  returns_input axis_pos_embed -> returns_input axial_attn ->
  wf x -> shape x = [b; z * h * w; c] -> 0 < z -> 0 < h -> 0 < w ->
  forward_axial_attention self x (b, z, h, w) g = Ok (Some x, g).
Proof.
  intros Hax Hpos Hattn Hx Hs Hz Hh Hw. destruct (wf_tokens Hx Hs) as (Hb & _ & Hc).
  unfold forward_axial_attention. rewrite Hax.
  destruct (@rearrange_to_columns_ok R scalar x b z h w c Hx Hs Hz Hh Hw)
    as (t1 & E1 & S1 & W1).
  destruct (@rearrange_from_columns_ok R scalar t1 b z h w c W1 S1 Hb Hh Hw)
    as (t2 & E2 & S2 & W2).
  assert (H2 : t2 = x) by exact (@rearrange_columns_back x t1 t2 b z h w c Hx Hs Hz Hh Hw E1 E2).
  subst t2.
  unfold bind, lift, call, ret. rewrite E1, Hpos. cbn [run_ext].
  rewrite Hattn. cbn [run_ext]. rewrite E2. reflexivity.
Qed.

End AxialRoundTrip.

(** ** Construction of a layer *)

Section LayerConstruction.
Variable R : Type.
Context {scalar : Scalar R}.
Variable Rng : Type.
Variable generate_3d_attention_mask :
  Tensor R -> list Z -> list Z -> bool -> result ext_exn (Tensor R).

Lemma build_blocks_nth (mods : list (Submodules R Rng)) (data_size window_size : list Z)
      (use_axial use_checkpoint use_lam : bool) :
  forall (count i : nat) (bs : list (EarthSpecificBlock R Rng)),
    build_blocks mods i count data_size window_size use_axial use_checkpoint use_lam = Ok bs ->
    forall (j : nat) (block : EarthSpecificBlock R Rng),
      nth_error bs j = Some block ->
      exists m, nth_error mods (i + j) = Some m
                /\ EarthSpecificBlock_init m data_size window_size use_axial use_checkpoint
                                           use_lam = Ok block.
Proof.
  induction count as [|count IH]; intros i bs Hb j block Hj; cbn [build_blocks] in Hb.
  - apply Ok_inj in Hb. subst bs. destruct j; discriminate Hj.
  - destruct (nth_error mods i) as [m|] eqn:Em; [|discriminate].
    destruct (EarthSpecificBlock_init m _ _ _ _ _) as [b0|] eqn:Einit; [|discriminate].
    cbn [rbind] in Hb.
    destruct (build_blocks mods (S i) count _ _ _ _ _) as [rest|] eqn:Erest; [|discriminate].
    cbn [rbind] in Hb. apply Ok_inj in Hb. subst bs.
    destruct j as [|j]; cbn [nth_error] in Hj.
    + injection Hj as <-. exists m. rewrite Nat.add_0_r. auto.
    + destruct (IH (S i) rest Erest j block Hj) as (m' & Em' & Einit').
      exists m'. rewrite <- Nat.add_succ_comm. auto.
Qed.

(** X6.  A layer that was constructed holds [depth] blocks, none when
    [depth] is negative, and block [i] is the block that the constructor of
    a block builds from the modules of position [i]: every block has the
    window size and the flags given to the layer, the same shift size, and
    modules of its own. *)
Theorem layer_blocks_by_position (depth : Z) (data_size : list Z)
        (mods : list (Submodules R Rng)) (ws : list Z)
        (use_axial use_checkpoint use_lam : bool) (layer : EarthSpecificLayer R Rng) :
  EarthSpecificLayer_init depth data_size mods ws use_axial use_checkpoint use_lam
  = Ok layer ->
  length (blocks layer) = Z.to_nat depth
  /\ forall (i : nat) (block : EarthSpecificBlock R Rng),
       nth_error (blocks layer) i = Some block ->
       exists m, nth_error mods i = Some m
                 /\ EarthSpecificBlock_init m data_size ws use_axial use_checkpoint use_lam
                    = Ok block
                 /\ window_size block = ws
                 /\ shift_size block = map ceil_half ws
                 /\ checkpoint_activation block = use_checkpoint
                 /\ lam block = use_lam
                 /\ drop_path block = new_DropPath m
                 /\ attention block = new_EarthAttention3D m.
Proof.
  unfold EarthSpecificLayer_init. intros Hinit.
  destruct (build_blocks mods 0 (Z.to_nat depth) _ _ _ _ _) as [bs|] eqn:Eb; [|discriminate].
  cbn [rbind] in Hinit. apply Ok_inj in Hinit. subst layer. cbn [blocks].
  split; [exact (build_blocks_length _ _ _ _ _ _ _ _ Eb)|].
  intros i block Hi.
  destruct (@build_blocks_nth mods data_size ws use_axial use_checkpoint use_lam
                              (Z.to_nat depth) 0%nat bs Eb i block Hi) as (m & Em & Einit).
  exists m. cbn [Nat.add] in Em. split; [exact Em|]. split; [exact Einit|].
  unfold EarthSpecificBlock_init in Einit.
  destruct (negb _); [discriminate|].
  destruct (CustomPad3d_init _ _); [|discriminate]. cbn [rbind] in Einit.
  destruct (if use_axial then _ else _); [|discriminate]. cbn [rbind] in Einit.
  apply Ok_inj in Einit. subst block.
  cbn [window_size shift_size checkpoint_activation lam drop_path attention].
  repeat split. apply map_ext. intros w. apply ceil_half_floor.
Qed.

(** X7.  A layer of depth 0 or less is constructed without a single check:
    whatever the window size, the data size and the modules, it has no
    block, and its forward pass returns its tokens and its generator. *)
Theorem empty_layer (depth : Z) (data_size : list Z) (mods : list (Submodules R Rng))
        (ws : list Z) (use_axial use_checkpoint use_lam : bool) :
  depth <= 0 ->
  EarthSpecificLayer_init depth data_size mods ws use_axial use_checkpoint use_lam
  = Ok {| blocks := [] |}
  /\ forall (x : Tensor R) (embedding_shape : list Z) (cond_embed : option (Tensor R))
            (g : Rng),
       EarthSpecificLayer_forward generate_3d_attention_mask {| blocks := [] |} x
                                  embedding_shape cond_embed g = Ok (x, g).
Proof.
  intros Hd. split; [|reflexivity].
  unfold EarthSpecificLayer_init. replace (Z.to_nat depth) with 0%nat by lia. reflexivity.
Qed.

Lemma build_blocks_short (mods : list (Submodules R Rng)) (data_size window_size : list Z)
      (use_axial use_checkpoint use_lam : bool) :
  (forall m, In m mods ->
             exists block, EarthSpecificBlock_init m data_size window_size use_axial
                                                   use_checkpoint use_lam = Ok block) ->
  forall (count i : nat),
    (i <= length mods)%nat ->
    (length mods < i + count)%nat ->
    build_blocks mods i count data_size window_size use_axial use_checkpoint use_lam
    = Raise IndexError.
Proof.
  intros Hok. induction count as [|count IH]; intros i Hle Hlen; cbn [build_blocks].
  - lia.
  - destruct (nth_error mods i) as [m|] eqn:Em; [|reflexivity].
    assert (Hi : (i < length mods)%nat) by (apply nth_error_Some; congruence).
    destruct (Hok m (nth_error_In _ _ Em)) as (block & Einit). rewrite Einit. cbn [rbind].
    rewrite IH by lia. reflexivity.
Qed.

End LayerConstruction.

Section LayerErrors.
Variable R : Type.
Context {scalar : Scalar R}.
Variable Rng : Type.

(** X8.  When the modules of the blocks, one entry per drop-path ratio, are
    fewer than [depth], and each block that has an entry can be constructed,
    the constructor of the layer raises an IndexError: the entry of
    position [i] is read before block [i] is built. *)
Theorem too_few_drop_path_ratios (depth : Z) (data_size : list Z)
        (mods : list (Submodules R Rng)) (ws : list Z)
        (use_axial use_checkpoint use_lam : bool) :
  (length mods < Z.to_nat depth)%nat ->
  (forall m, In m mods ->
             exists block, EarthSpecificBlock_init m data_size ws use_axial use_checkpoint
                                                   use_lam = Ok block) ->
  EarthSpecificLayer_init depth data_size mods ws use_axial use_checkpoint use_lam
  = Raise IndexError.
Proof.
  intros Hlen Hok. unfold EarthSpecificLayer_init.
  rewrite (@build_blocks_short R Rng mods data_size ws use_axial use_checkpoint use_lam Hok
             (Z.to_nat depth) 0%nat); [reflexivity | lia | lia].
Qed.

End LayerErrors.

(** ** Layers with activation checkpointing *)

Section CheckpointedLayers.
Variable R : Type.
Context {scalar : Scalar R}.
Variable Rng : Type.
Variable generate_3d_attention_mask :
  Tensor R -> list Z -> list Z -> bool -> result ext_exn (Tensor R).

Lemma forward_window_attention_checkpointed (self : EarthSpecificBlock R Rng) (x : Tensor R)
      (b z h w c : Z) (roll_ : bool) (g : Rng) :
  block_geometry_ok self z h w ->
  checkpoint_activation self = true ->
  attention_signature (attention self) ->
  mask_ok generate_3d_attention_mask ->
  wf x -> shape x = [b; z * h * w; c] -> 0 < z -> 0 < h -> 0 < w ->
  forward_window_attention generate_3d_attention_mask self x [b; z; h; w; c] roll_ g
  = Raise (CollaboratorError (TypeError_positional 3 5)).
Proof.
  intros (wz & wh & ww & p_l & p_r & p_t & p_b & p_f & p_k & Hws & Hwz & Hwh & Hww & Hlen
          & Hpad & Hl & Hr & Ht & Hbt & Hf & Hk & Hmz & Hmh & Hmw)
         Hck Hsig Hmask Hx Hsx Hz Hh Hw.
  destruct (wf_tokens Hx Hsx) as (Hb & _ & Hc).
  destruct (shift_size self) as [|s_0 [|s_1 [|s_2 [|? ?]]]] eqn:Hss; try discriminate Hlen.
  destruct (@py_floordiv_exact (z + p_f + p_k) wz) as (Efz & Hpz & Hnz); [lia..|].
  destruct (@py_floordiv_exact (h + p_t + p_b) wh) as (Efh & Hph & Hnh); [lia..|].
  destruct (@py_floordiv_exact (w + p_l + p_r) ww) as (Efw & Hpw & Hnw); [lia..|].
  unfold forward_window_attention, view. rewrite Hws, Hss, Hpad.
  cbn [tuple_get nth_error length Nat.eqb negb].
  destruct (@reshape_exact R x [b; z; h; w; c]) as (t1 & E1 & S1 & W1 & _);
    [exact Hx | positive_shape | rewrite Hsx, !numel_cons, numel_nil; ring |].
  raise_step.
  destruct (@permute_ok R scalar t1 [0; 4; 1; 2; 3]%nat) as (t2 & E2 & S2 & W2);
    [rewrite S1; reflexivity | rewrite S1; cbn [map nth]; positive_shape |].
  rewrite S1 in S2. cbn [map nth] in S2. raise_step.
  destruct (@pad_ok R scalar (pad3D self) t2 b c z h w p_l p_r p_t p_b p_f p_k S2 Hpad)
    as (t3 & E3 & S3 & W3); [positive_shape|].
  raise_step.
  destruct (@permute_ok R scalar t3 [0; 2; 3; 4; 1]%nat) as (t4 & E4 & S4 & W4);
    [rewrite S3; reflexivity | rewrite S3; cbn [map nth]; positive_shape |].
  rewrite S3 in S4. cbn [map nth] in S4. raise_step.
  assert (E5 : unpack5 (shape t4)
               = Ok (b, z + p_f + p_k, h + p_t + p_b, w + p_l + p_r, c))
    by (rewrite S4; reflexivity).
  raise_step.
  eapply raise_bind_runs with (Q := fun xm _ => shape (fst xm) = shape t4 /\ wf (fst xm)).
  { destruct roll_.
    - repeat run_step.
      destruct (@roll3_ok R scalar t4 (- s_0) (- s_1) (- s_2) W4) as (t5 & E5' & S5 & W5);
        [rewrite S4; reflexivity|].
      run_step.
      destruct (Hmask t5 [wz; wh; ww] [s_0; s_1; s_2] (lam self)) as (mask & Em).
      run_step. apply runs_ret. cbn [fst]. split; assumption.
    - apply runs_ret. cbn [fst]. split; [reflexivity | exact W4]. }
  intros [t5 mask] g5 [S5 W5]. cbn [fst] in S5, W5. cbv beta iota. rewrite S4 in S5.
  repeat raise_step.
  rewrite S5. cbn [nth].
  set (nz := (z + p_f + p_k) / wz) in *.
  set (nh := (h + p_t + p_b) / wh) in *.
  set (nw := (w + p_l + p_r) / ww) in *.
  destruct (@reshape_hole R t5 [b; nz; wz; nh; wh; nw; ww] [] c W5) as (t6 & E6 & S6 & W6);
    [positive_shape | positive_shape | lia
     | rewrite S5, !numel_cons, numel_nil, Hpz, Hph, Hpw; ring |].
  cbn [app] in E6, S6. raise_step.
  destruct (@permute_ok R scalar t6 [0; 1; 3; 5; 2; 4; 6; 7]%nat) as (t7 & E7 & S7 & W7);
    [rewrite S6; reflexivity | rewrite S6; cbn [map nth]; positive_shape |].
  rewrite S6 in S7. cbn [map nth] in S7. raise_step.
  assert (Hvol : 0 < wz * wh * ww) by nia.
  assert (Hcount : 0 < b * nz * nh * nw) by nia.
  destruct (@reshape_hole R t7 [] [wz * wh * ww; c] (b * nz * nh * nw) W7)
    as (t8 & E8 & S8 & W8);
    [positive_shape | positive_shape | lia
     | rewrite S7, !numel_cons, numel_nil; ring |].
  cbn [app] in E8, S8. raise_step.
  rewrite Hck. apply raise_bind_here. unfold checkpoint, call_attention.
  rewrite Hsig by (cbn [length]; lia). reflexivity.
Qed.

Lemma block_forward_checkpointed (self : EarthSpecificBlock R Rng) (x : Tensor R)
      (cond_embed : option (Tensor R)) (b z h w c : Z) (roll_ : bool) (g : Rng) :
  block_geometry_ok self z h w -> module_ok (norm1 self) ->
  checkpoint_activation self = true ->
  attention_signature (attention self) ->
  mask_ok generate_3d_attention_mask ->
  wf x -> shape x = [b; z * h * w; c] -> 0 < z -> 0 < h -> 0 < w ->
  match cond_embed with
  | Some ce => wf ce /\ shape ce = [b; 6 * c]
  | None => True
  end ->
  EarthSpecificBlock_forward generate_3d_attention_mask self x [b; z; h; w; c]
                             cond_embed roll_ g
  = Raise (CollaboratorError (TypeError_positional 3 5)).
Proof.
  intros Hgeo Hn1 Hck Hsig Hmask Hx Hsx Hz Hh Hw Hcond.
  unfold EarthSpecificBlock_forward.
  eapply raise_bind_runs with
    (Q := fun ym _ => shape (fst ym) = [b; z * h * w; c] /\ wf (fst ym)).
  { destruct cond_embed as [ce|].
    - destruct Hcond as [Hce Hsce].
      eapply runs_weaken; [apply (@forward_modulate_some R scalar Rng self x ce b
                                    (z * h * w) c g); assumption|].
      intros [y m] g' (Sy & Wy & _). cbn [fst] in *. auto.
    - eapply runs_weaken; [apply forward_modulate_none; assumption|].
      intros [y m] g' (_ & Sy & Wy). cbn [fst] in *. rewrite Hsx in Sy. auto. }
  intros [x1 modulation] g1 (S1 & W1). cbn [fst] in S1, W1. cbv beta iota.
  apply raise_bind_here.
  apply forward_window_attention_checkpointed; assumption.
Qed.

Lemma init_attention (mods : Submodules R Rng) (data_size ws : list Z)
      (use_axial use_checkpoint use_lam : bool) (block : EarthSpecificBlock R Rng) :
  EarthSpecificBlock_init mods data_size ws use_axial use_checkpoint use_lam = Ok block ->
  attention block = new_EarthAttention3D mods.
Proof.
  unfold EarthSpecificBlock_init. intros E.
  destruct (negb _); [discriminate|].
  destruct (CustomPad3d_init _ _); [|discriminate]. cbn [rbind] in E.
  destruct (if use_axial then _ else _); [|discriminate]. cbn [rbind] in E.
  apply Ok_inj in E. subst block. reflexivity.
Qed.

(** C7.  A layer built without activation checkpointing returns, and
    returns tokens of the flattened shape (batch, level * lat * lon,
    channel) it was given, for any modules that keep the shape of their
    input.  A layer of at least one block built with activation
    checkpointing does not: with an attention whose forward takes [x],
    [mask] and [batch_size], as the call without checkpointing supposes,
    its first block raises the [TypeError] of the checkpointed call, which
    passes [padded_z] and [padded_h] as well. *)
Theorem layer_forward_shape_unless_checkpointed
        (depth : Z) (data_size : list Z) (mods : list (Submodules R Rng))
        (wz wh ww : Z) (use_axial use_lam : bool) (b z h w c : Z) (x : Tensor R)
        (cond_embed : option (Tensor R)) (g : Rng) :
  last3 data_size = [z; h; w] -> 0 < wz -> 0 < wh -> 0 < ww ->
  0 < z -> 0 < h -> 0 < w ->
  Forall (fun m => submodules_ok m) mods ->
  mask_ok generate_3d_attention_mask ->
  wf x -> shape x = [b; z * h * w; c] ->
  match cond_embed with
  | Some ce => wf ce /\ shape ce = [b; 6 * c]
  | None => True
  end ->
  (forall layer : EarthSpecificLayer R Rng,
      EarthSpecificLayer_init depth data_size mods [wz; wh; ww] use_axial false use_lam
      = Ok layer ->
      exists out g',
        EarthSpecificLayer_forward generate_3d_attention_mask layer x [b; z; h; w; c]
                                   cond_embed g = Ok (out, g')
        /\ shape out = [b; z * h * w; c])
  /\ (forall layer : EarthSpecificLayer R Rng,
         0 < depth ->
         Forall (fun m => attention_signature (new_EarthAttention3D m)) mods ->
         EarthSpecificLayer_init depth data_size mods [wz; wh; ww] use_axial true use_lam
         = Ok layer ->
         EarthSpecificLayer_forward generate_3d_attention_mask layer x [b; z; h; w; c]
                                    cond_embed g
         = Raise (CollaboratorError (TypeError_positional 3 5))).
Proof.
  intros Hds Hwz Hwh Hww Hz Hh Hw Hmods Hmask Hx Hsx Hcond. split.
  - intros layer Hinit.
    destruct (@layer_forward_ok R scalar Rng generate_3d_attention_mask depth data_size mods
                wz wh ww use_axial use_lam layer b z h w c x cond_embed g)
      as (out & g' & E & S & _); try assumption.
    exists out, g'. auto.
  - intros layer Hdepth Hsig Hinit.
    unfold EarthSpecificLayer_init in Hinit.
    destruct (Z.to_nat depth) as [|count] eqn:Ed; [lia|].
    cbn [build_blocks] in Hinit.
    destruct (nth_error mods 0) as [m|] eqn:Em; [|discriminate].
    destruct (EarthSpecificBlock_init m _ _ _ _ _) as [block|] eqn:Eblock; [|discriminate].
    cbn [rbind] in Hinit.
    destruct (build_blocks mods 1 count _ _ _ _ _) as [rest|]; [|discriminate].
    cbn [rbind] in Hinit. apply Ok_inj in Hinit. subst layer.
    apply nth_error_In in Em.
    rewrite Forall_forall in Hmods, Hsig.
    destruct (@block_init_ok R Rng m data_size wz wh ww z h w use_axial true use_lam
                block Eblock Hds Hwz Hwh Hww (Hmods m Em))
      as (Hgeo & (_ & Hn1 & _) & Hck & _).
    pose proof (init_attention _ _ _ _ _ _ Eblock) as Hattn.
    unfold EarthSpecificLayer_forward. cbn [blocks layer_loop].
    change (0 mod 2 =? 0) with true. cbv iota.
    apply raise_bind_here.
    apply block_forward_checkpointed; try assumption.
    rewrite Hattn. exact (Hsig m Em).
Qed.

End CheckpointedLayers.

(** ** LinVert *)

Section LinVertProperties.
Variable R : Type.
Context {scalar : Scalar R}.
Variable Rng : Type.

(** X9.  [LinVert.forward] returns, and its output has the shape of its
    input, when the tokens are [pl] levels of [n] columns, [pl] being
    [embedding_size[-3]], and [fc1] keeps the shape of its input. *)
Theorem LinVert_forward_keeps_shape (self : LinVert R Rng) (x : Tensor R) (b pl n c : Z)
        (g : Rng) :
  module_ok (fc1 self) ->
  tuple_get_end (embedding_size self) 3 = Ok pl -> 0 < pl -> 0 < n ->
  wf x -> shape x = [b; pl * n; c] ->
  exists y g', LinVert_forward self x g = Ok (y, g') /\ shape y = shape x /\ wf y.
Proof.
  intros Hfc Hpl Hp Hn Hx Hsx.
  destruct (@LinVert_forward_runs R scalar Rng self x b pl n c g (fun _ _ _ => True)
              Hpl Hp Hn Hx Hsx) as (y & g' & E & Sy & Wy & _).
  - intros t3 W3 S3. destruct (Hfc t3 g W3) as (t4 & g4 & E4 & S4 & W4).
    exists t4, g4. split; [unfold call; rewrite E4; reflexivity|].
    split; [congruence|]. split; [exact W4|exact I].
  - exists y, g'. split; [exact E|]. split; [congruence|exact Wy].
Qed.

(** X10.  The two rearrangements of [LinVert.forward] undo each other: when
    [fc1] returns its input, the output is [x + x], element by element, and
    the generator is the one given. *)
Theorem LinVert_rearrangement_round_trip (self : LinVert R Rng) (x : Tensor R)
        (b pl n c : Z) (g : Rng) :
  returns_input (fc1 self) ->
  tuple_get_end (embedding_size self) 3 = Ok pl -> 0 < pl -> 0 < n ->
  wf x -> shape x = [b; pl * n; c] ->
  exists y, tadd x x = Ok y /\ LinVert_forward self x g = Ok (y, g).
Proof.
  intros Hfc Hpl Hp Hn Hx Hsx.
  destruct (@LinVert_forward_runs R scalar Rng self x b pl n c g
              (fun t3 t4 g' => t4 = t3 /\ g' = g)
              Hpl Hp Hn Hx Hsx) as (y & g' & E & Sy & Wy & t3 & t4 & [H34 Hg] & Hy).
  - intros t3 W3 S3. exists t3, g.
    split; [unfold call; rewrite (Hfc t3 g); reflexivity|]. auto.
  - subst g'. exists y. split; [exact (Hy H34)|exact E].
Qed.

(** X11.  When the number of tokens is not a multiple of the number of
    levels [embedding_size[-3]], [LinVert.forward] raises the shape error of
    its first [reshape], before [fc1] is called. *)
Theorem LinVert_indivisible_tokens (self : LinVert R Rng) (x : Tensor R) (b pl n c : Z)
        (g : Rng) :
  tuple_get_end (embedding_size self) 3 = Ok pl -> 0 < pl ->
  wf x -> shape x = [b; n; c] -> n mod pl <> 0 ->
  LinVert_forward self x g = Raise RuntimeError_shape.
Proof.
  intros Hpl Hp Hx Hsx Hmod.
  destruct (wf_tokens Hx Hsx) as (Hb & Hn & Hc).
  unfold LinVert_forward. rewrite Hsx, Hpl. unfold tuple_get_end.
  cbn [length Nat.ltb Nat.leb Nat.sub tuple_get nth_error].
  repeat raise_step.
  apply raise_bind_lift_here. unfold reshape. rewrite Hsx.
  change [b; pl; -1; c] with ([b; pl] ++ -1 :: [c]).
  rewrite (@infer_shape_hole_mismatch (numel [b; n; c]) [b; pl] [c]);
    [reflexivity | positive_shape | positive_shape |].
  rewrite !numel_cons, numel_nil. intros Hdiv. apply Hmod.
  apply Z.mod_divide in Hdiv; [|nia]. destruct Hdiv as [k Hk].
  apply Z.mod_divide; [lia|]. exists k.
  assert (Hbc : 0 < b * c) by nia.
  apply (Z.mul_reg_r _ _ (b * c)); [lia|]. rewrite <- Z.mul_assoc.
  replace (n * (b * c)) with (b * (n * (c * 1))) by ring. rewrite Hk. ring.
Qed.

End LinVertProperties.

(** ** Conditioning *)

Section Conditioning.
Variable R : Type.
Context {scalar : Scalar R}.
Variable Rng : Type.
Variable generate_3d_attention_mask :
  Tensor R -> list Z -> list Z -> bool -> result ext_exn (Tensor R).

Local Abbreviation EarthSpecificBlock_forward :=
  (EarthSpecificBlock_forward generate_3d_attention_mask).
Local Abbreviation CondBasicLayer_forward :=
  (CondBasicLayer_forward generate_3d_attention_mask).

Lemma chunk_narrow (ce : Tensor R) (b k : Z) :
  wf ce -> shape ce = [b; k] -> k < 6 ->
  exists chunks, chunk ce 6 1 = Ok chunks /\ length chunks = Z.to_nat k.
Proof.
  intros Hw Hs Hk. pose proof Hw as [_ Hp]. rewrite Hs in Hp.
  pose proof (Forall_inv (Forall_inv_tail Hp)) as Hk0. cbv beta in Hk0.
  unfold chunk. rewrite Hs. cbn [nth_error].
  replace ((k + 6 - 1) / 6) with 1 by (Z.to_euclidean_division_equations; lia).
  change (1 =? 0) with false. cbv iota.
  replace ((k + 1 - 1) / 1) with k by (rewrite Z.div_1_r; lia).
  assert (Hcases : k = 1 \/ k = 2 \/ k = 3 \/ k = 4 \/ k = 5) by lia.
  destruct Hcases as [-> | [-> | [-> | [-> | ->]]]];
    match goal with
    | |- context [Z.to_nat ?k] =>
        let n := eval compute in (Z.to_nat k) in change (Z.to_nat k) with n
    end;
    cbn [seq fold_right repeat app];
    repeat match goal with
           | |- context [slice_dims ce [None; Some (Z.of_nat ?i * 1, Z.of_nat ?i * 1 + 1)]] =>
               let t := fresh "t" in
               let E := fresh "E" in
               destruct (@slice_cols_ok R scalar ce b _ (Z.of_nat i * 1) 1 Hw Hs)
                 as (t & E & _); [lia | lia | lia |];
               rewrite E; clear E; cbn [rbind]
           end;
    eexists; (split; [reflexivity|]); reflexivity.
Qed.

(** X12.  A conditioning embedding of 1 to 5 columns, given to a
    block, is split into as many chunks as it has columns, and unpacking
    them into the six modulation tensors raises a ValueError that names the
    two numbers. *)
Theorem narrow_conditioning_unpack_error (self : EarthSpecificBlock R Rng)
        (x ce : Tensor R) (embedding_shape : list Z) (b k : Z) (roll_ : bool) (g : Rng) :
  module_ok (norm1 self) -> wf x ->
  wf ce -> shape ce = [b; k] -> k < 6 ->
  EarthSpecificBlock_forward self x embedding_shape (Some ce) roll_ g
  = Raise (ValueError_unpack 6 (Z.to_nat k)).
Proof.
  intros Hn1 Hx Hce Hs Hk.
  destruct (chunk_narrow Hce Hs Hk) as (chunks & Ech & Hlen).
  apply raise_bind_here. unfold forward_modulate.
  eapply raise_bind_runs; [apply runs_call; eassumption|].
  intros y g1 _. cbv beta. eapply raise_bind_lift; [exact Ech|]. cbv beta.
  assert (Hne : length chunks <> 6%nat) by lia.
  rewrite <- Hlen.
  destruct chunks as [|c0 [|c1 [|c2 [|c3 [|c4 [|c5 [|c6 rest]]]]]]]; try reflexivity.
  contradiction Hne; reflexivity.
Qed.

(** X13.  A conditioning embedding whose width is not the input width of
    the linear map of [adaLN_modulation] makes [CondBasicLayer.forward]
    raise a shape error, whatever the blocks are: no block is run. *)
Theorem conditioning_width_mismatch (self : CondBasicLayer R Rng) (x cond_emb : Tensor R)
        (embedding_shape : list Z) (b n m k : Z) (g : Rng) :
  shape (adaLN_weight self) = [m; k] -> shape cond_emb = [b; n] -> n <> k ->
  CondBasicLayer_forward self x embedding_shape (Some cond_emb) g
  = Raise RuntimeError_shape.
Proof.
  intros Hw Hc Hne. apply raise_bind_here. apply raise_bind_lift_here.
  unfold adaLN_modulation, linear. cbn [tmap shape]. rewrite Hc, Hw. cbn [rev app].
  apply Z.eqb_neq in Hne. rewrite Hne. cbn [andb].
  destruct (shape (adaLN_bias self)) as [|m' [|? ?]]; reflexivity.
Qed.

Lemma linear_ok (weight bias x : Tensor R) (b n m : Z) :
  shape x = [b; n] -> shape weight = [m; n] -> shape bias = [m] -> 0 < b -> 0 < m ->
  exists y, linear weight bias x = Ok y /\ shape y = [b; m] /\ wf y.
Proof.
  intros Hx Hw Hb Hb0 Hm0. unfold linear. rewrite Hx, Hw, Hb. cbn [rev app].
  rewrite !Z.eqb_refl. cbn [andb].
  eexists. split; [reflexivity|]. split; [reflexivity|].
  apply wf_tensor_of_fn. positive_shape.
Qed.

(** X14.  With a conditioning embedding of [cond_dim] columns and any
    weights of the shapes the constructor gives them, trained ones
    included, [CondBasicLayer.forward] returns a tensor of the shape of its
    tokens, for blocks without activation checkpointing whose geometry fits
    the volume and whose modules keep the shape of their input. *)
Theorem cond_layer_forward_keeps_shape (self : CondBasicLayer R Rng) (x cond_emb : Tensor R)
        (b z h w dim cond_dim : Z) (g : Rng) :
  Forall (fun block => block_geometry_ok block z h w /\ block_modules_ok block
                       /\ checkpoint_activation block = false)
         (blocks (base self)) ->
  mask_ok generate_3d_attention_mask ->
  shape (adaLN_weight self) = [6 * dim; cond_dim] ->
  shape (adaLN_bias self) = [6 * dim] ->
  shape cond_emb = [b; cond_dim] ->
  wf x -> shape x = [b; z * h * w; dim] -> 0 < z -> 0 < h -> 0 < w ->
  exists y g', CondBasicLayer_forward self x [b; z; h; w; dim] (Some cond_emb) g
               = Ok (y, g')
               /\ shape y = shape x /\ wf y.
Proof.
  intros Hbs Hmask Hwt Hbias Hc Hx Hsx Hz Hh Hw.
  destruct (wf_tokens Hx Hsx) as (Hb & _ & Hdim).
  destruct (@linear_ok (adaLN_weight self) (adaLN_bias self) (tmap silu cond_emb)
              b cond_dim (6 * dim)) as (c & Ec & Sc & Wc);
    [exact Hc | exact Hwt | exact Hbias | lia | lia |].
  assert (Hrun : runs_to (CondBasicLayer_forward self x [b; z; h; w; dim] (Some cond_emb)) g
                         (fun y _ => shape y = [b; z * h * w; dim] /\ wf y)).
  { eapply runs_bind with (Q := fun o g' => o = Some c /\ g' = g).
    - exists (Some c), g. split; [|auto].
      unfold bind, lift, ret, adaLN_modulation. unfold adaLN_modulation in Ec.
      rewrite Ec. reflexivity.
    - intros o g' [-> ->]. cbv beta.
      apply (@layer_loop_ok R scalar Rng generate_3d_attention_mask (blocks (base self))
               (Some c) b z h w dim Hbs Hmask Hz Hh Hw (conj Wc Sc) 0 x g Hx Hsx). }
  destruct Hrun as (y & g' & E & Sy & Wy).
  exists y, g'. split; [exact E|]. split; [congruence|exact Wy].
Qed.

End Conditioning.

(** ** The properties above on the concrete blocks *)

Lemma ex_block_geometry (drop : Module Z unit) (attn : Attention Z unit)
      (axial_attn checkpoint_activation : bool) :
  block_geometry_ok (ex_block drop attn axial_attn checkpoint_activation) 2 3 2.
Proof.
  exists 2, 2, 2, 0, 0, 0, 1, 0, 0. cbn [ex_block window_size shift_size pad3D padding].
  repeat split; try reflexivity; lia.
Qed.

Lemma ex_tokens_wf : wf ex_tokens.
Proof. split; [reflexivity | repeat constructor; lia]. Qed.

Lemma window_attention_round_trip_witness :
  forward_window_attention ex_mask (ex_block ex_identity ex_attention false false)
                           ex_tokens [1; 2; 3; 2; 1] true tt
  = Ok ((ex_tokens, (1, 2, 3, 2)), tt).
Proof.
  refine (@window_attention_round_trip Z _ unit ex_mask
            (ex_block ex_identity ex_attention false false) ex_tokens 1 2 3 2 1 true tt
            (ex_block_geometry _ _ _ _) _ ex_mask_ok ex_tokens_wf eq_refl _ _ _); try lia.
  intros x_window mask args g'. reflexivity.
Defined.

Lemma mask_only_with_roll_witness :
  EarthSpecificBlock_forward (fun _ _ _ _ => Raise (TypeError_positional 4 0))
                             (ex_block ex_identity ex_attention false false)
                             ex_tokens [1; 2; 3; 2; 1] None true tt
  = Raise (CollaboratorError (TypeError_positional 4 0)).
Proof.
  refine (proj2 (@mask_only_with_roll Z _ unit
                   (ex_block ex_identity ex_attention false false) ex_tokens 1 2 3 2 1 tt)
                (fun _ _ _ _ => Raise (TypeError_positional 4 0)) (TypeError_positional 4 0)
                _ (ex_block_geometry _ _ _ _) ex_identity_ok ex_tokens_wf eq_refl _ _ _);
    try lia.
  intros t ws ss l. reflexivity.
Defined.

Lemma embedding_shape_mismatch_witness :
  EarthSpecificBlock_forward ex_mask (ex_block ex_identity ex_attention false false)
                             ex_tokens [1; 2; 3; 3; 1] None false tt
  = Raise RuntimeError_shape.
Proof.
  refine (@embedding_shape_mismatch Z _ unit ex_mask
            (ex_block ex_identity ex_attention false false) ex_tokens [1; 2; 3; 3; 1]
            false tt ex_identity_ok ex_tokens_wf _ _).
  - repeat constructor; lia.
  - vm_compute. discriminate.
Defined.

Lemma axial_rearrangement_round_trip_witness :
  forward_axial_attention (ex_block ex_identity ex_attention true false) ex_tokens
                          (1, 2, 3, 2) tt
  = Ok (Some ex_tokens, tt).
Proof.
  refine (@axial_rearrangement_round_trip Z _ unit
            (ex_block ex_identity ex_attention true false) ex_identity ex_identity
            ex_tokens 1 2 3 2 1 tt eq_refl _ _ ex_tokens_wf eq_refl _ _ _); try lia.
  - intros x g. reflexivity.
  - intros x g. reflexivity.
Defined.

Lemma layer_blocks_by_position_witness :
  length (blocks {| blocks := [ex_block ex_double ex_attention false false;
                               ex_block ex_identity ex_attention false false] |}) = 2%nat
  /\ exists m,
       nth_error [ex_mods ex_double ex_attention; ex_mods ex_identity ex_attention] 1
       = Some m
       /\ drop_path (ex_block ex_identity ex_attention false false) = new_DropPath m.
Proof.
  pose proof (@layer_blocks_by_position Z unit 2 [2; 3; 2]
                [ex_mods ex_double ex_attention; ex_mods ex_identity ex_attention]
                [2; 2; 2] false false false
                {| blocks := [ex_block ex_double ex_attention false false;
                              ex_block ex_identity ex_attention false false] |}
                eq_refl) as [Hlen Hnth].
  split; [exact Hlen|].
  destruct (Hnth 1%nat (ex_block ex_identity ex_attention false false) eq_refl)
    as (m & Em & _ & _ & _ & _ & _ & Hdrop & _).
  exists m. split; [exact Em | exact Hdrop].
Defined.

Lemma empty_layer_witness :
  EarthSpecificLayer_init (R := Z) (Rng := unit) (-1) [] [] [3; 5] true false false
  = Ok {| blocks := [] |}
  /\ EarthSpecificLayer_forward ex_mask {| blocks := [] |} ex_tokens [7] None tt
     = Ok (ex_tokens, tt).
Proof.
  pose proof (@empty_layer Z _ unit ex_mask (-1) [] [] [3; 5] true false false
                ltac:(lia)) as [Hinit Hfwd].
  split; [exact Hinit | exact (Hfwd ex_tokens [7] None tt)].
Defined.

Lemma too_few_drop_path_ratios_witness :
  EarthSpecificLayer_init 2 [2; 3; 2] [ex_mods ex_identity ex_attention] [2; 2; 2]
                          false false false
  = Raise IndexError.
Proof.
  refine (@too_few_drop_path_ratios Z unit 2 [2; 3; 2] [ex_mods ex_identity ex_attention]
            [2; 2; 2] false false false _ _).
  - cbn. lia.
  - intros m [<- | []]. eexists. reflexivity.
Defined.

Lemma ex_linvert_tokens_wf : wf (mkTensor [1; 4; 1] [1; 2; 3; 4]).
Proof. split; [reflexivity | repeat constructor; lia]. Qed.

Lemma LinVert_forward_keeps_shape_witness :
  exists y g', LinVert_forward ex_linvert (mkTensor [1; 4; 1] [1; 2; 3; 4]) tt = Ok (y, g')
               /\ shape y = [1; 4; 1] /\ wf y.
Proof.
  refine (@LinVert_forward_keeps_shape Z _ unit ex_linvert (mkTensor [1; 4; 1] [1; 2; 3; 4])
            1 2 2 1 tt ex_identity_ok eq_refl _ _ ex_linvert_tokens_wf eq_refl); lia.
Defined.

Lemma LinVert_rearrangement_round_trip_witness :
  exists y, tadd (mkTensor [1; 4; 1] [1; 2; 3; 4]) (mkTensor [1; 4; 1] [1; 2; 3; 4]) = Ok y
            /\ LinVert_forward ex_linvert (mkTensor [1; 4; 1] [1; 2; 3; 4]) tt = Ok (y, tt).
Proof.
  refine (@LinVert_rearrangement_round_trip Z _ unit ex_linvert
            (mkTensor [1; 4; 1] [1; 2; 3; 4]) 1 2 2 1 tt _ eq_refl _ _
            ex_linvert_tokens_wf eq_refl); try lia.
  intros x g. reflexivity.
Defined.

Lemma LinVert_indivisible_tokens_witness :
  LinVert_forward ex_linvert (mkTensor [1; 3; 1] [1; 2; 3]) tt = Raise RuntimeError_shape.
Proof.
  refine (@LinVert_indivisible_tokens Z _ unit ex_linvert (mkTensor [1; 3; 1] [1; 2; 3])
            1 2 3 1 tt eq_refl _ _ eq_refl _).
  - lia.
  - split; [reflexivity | repeat constructor; lia].
  - vm_compute. discriminate.
Defined.

Lemma narrow_conditioning_unpack_error_witness :
  EarthSpecificBlock_forward ex_mask (ex_block ex_identity ex_attention false false)
                             ex_tokens ex_embedding_shape (Some ex_cond_vector) false tt
  = Raise (ValueError_unpack 6 2).
Proof.
  refine (@narrow_conditioning_unpack_error Z _ unit ex_mask
            (ex_block ex_identity ex_attention false false) ex_tokens ex_cond_vector
            ex_embedding_shape 1 2 false tt ex_identity_ok ex_tokens_wf _ eq_refl _).
  - split; [reflexivity | repeat constructor; lia].
  - lia.
Defined.

Lemma conditioning_width_mismatch_witness :
  CondBasicLayer_forward ex_mask ex_cond_layer ex_tokens ex_embedding_shape (Some ex_cond) tt
  = Raise RuntimeError_shape.
Proof.
  refine (@conditioning_width_mismatch Z _ unit ex_mask ex_cond_layer ex_tokens ex_cond
            ex_embedding_shape 1 6 6 2 tt eq_refl eq_refl _).
  lia.
Defined.

Lemma cond_layer_forward_keeps_shape_witness :
  exists y g',
    CondBasicLayer_forward ex_mask
      {| base := {| blocks := [ex_block ex_double ex_attention true false] |};
         adaLN_weight := mkTensor [6; 2] [1; 2; 3; 4; 5; 6; 7; 8; 9; 10; 11; 12];
         adaLN_bias := mkTensor [6] [1; 0; 1; 0; 1; 0] |}
      ex_tokens [1; 2; 3; 2; 1] (Some ex_cond_vector) tt = Ok (y, g')
    /\ shape y = shape ex_tokens /\ wf y.
Proof.
  refine (@cond_layer_forward_keeps_shape Z _ unit ex_mask
            {| base := {| blocks := [ex_block ex_double ex_attention true false] |};
               adaLN_weight := mkTensor [6; 2] [1; 2; 3; 4; 5; 6; 7; 8; 9; 10; 11; 12];
               adaLN_bias := mkTensor [6] [1; 0; 1; 0; 1; 0] |}
            ex_tokens ex_cond_vector
            1 2 3 2 1 2 tt _ ex_mask_ok eq_refl eq_refl eq_refl ex_tokens_wf eq_refl
            _ _ _); try lia.
  apply Forall_cons; [|apply Forall_nil]. split; [apply ex_block_geometry|].
  split; [|reflexivity].
  unfold block_modules_ok.
  cbn [ex_block drop_path norm1 attention norm2 mlp axial checkpoint_activation].
  repeat split; try exact ex_identity_ok; try apply ex_attention_ok.
  intros x g Hx. exists (tmap (Z.mul 2) x), g. split; [reflexivity|].
  split; [reflexivity|]. destruct Hx as [Hl Hp]. split; [|exact Hp].
  cbn [tmap data shape]. rewrite length_map. exact Hl.
Defined.

Lemma checkpoint_agrees_when_arguments_ignored_witness :
  EarthSpecificBlock_forward ex_mask
    (set_checkpoint_activation (ex_block ex_double ex_attention true false) true)
    ex_tokens ex_embedding_shape (Some ex_cond) true tt
  = EarthSpecificBlock_forward ex_mask
      (set_checkpoint_activation (ex_block ex_double ex_attention true false) false)
      ex_tokens ex_embedding_shape (Some ex_cond) true tt.
Proof.
  refine (@checkpoint_agrees_when_arguments_ignored Z _ unit ex_mask
            (ex_block ex_double ex_attention true false) _
            ex_tokens ex_embedding_shape (Some ex_cond) true tt).
  intros x_window mask batch_size padded_z padded_h g. reflexivity.
Defined.

Lemma ex_mods3_ok : submodules_ok (ex_mods ex_identity ex_attention3).
Proof. repeat split; try exact ex_identity_ok. apply ex_attention3_ok. Qed.

Lemma layer_forward_shape_unless_checkpointed_witness :
  (exists out g',
      EarthSpecificLayer_forward ex_mask ex_layer (zeros [1; 8 * 36 * 72; 96])
                                 [1; 8; 36; 72; 96] None tt = Ok (out, g')
      /\ shape out = [1; 8 * 36 * 72; 96])
  /\ EarthSpecificLayer_init 2 [2; 3; 2]
                             [ex_mods ex_identity ex_attention3;
                              ex_mods ex_identity ex_attention3]
                             [2; 2; 2] false true false
     = Ok {| blocks := [ex_block ex_identity ex_attention3 false true;
                        ex_block ex_identity ex_attention3 false true] |}
  /\ EarthSpecificLayer_forward ex_mask
       {| blocks := [ex_block ex_identity ex_attention3 false true;
                     ex_block ex_identity ex_attention3 false true] |}
       ex_tokens [1; 2; 3; 2; 1] None tt
     = Raise (CollaboratorError (TypeError_positional 3 5)).
Proof.
  split; [|split; [reflexivity|]].
  - refine (proj1 (@layer_forward_shape_unless_checkpointed Z _ unit ex_mask
                     2 [8; 36; 72]
                     [ex_mods ex_identity ex_attention; ex_mods ex_identity ex_attention]
                     2 6 12 false false 1 8 36 72 96 (zeros [1; 8 * 36 * 72; 96]) None tt
                     eq_refl _ _ _ _ _ _ _ ex_mask_ok _ eq_refl I)
                  ex_layer eq_refl); try lia.
    + repeat constructor; apply ex_mods_ok.
    + apply wf_zeros. repeat constructor; lia.
  - refine (proj2 (@layer_forward_shape_unless_checkpointed Z _ unit ex_mask
                     2 [2; 3; 2]
                     [ex_mods ex_identity ex_attention3; ex_mods ex_identity ex_attention3]
                     2 2 2 false false 1 2 3 2 1 ex_tokens None tt
                     eq_refl _ _ _ _ _ _ _ ex_mask_ok ex_tokens_wf eq_refl I)
                  _ _ _ eq_refl); try lia.
    + repeat constructor; apply ex_mods3_ok.
    + repeat constructor; apply ex_attention3_signature.
Defined.
